(** * UPI and call fraud detection: the scoring pipeline

    A shallow embedding of [app/utils/prediction.py],
    [app/utils/feature_engineering_upi.py],
    [app/utils/feature_engineering_cdr.py],
    [app/utils/reason_generator.py] and of the run of
    [app/streamlit_app.py] from the uploaded table to the reasons.

    Numbers.  Python floats are modelled by exact rationals ([Q]); the
    special floats are separate constructors of [value].  Rounding of
    binary64 arithmetic is therefore not modelled: every statement below
    is about the exact value of the expressions the code evaluates.

    Tables.  A pandas DataFrame is its number of rows together with the
    list of its labelled columns, in order.  Labels may repeat (pd.concat
    can produce that); a raw table that comes out of pd.read_csv has
    pairwise distinct labels, which the statements assume where the code
    reads a column by its label.

    Text.  A Python [str] is held as its UTF-8 bytes.  [str.strip]
    removes the encodings of all the characters [str.isspace] accepts;
    [str.lower] is taken on the ASCII letters.

    Files.  The file system is part of the input: the schema file
    [config/feature_order.yaml] is absent or holds a mapping, and the key
    the code reads may be missing from it.

    Errors.  A Python exception is a value of [error]; a function that can
    raise returns a [result]. *)

From Stdlib Require Import List String Ascii Bool Arith ZArith QArith Qabs Qround Qminmax Lia Lqa.
Import ListNotations.
Local Open Scope string_scope.
Local Open Scope Q_scope.

Set Implicit Arguments.

(** ** Exceptions *)

Inductive error : Type :=
| FileNotFoundError (msg : string)
| KeyError (key : string)
| ValueError (msg : string)
| TypeError (msg : string).

Inductive result (A : Type) : Type :=
| Ok (a : A)
| Raise (e : error).

Arguments Ok {A} a.
Arguments Raise {A} e.

Definition bind {A B : Type} (r : result A) (k : A -> result B) : result B :=
  match r with
  | Ok a => k a
  | Raise e => Raise e
  end.

Notation "x <- r ;; k" := (bind r (fun x => k))
  (at level 61, r at next level, right associativity).

(** ** Risk buckets ([apply_risk_buckets]) *)

Module Buckets.

Definition high_label : string := "🔴 High".
Definition medium_label : string := "🟠 Medium".
Definition low_label : string := "🟢 Low".

(** The inner [categorize] closure; [p >= t] is [Qle_bool t p]. *)
Definition categorize (high_thresh medium_thresh p : Q) : string :=
  if Qle_bool high_thresh p then high_label
  else if Qle_bool medium_thresh p then medium_label
  else low_label.

(** The thresholds chosen for a mode: [(high_thresh, medium_thresh)]. *)
Definition thresholds (mode : string) : result (Q * Q) :=
  if String.eqb mode "upi" then Ok (0.97, 0.95)
  else if String.eqb mode "cdr" then Ok (0.70, 0.30)
  else Raise (ValueError
               ("❌ Unknown mode '" ++ mode ++ "' — expected 'upi' or 'cdr'")).


Definition apply_risk_buckets (probabilities : list Q) (mode : string)
  : result (list string) :=
  t <- thresholds mode ;;
  Ok (map (categorize (fst t) (snd t)) probabilities).

(** The three tiers in their order, and the tier a label names. *)
Inductive tier : Type := Low | Medium | High.

Definition rank (t : tier) : nat :=
  match t with Low => 0 | Medium => 1 | High => 2 end.

Definition tier_of (label : string) : option tier :=
  if String.eqb label high_label then Some High
  else if String.eqb label medium_label then Some Medium
  else if String.eqb label low_label then Some Low
  else None.

End Buckets.

(** ** Floats and cells *)

(** A float: a finite value, an infinity or NaN. *)
Inductive num : Type :=
| Fin (q : Q)
| Inf (negative : bool)
| NaN.

(** A cell of a table: a float or a text. *)
Inductive value : Type :=
| VNum (n : num)
| VStr (s : string).

Definition zero : value := VNum (Fin 0).
Definition of_bool (b : bool) : value := VNum (Fin (if b then 1 else 0)).

Definition is_num (v : value) : bool :=
  match v with VNum _ => true | VStr _ => false end.

Definition Qltb (a b : Q) : bool := negb (Qle_bool b a).

Module Float.

Definition neg (a : num) : num :=
  match a with
  | Fin q => Fin (- q)
  | Inf s => Inf (negb s)
  | NaN => NaN
  end.

Definition add (a b : num) : num :=
  match a, b with
  | NaN, _ | _, NaN => NaN
  | Fin x, Fin y => Fin (x + y)
  | Inf s, Fin _ | Fin _, Inf s => Inf s
  | Inf s, Inf t => if Bool.eqb s t then Inf s else NaN
  end.

Definition sub (a b : num) : num := add a (neg b).

Definition abs (a : num) : num :=
  match a with
  | Fin q => Fin (Qabs q)
  | Inf _ => Inf false
  | NaN => NaN
  end.

(** [a / b] in IEEE arithmetic, signed zeros apart: a finite value over 0
    is an infinity of the sign of the numerator, 0/0 is NaN. *)
Definition div (a b : num) : num :=
  match a, b with
  | NaN, _ | _, NaN => NaN
  | Fin x, Fin y =>
      if Qeq_bool y 0
      then (if Qeq_bool x 0 then NaN else Inf (Qltb x 0))
      else Fin (x / y)
  | Fin _, Inf _ => Fin 0
  | Inf s, Fin y => Inf (xorb s (Qltb y 0))
  | Inf _, Inf _ => NaN
  end.

(** [a > b]; false as soon as one side is NaN. *)
Definition gtb (a b : num) : bool :=
  match a, b with
  | NaN, _ | _, NaN => false
  | Fin x, Fin y => Qltb y x
  | Inf s, Fin _ => negb s
  | Fin _, Inf t => t
  | Inf s, Inf t => negb s && t
  end.

Definition ltb (a b : num) : bool := gtb b a.

(** [a == b]. *)
Definition eqb (a b : num) : bool :=
  match a, b with
  | Fin x, Fin y => Qeq_bool x y
  | Inf s, Inf t => Bool.eqb s t
  | _, _ => false
  end.

Definition isnan (a : num) : bool :=
  match a with NaN => true | _ => false end.

(** [Series.clip(lower, upper)] on one cell: NaN stays NaN. *)
Definition clip (lo hi : Q) (a : num) : num :=
  match a with
  | Fin q => if Qltb q lo then Fin lo else if Qltb hi q then Fin hi else Fin q
  | Inf true => Fin lo
  | Inf false => Fin hi
  | NaN => NaN
  end.

(** [Series.fillna(d)] on one cell. *)
Definition fillna (d : num) (a : num) : num :=
  match a with NaN => d | _ => a end.

End Float.

(** ** Text *)

Module Text.

(** [str.lower] on ASCII letters; every other byte is left as it is. *)
Definition lower_char (c : ascii) : ascii :=
  let n := nat_of_ascii c in
  if (65 <=? n)%nat && (n <=? 90)%nat then ascii_of_nat (n + 32) else c.

Fixpoint lower (s : string) : string :=
  match s with
  | EmptyString => EmptyString
  | String c r => String (lower_char c) (lower r)
  end.

(** Text is held as its UTF-8 bytes.  [is_space s]: [s] is the encoding of
    one of the characters [str.strip] removes, those [str.isspace]
    accepts: U+0009 to U+000D, U+001C to U+0020, U+0085, U+00A0, U+1680,
    U+2000 to U+200A, U+2028, U+2029, U+202F, U+205F and U+3000. *)
Definition is_space (s : string) : bool :=
  match map nat_of_ascii (list_ascii_of_string s) with
  | [a] => ((9 <=? a) && (a <=? 13)) || ((28 <=? a) && (a <=? 32))
  | [a; b] => (a =? 194) && ((b =? 133) || (b =? 160))
  | [a; b; c] =>
      ((a =? 225) && (b =? 154) && (c =? 128))
      || ((a =? 226) && (b =? 128)
          && (((128 <=? c) && (c <=? 138))
              || (c =? 168) || (c =? 169) || (c =? 175)))
      || ((a =? 226) && (b =? 129) && (c =? 159))
      || ((a =? 227) && (b =? 128) && (c =? 128))
  | _ => false
  end%nat.

(** Leading whitespace goes, one character of one, two or three bytes at
    a time. *)
Fixpoint lstrip (s : string) : string :=
  match s with
  | EmptyString => EmptyString
  | String a r =>
      if is_space (String a EmptyString) then lstrip r
      else
        match r with
        | EmptyString => s
        | String b r2 =>
            if is_space (String a (String b EmptyString)) then lstrip r2
            else
              match r2 with
              | EmptyString => s
              | String c r3 =>
                  if is_space (String a (String b (String c EmptyString)))
                  then lstrip r3
                  else s
              end
        end
  end.

(** Trailing whitespace goes: once the rest is stripped, a byte that with
    what is left of the rest makes up one whitespace character goes too. *)
Fixpoint rstrip (s : string) : string :=
  match s with
  | EmptyString => EmptyString
  | String c r =>
      let r' := rstrip r in
      if is_space (String c r') then EmptyString else String c r'
  end.

Definition strip (s : string) : string := rstrip (lstrip s).

(** [sep.join(l)]. *)
Definition join (sep : string) (l : list string) : string := String.concat sep l.

End Text.

(** ** Tables (pandas) *)

Definition series : Type := list value.

Record DataFrame : Type := mkDF {
  nrows : nat;
  columns : list (string * series)
}.

Definition labels (df : DataFrame) : list string := map fst (columns df).

Definition unique_labels (df : DataFrame) : Prop := NoDup (labels df).

Definition mem (c : string) (l : list string) : bool := existsb (String.eqb c) l.

(** [c in df.columns]. *)
Definition has_column (c : string) (df : DataFrame) : bool := mem c (labels df).

(** [set(names).issubset(df.columns)]. *)
Definition has_columns (names : list string) (df : DataFrame) : bool :=
  forallb (fun c => has_column c df) names.

Fixpoint lookup (c : string) (cols : list (string * series)) : option series :=
  match cols with
  | [] => None
  | (l, s) :: r => if String.eqb l c then Some s else lookup c r
  end.

(** [df[c]] for one label. *)
Definition get_column (c : string) (df : DataFrame) : result series :=
  match lookup c (columns df) with
  | Some s => Ok s
  | None => Raise (KeyError c)
  end.

(** [df[c] = s]: the column is replaced where it stands, or appended. *)
Definition set_column (c : string) (s : series) (df : DataFrame) : DataFrame :=
  if has_column c df
  then mkDF (nrows df)
         (map (fun p => if String.eqb (fst p) c then (c, s) else p) (columns df))
  else mkDF (nrows df) (columns df ++ [(c, s)])%list.

(** [df[c] = v] for a scalar [v]. *)
Definition set_scalar (c : string) (v : value) (df : DataFrame) : DataFrame :=
  set_column c (repeat v (nrows df)) df.

(** [for col in names: if col not in df.columns: df[col] = v]. *)
Definition add_missing (names : list string) (v : value) (df : DataFrame)
  : DataFrame :=
  fold_left (fun d c => if has_column c d then d else set_scalar c v d) names df.

(** [df.drop(columns=names, errors="ignore")]. *)
Definition drop_columns (names : list string) (df : DataFrame) : DataFrame :=
  mkDF (nrows df) (filter (fun p => negb (mem (fst p) names)) (columns df)).

(** [df[names]]: for each name in turn, every column that carries it. *)
Fixpoint select_columns (names : list string) (cols : list (string * series))
  : result (list (string * series)) :=
  match names with
  | [] => Ok []
  | n :: r =>
      match filter (fun p => String.eqb (fst p) n) cols with
      | [] => Raise (KeyError n)
      | m => rest <- select_columns r cols ;; Ok (m ++ rest)%list
      end
  end.

Definition select (names : list string) (df : DataFrame) : result DataFrame :=
  cols <- select_columns names (columns df) ;;
  Ok (mkDF (nrows df) cols).

(** [pd.concat([a, b], axis=1)] of two tables over the same index. *)
Definition concat_columns (a b : DataFrame) : DataFrame :=
  mkDF (nrows a) (columns a ++ columns b)%list.

(** [df.columns = [f(c) for c in df.columns]] and [df.rename(columns=...)]. *)
Definition relabel (f : string -> string) (df : DataFrame) : DataFrame :=
  mkDF (nrows df) (map (fun p => (f (fst p), snd p)) (columns df)).

Fixpoint series_map (f : value -> result value) (s : series) : result series :=
  match s with
  | [] => Ok []
  | v :: r => x <- f v ;; xs <- series_map f r ;; Ok (x :: xs)
  end.

Fixpoint series_zip (f : value -> value -> result value) (a b : series)
  : result series :=
  match a, b with
  | v :: r, w :: t => x <- f v w ;; xs <- series_zip f r t ;; Ok (x :: xs)
  | _, _ => Ok []
  end.

(** Arithmetic on a cell that holds a text raises. *)
Definition num_of (v : value) : result num :=
  match v with
  | VNum n => Ok n
  | VStr _ => Raise (TypeError "unsupported operand type: str")
  end.

Definition lift1 (f : num -> num) (v : value) : result value :=
  n <- num_of v ;; Ok (VNum (f n)).

Definition lift2 (f : num -> num -> num) (a b : value) : result value :=
  x <- num_of a ;; y <- num_of b ;; Ok (VNum (f x y)).

(** [series == 0] on one cell: a text is simply different from 0. *)
Definition is_zero (v : value) : bool :=
  match v with
  | VNum n => Float.eqb n (Fin 0)
  | VStr _ => false
  end.

Definition is_missing (v : value) : bool :=
  match v with
  | VNum n => Float.isnan n
  | VStr _ => false
  end.

(** [out.fillna(0.0)] on one cell. *)
Definition fill_zero (v : value) : value :=
  if is_missing v then zero else v.

(** [series.astype(int)] on one cell: truncation toward zero.  It is only
    applied to indicator columns, which hold no text. *)
Definition astype_int (v : value) : result value :=
  match v with
  | VNum (Fin q) =>
      Ok (VNum (Fin (inject_Z (if Qltb q 0 then Qceiling q else Qfloor q))))
  | VNum _ => Raise (ValueError "cannot convert non-finite values to integer")
  | VStr _ => Raise (ValueError "invalid literal for int()")
  end.

Section Pandas.

(** The numerical library's [log1p] on finite arguments above -1, the text
    of a finite float ([str(x)]) and the float a text parses to, if any. *)
Variable log1p_finite : Q -> Q.
Variable num_repr : Q -> string.
Variable parse_number : string -> option num.

(** Where the UPI schema file is looked for:
    [os.path.join(base_dir, "config", "feature_order.yaml")]. *)
Variable feature_order_path : string.

Definition log1p (a : num) : num :=
  match a with
  | Fin q =>
      if Qltb q (-1) then NaN
      else if Qeq_bool q (-1) then Inf true
      else Fin (log1p_finite q)
  | Inf false => Inf false
  | Inf true => NaN
  | NaN => NaN
  end.

(** [str(v)]. *)
Definition str_of_value (v : value) : string :=
  match v with
  | VStr s => s
  | VNum (Fin q) => num_repr q
  | VNum (Inf true) => "-inf"
  | VNum (Inf false) => "inf"
  | VNum NaN => "nan"
  end.

(** [pd.to_numeric(series, errors="coerce")] on one cell. *)
Definition to_numeric (v : value) : num :=
  match v with
  | VNum n => n
  | VStr s => match parse_number s with Some n => n | None => NaN end
  end.

(** [series.astype(float)] on one cell. *)
Definition astype_float (v : value) : result value :=
  match v with
  | VNum n => Ok (VNum n)
  | VStr s =>
      match parse_number s with
      | Some n => Ok (VNum n)
      | None => Raise (ValueError "could not convert string to float")
      end
  end.

(** [pd.get_dummies(s, prefix=prefix)]: one indicator column per level of
    [s], labelled [prefix_level]; missing cells belong to no level.  Levels
    are told apart by their text, and the order of the indicator columns
    (pandas sorts the levels) is never observed by the callers. *)
Definition level_label (prefix : string) (v : value) : string :=
  prefix ++ "_" ++ str_of_value v.

Definition indicator (prefix label : string) (v : value) : value :=
  of_bool (negb (is_missing v) && String.eqb (level_label prefix v) label).

Definition get_dummies (s : series) (prefix : string) : DataFrame :=
  let levels :=
    nodup string_dec
      (map (level_label prefix) (filter (fun v => negb (is_missing v)) s)) in
  mkDF (List.length s) (map (fun l => (l, map (indicator prefix l) s)) levels).

(** [df[target] = f(df[src])], cell by cell. *)
Definition assign1 (target src : string) (f : value -> result value)
    (df : DataFrame) : result DataFrame :=
  s <- get_column src df ;;
  r <- series_map f s ;;
  Ok (set_column target r df).

(** [df[target] = f(df[a], df[b])], cell by cell. *)
Definition assign2 (target a b : string) (f : value -> value -> result value)
    (df : DataFrame) : result DataFrame :=
  x <- get_column a df ;;
  y <- get_column b df ;;
  r <- series_zip f x y ;;
  Ok (set_column target r df).

Definition when (cond : bool) (f : DataFrame -> result DataFrame)
    (df : DataFrame) : result DataFrame :=
  if cond then f df else Ok df.

(** ** Feature reconstruction for UPI ([prepare_upi_features]) *)

Definition expected_types : list string :=
  ["type_CASH_IN"; "type_CASH_OUT"; "type_DEBIT"; "type_PAYMENT"; "type_TRANSFER"].

Definition placeholder_cols : list string :=
  ["sender_amount_mean"; "sender_amount_std"; "sender_amount_max"; "sender_tx_count";
   "sender_balance_mismatch_ratio"; "sender_zero_but_ratio";
   "dest_amount_mean"; "dest_amount_std"; "dest_tx_count"; "dest_zero_but_ratio";
   "tx_per_step_orig"; "amount_per_step_orig"; "avg_amount_per_step_orig";
   "balance_gap_ratio"; "relative_amount_to_mean_sender"; "amount_to_balance_orig_ratio";
   "amount_balance_gap"; "is_large_transfer"; "is_same_sender_receiver";
   "is_merchant_dest"; "is_customer_dest"; "amount_to_sender_mean_ratio";
   "amount_to_balance_gap_ratio"; "sender_activity_intensity"; "type_encoded"].

Definition label_columns : list string := ["isFraud"; "isFlaggedFraud"].
Definition unnecessary_columns : list string := ["step"; "nameOrig"; "nameDest"; "type"].

(** [1e-9]. *)
Definition eps : Q := 0.000000001.

(** [((x - amount).abs() > 1e-9).astype(int)]. *)
Definition mismatch (change amount : value) : result value :=
  c <- num_of change ;;
  a <- num_of amount ;;
  Ok (of_bool (Float.gtb (Float.abs (Float.sub c a)) (Fin eps))).

(** [((balance == 0) & (amount > 0)).astype(int)]. *)
Definition zero_but_amount (balance amount : value) : result value :=
  a <- num_of amount ;;
  Ok (of_bool (is_zero balance && Float.gtb a (Fin 0))).

(** [new / (old + 1e-9)]; the arguments come as [(old, new)]. *)
Definition balance_ratio (old new : value) : result value :=
  o <- num_of old ;;
  n <- num_of new ;;
  Ok (VNum (Float.div n (Float.add o (Fin eps)))).

(** Section 1 of the function, the core transformations. *)
Definition core_transformations (df : DataFrame) : result DataFrame :=
  df <- when (has_column "amount" df)
          (assign1 "amount_log" "amount" (lift1 log1p)) df ;;
  df <- when (has_columns ["oldbalanceOrg"; "newbalanceOrig"] df)
          (assign2 "orig_balance_change" "oldbalanceOrg" "newbalanceOrig"
             (lift2 Float.sub)) df ;;
  df <- when (has_columns ["newbalanceDest"; "oldbalanceDest"] df)
          (assign2 "dest_balance_change" "newbalanceDest" "oldbalanceDest"
             (lift2 Float.sub)) df ;;
  df <- when (has_columns ["orig_balance_change"; "amount"] df)
          (assign2 "balance_mismatch_orig" "orig_balance_change" "amount"
             mismatch) df ;;
  df <- when (has_columns ["dest_balance_change"; "amount"] df)
          (assign2 "balance_mismatch_dest" "dest_balance_change" "amount"
             mismatch) df ;;
  df <- when (has_columns ["oldbalanceOrg"; "amount"] df)
          (assign2 "orig_zero_but_amount" "oldbalanceOrg" "amount"
             zero_but_amount) df ;;
  df <- when (has_columns ["oldbalanceDest"; "amount"] df)
          (assign2 "dest_zero_but_amount" "oldbalanceDest" "amount"
             zero_but_amount) df ;;
  df <- when (has_columns ["newbalanceOrig"; "oldbalanceOrg"] df)
          (assign2 "orig_balance_ratio" "oldbalanceOrg" "newbalanceOrig"
             balance_ratio) df ;;
  when (has_columns ["newbalanceDest"; "oldbalanceDest"] df)
    (assign2 "dest_balance_ratio" "oldbalanceDest" "newbalanceDest"
       balance_ratio) df.

(** Section 2, the transaction type dummies. *)
Definition type_dummies (df : DataFrame) : result DataFrame :=
  if has_column "type" df then
    t <- get_column "type" df ;;
    let dummies := add_missing expected_types zero (get_dummies t "type") in
    d <- select expected_types dummies ;;
    Ok (concat_columns df d)
  else Ok (add_missing expected_types zero df).

(** [d[k]] on a dict. *)
Fixpoint getitem {A : Type} (k : string) (d : list (string * A)) : result A :=
  match d with
  | [] => Raise (KeyError k)
  | (l, a) :: r => if String.eqb l k then Ok a else getitem k r
  end.

(** What [yaml.safe_load] returns for a file that maps each of its keys to
    a list of names. *)
Definition yaml_mapping : Type := list (string * list string).

(** [feature_order] is the state of [config/feature_order.yaml]: [None]
    when the file does not exist, else the mapping it holds; the schema is
    read from it under the key ["upi_features"]. *)
Definition prepare_upi_features (feature_order : option yaml_mapping)
    (df : DataFrame) : result DataFrame :=
  let df := drop_columns label_columns df in
  df <- core_transformations df ;;
  df <- type_dummies df ;;
  let df := add_missing placeholder_cols zero df in
  let df := drop_columns unnecessary_columns df in
  match feature_order with
  | None =>
      Raise (FileNotFoundError
               ("❌ feature_order.yaml not found at " ++ feature_order_path))
  | Some doc =>
      training_order <- getitem "upi_features" doc ;;
      let df := add_missing training_order zero df in
      select training_order df
  end.

(** ** Feature reconstruction for CDR ([prepare_cdr_features]) *)

Definition numeric_cols : list (string * num) :=
  [("call_duration", Fin 0); ("call_cost", Fin 0); ("cost_per_sec", Fin 0);
   ("call_hour", Fin 0); ("distinct_callees_last_24h", Fin 0);
   ("tower_switch_rate", Fin 0); ("repeated_short_calls_last_1h", Fin 0)].

Definition expected_dummies : list string :=
  ["type_voip"; "type_international"; "type_roaming"; "type_voice"].

Definition rename_map (c : string) : string :=
  if String.eqb c "type_voip" then "type_VoIP"
  else if String.eqb c "type_international" then "type_international"
  else if String.eqb c "type_roaming" then "type_roaming"
  else if String.eqb c "type_voice" then "type_voice"
  else c.

Definition final_cols : list string :=
  ["call_duration"; "call_cost"; "cost_per_sec"; "call_hour";
   "distinct_callees_last_24h"; "tower_switch_rate"; "repeated_short_calls_last_1h";
   "type_VoIP"; "type_international"; "type_roaming"; "type_voice"].

(** [pd.to_numeric(df[col], errors="coerce").fillna(default)] on one cell. *)
Definition coerce (default : num) (v : value) : value :=
  VNum (Float.fillna default (to_numeric v)).

(** One turn of the loop over [numeric_cols]. *)
Definition ensure_numeric (df : DataFrame) (cd : string * num)
  : result DataFrame :=
  let df := if has_column (fst cd) df then df
            else set_scalar (fst cd) (VNum (snd cd)) df in
  s <- get_column (fst cd) df ;;
  Ok (set_column (fst cd) (map (coerce (snd cd)) s) df).

Fixpoint for_each {A : Type} (f : DataFrame -> A -> result DataFrame)
    (l : list A) (df : DataFrame) : result DataFrame :=
  match l with
  | [] => Ok df
  | a :: r => d <- f df a ;; for_each f r d
  end.

(** [df["call_type"].astype(str).fillna("").str.lower().str.strip()]. *)
Definition clean_call_type (v : value) : value :=
  VStr (Text.strip (Text.lower (str_of_value v))).

(** [out[col] = src[col].astype(...)]. *)
Definition copy_column (src : DataFrame) (cast : value -> result value)
    (out : DataFrame) (col : string) : result DataFrame :=
  s <- get_column col src ;;
  r <- series_map cast s ;;
  Ok (set_column col r out).

(** With distinct labels [df["call_type"]] is a Series, so the branch
    [elif not isinstance(df["call_type"], pd.Series)] is never taken. *)
Definition prepare_cdr_features (df : DataFrame) : result DataFrame :=
  df <- for_each ensure_numeric numeric_cols df ;;
  df <- assign1 "call_hour" "call_hour" (lift1 (Float.clip 0 23)) df ;;
  let df := if has_column "call_type" df then df
            else set_scalar "call_type" (VStr "") df in
  ct <- get_column "call_type" df ;;
  let df := set_column "call_type" (map clean_call_type ct) df in
  ct <- get_column "call_type" df ;;
  let dummies := get_dummies ct "type" in
  let dummies := relabel Text.lower dummies in
  let dummies := add_missing expected_dummies zero dummies in
  let dummies := relabel rename_map dummies in
  let out := mkDF (nrows df) [] in
  out <- for_each (copy_column df astype_float) (firstn 7 final_cols) out ;;
  out <- for_each (copy_column dummies astype_int) (skipn 7 final_cols) out ;;
  Ok (mkDF (nrows out) (map (fun p => (fst p, map fill_zero (snd p))) (columns out))).

(** ** Scoring ([normalize_probabilities], [predict_supervised]) *)

Definition np_min (l : list Q) : result Q :=
  match l with
  | [] => Raise (ValueError
                   "zero-size array to reduction operation minimum which has no identity")
  | x :: r => Ok (fold_left Qmin r x)
  end.

Definition np_max (l : list Q) : result Q :=
  match l with
  | [] => Raise (ValueError
                   "zero-size array to reduction operation maximum which has no identity")
  | x :: r => Ok (fold_left Qmax r x)
  end.

(** [np.allclose(a, b)] with the default [rtol=1e-05] and [atol=1e-08]:
    [abs(a - b) <= atol + rtol * abs(b)]. *)
Definition rtol : Q := 0.00001.
Definition atol : Q := 0.00000001.

Definition allclose (a b : Q) : bool :=
  Qle_bool (Qabs (a - b)) (atol + rtol * Qabs b).

Definition normalize_probabilities (probs : list Q) : result (list Q) :=
  lo <- np_min probs ;;
  hi <- np_max probs ;;
  if allclose lo hi then Ok (map (fun _ => 0) probs)
  else Ok (map (fun p => (p - lo) / (hi - lo)) probs).

(** The rows of a table, as the models read them. *)
Definition row_at (df : DataFrame) (i : nat) : list value :=
  map (fun p => nth i (snd p) (VNum NaN)) (columns df).

Definition rows (df : DataFrame) : list (list value) :=
  map (row_at df) (seq 0 (nrows df)).

(** A model artifact is opaque.  A classifier gives, for a feature row, the
    probability of the positive class ([predict_proba(X)[:, 1]]); a scaler
    transforms a feature row ([transform(X)]). *)
Variable artifact : Type.
Variable predict_proba : artifact -> list value -> Q.
Variable transform : artifact -> list value -> list value.

Definition features (feature_order : option yaml_mapping) (mode : string)
    (df_raw : DataFrame) : result DataFrame :=
  if String.eqb mode "upi" then prepare_upi_features feature_order df_raw
  else if String.eqb mode "cdr" then prepare_cdr_features df_raw
  else Raise (ValueError
               ("❌ Unknown mode '" ++ mode ++ "'. Expected 'upi' or 'cdr'.")).

Definition predict_supervised (models : list (string * artifact))
    (feature_order : option yaml_mapping) (df_raw : DataFrame)
    (mode : string) (normalize : bool) : result (list Q) :=
  X <- features feature_order mode df_raw ;;
  xgb <- getitem "xgb" models ;;
  let p_xgb := map (predict_proba xgb) (rows X) in
  rf <- getitem "rf" models ;;
  let p_rf := map (predict_proba rf) (rows X) in
  let ensemble_score :=
    map (fun ab => (fst ab * 0.6) + (snd ab * 0.4)) (combine p_xgb p_rf) in
  scaler_lr <- getitem "scaler_lr" models ;;
  let X_scaled := map (transform scaler_lr) (rows X) in
  lr <- getitem "lr" models ;;
  let p_meta := map (predict_proba lr) X_scaled in
  let p_final :=
    map (fun em => (fst em * 0.5) + (snd em * 0.5)) (combine ensemble_score p_meta) in
  if normalize then normalize_probabilities p_final else Ok p_final.

(** ** Model loading ([load_models]) *)

Definition nl : string := String (ascii_of_nat 10) EmptyString.

Definition starts_with_slash (s : string) : bool :=
  match s with
  | String c _ => Ascii.eqb c "/"%char
  | EmptyString => false
  end.

Fixpoint ends_with_slash (s : string) : bool :=
  match s with
  | EmptyString => false
  | String c EmptyString => Ascii.eqb c "/"%char
  | String _ r => ends_with_slash r
  end.

(** [os.path.join(a, b)] on POSIX paths. *)
Definition path_join (a b : string) : string :=
  if starts_with_slash b then b
  else if String.eqb a "" || ends_with_slash a then a ++ b
  else a ++ "/" ++ b.

(** The installation the loader runs in: [base_dir] is the [app] directory
    and [project_root] its parent; [path_exists] is [os.path.exists];
    [model_paths] is the content of [config/model_paths.yaml], a mapping
    from mode to a mapping from role to relative path; the two loaders are
    [joblib.load] and keras' [load_model]. *)
Record Install : Type := {
  base_dir : string;
  project_root : string;
  path_exists : string -> bool;
  model_paths : list (string * list (string * string));
  joblib_load : string -> result artifact;
  load_model : string -> result artifact
}.

Definition config_path (sys : Install) : string :=
  path_join (path_join (base_dir sys) "config") "model_paths.yaml".

Definition abs_paths (sys : Install) (paths : list (string * string))
  : list (string * string) :=
  map (fun kv => (fst kv, path_join (project_root sys) (snd kv))) paths.

Definition missing_files (sys : Install) (paths : list (string * string))
  : list string :=
  filter (fun p => negb (path_exists sys p)) (map snd (abs_paths sys paths)).

Definition missing_message (missing : list string) : string :=
  "⚠️ Missing model files:" ++ nl ++ Text.join nl missing.

Definition load_models (sys : Install) (mode : string)
  : result (list (string * artifact)) :=
  if negb (path_exists sys (config_path sys))
  then Raise (FileNotFoundError ("❌ Config file not found: " ++ config_path sys))
  else
    paths <- getitem mode (model_paths sys) ;;
    let abs_paths := abs_paths sys paths in
    match missing_files sys paths with
    | (_ :: _) as missing => Raise (FileNotFoundError (missing_message missing))
    | [] =>
        xgb <- (p <- getitem "xgb" abs_paths ;; joblib_load sys p) ;;
        rf <- (p <- getitem "rf" abs_paths ;; joblib_load sys p) ;;
        lr <- (p <- getitem "lr_meta" abs_paths ;; joblib_load sys p) ;;
        iso <- (p <- getitem "iso" abs_paths ;; joblib_load sys p) ;;
        ae <- (p <- getitem "ae" abs_paths ;; load_model sys p) ;;
        scaler_lr <- (p <- getitem "scaler_lr" abs_paths ;; joblib_load sys p) ;;
        scaler_iso <- (p <- getitem "scaler_iso" abs_paths ;; joblib_load sys p) ;;
        scaler_ae <- (p <- getitem "scaler_ae" abs_paths ;; joblib_load sys p) ;;
        Ok [("xgb", xgb); ("rf", rf); ("lr", lr); ("iso", iso); ("ae", ae);
            ("scaler_lr", scaler_lr); ("scaler_iso", scaler_iso);
            ("scaler_ae", scaler_ae)]
    end.

Definition bundle_roles : list string :=
  ["xgb"; "rf"; "lr"; "iso"; "ae"; "scaler_lr"; "scaler_iso"; "scaler_ae"].

End Pandas.

(** ** Reasons ([generate_reason]) *)

Module Reason.

(** A record of the scored table: a pandas Series indexed by column label. *)
Definition row : Type := list (string * value).

(** [row.get(key, 0)]. *)
Fixpoint get (r : row) (key : string) : value :=
  match r with
  | [] => zero
  | (l, v) :: t => if String.eqb l key then v else get t key
  end.

(** [x > c] and [x < c]: ordering a text against a number raises. *)
Definition gt (x : value) (c : Q) : result bool :=
  match x with
  | VNum n => Ok (Float.gtb n (Fin c))
  | VStr _ => Raise (TypeError "'>' not supported between 'str' and 'float'")
  end.

Definition lt (x : value) (c : Q) : result bool :=
  match x with
  | VNum n => Ok (Float.ltb n (Fin c))
  | VStr _ => Raise (TypeError "'<' not supported between 'str' and 'int'")
  end.

(** [x == 1]. *)
Definition is_one (x : value) : result bool :=
  match x with
  | VNum n => Ok (Float.eqb n (Fin 1))
  | VStr _ => Ok false
  end.

(** [if cond: reasons.append(clause)]. *)
Definition append_if (cond : result bool) (clause : string)
    (reasons : list string) : result (list string) :=
  c <- cond ;;
  Ok (if c then (reasons ++ [clause])%list else reasons).

Definition upi_fallback : string :=
  "Transaction shows irregular account or balance behavior".
Definition cdr_fallback : string := "Normal call pattern detected".

(** [if not reasons: reasons.append(fallback)]. *)
Definition or_fallback (fallback : string) (reasons : list string)
  : list string :=
  match reasons with
  | [] => [fallback]
  | _ => reasons
  end.

Definition separator : string := " + ".

Definition upi_reasons (r : row) : result (list string) :=
  let reasons := [] in
  large <- gt (get r "amount_log") 11.5 ;;
  reasons <-
    (if large
     then Ok (reasons ++ ["Unusually large transaction amount"])%list
     else append_if (gt (get r "amount_log") 10.5)
            "Higher-than-average transaction amount" reasons) ;;
  reasons <- append_if (is_one (get r "balance_mismatch_orig"))
               "Mismatch in sender balance update" reasons ;;
  reasons <- append_if (is_one (get r "balance_mismatch_dest"))
               "Mismatch in receiver balance update" reasons ;;
  reasons <- append_if (is_one (get r "orig_zero_but_amount"))
               "Transfer initiated from zero balance account" reasons ;;
  reasons <- append_if (is_one (get r "dest_zero_but_amount"))
               "Receiver had zero balance before transfer" reasons ;;
  reasons <- append_if (gt (get r "sender_tx_count") 100)
               "Unusually high sender activity volume" reasons ;;
  reasons <- append_if (gt (get r "sender_amount_std") 500000)
               "High variation in sender’s transaction amounts" reasons ;;
  reasons <- append_if (gt (get r "relative_amount_to_mean_sender") 5)
               "Amount deviates sharply from sender’s usual pattern" reasons ;;
  reasons <- append_if (gt (get r "balance_gap_ratio") 0.8)
               "Large balance fluctuation detected" reasons ;;
  reasons <- append_if (is_one (get r "is_same_sender_receiver"))
               "Sender and receiver accounts are identical" reasons ;;
  reasons <- append_if (is_one (get r "is_large_transfer"))
               "Marked as large-value transfer" reasons ;;
  Ok (or_fallback upi_fallback reasons).

Definition cdr_reasons (r : row) : result (list string) :=
  let reasons := [] in
  reasons <- append_if (lt (get r "call_duration") 5)
               "Very short call duration pattern" reasons ;;
  reasons <- append_if (gt (get r "tower_switch_rate") 0.6)
               "High tower switching frequency detected" reasons ;;
  reasons <- append_if (gt (get r "repeated_short_calls_last_1h") 3)
               "Repeated short-duration calls within an hour" reasons ;;
  reasons <- append_if (gt (get r "distinct_callees_last_24h") 50)
               "Abnormally high number of distinct callees" reasons ;;
  reasons <- append_if (is_one (get r "is_international"))
               "International call detected" reasons ;;
  reasons <- append_if (gt (get r "call_cost") 200)
               "High call cost relative to duration" reasons ;;
  reasons <- append_if (gt (get r "tower_switch_rate") 0.9)
               "Extreme cell tower switching, potential SIM-box activity" reasons ;;
  Ok (or_fallback cdr_fallback reasons).

(** The clauses kept, [reasons[:4]]. *)
Definition kept_reasons (r : row) (mode : string) : result (list string) :=
  reasons <- (if String.eqb mode "upi" then upi_reasons r else cdr_reasons r) ;;
  Ok (firstn 4 reasons).

Definition generate_reason (r : row) (mode : string) : result string :=
  reasons <- kept_reasons r mode ;;
  Ok (Text.join separator reasons).

(** The same function told the way the specification tells it: an ordered
    list of predicates, each with its clause; the matching clauses are
    collected in that order, cut to the first four and joined. *)
Definition rule : Type := (row -> result bool) * string.

Definition upi_rules : list rule :=
  [(fun r => gt (get r "amount_log") 11.5, "Unusually large transaction amount");
   (fun r => a <- gt (get r "amount_log") 11.5 ;;
             b <- gt (get r "amount_log") 10.5 ;; Ok (negb a && b),
    "Higher-than-average transaction amount");
   (fun r => is_one (get r "balance_mismatch_orig"), "Mismatch in sender balance update");
   (fun r => is_one (get r "balance_mismatch_dest"), "Mismatch in receiver balance update");
   (fun r => is_one (get r "orig_zero_but_amount"),
    "Transfer initiated from zero balance account");
   (fun r => is_one (get r "dest_zero_but_amount"),
    "Receiver had zero balance before transfer");
   (fun r => gt (get r "sender_tx_count") 100, "Unusually high sender activity volume");
   (fun r => gt (get r "sender_amount_std") 500000,
    "High variation in sender’s transaction amounts");
   (fun r => gt (get r "relative_amount_to_mean_sender") 5,
    "Amount deviates sharply from sender’s usual pattern");
   (fun r => gt (get r "balance_gap_ratio") 0.8, "Large balance fluctuation detected");
   (fun r => is_one (get r "is_same_sender_receiver"),
    "Sender and receiver accounts are identical");
   (fun r => is_one (get r "is_large_transfer"), "Marked as large-value transfer")].

Definition cdr_rules : list rule :=
  [(fun r => lt (get r "call_duration") 5, "Very short call duration pattern");
   (fun r => gt (get r "tower_switch_rate") 0.6, "High tower switching frequency detected");
   (fun r => gt (get r "repeated_short_calls_last_1h") 3,
    "Repeated short-duration calls within an hour");
   (fun r => gt (get r "distinct_callees_last_24h") 50,
    "Abnormally high number of distinct callees");
   (fun r => is_one (get r "is_international"), "International call detected");
   (fun r => gt (get r "call_cost") 200, "High call cost relative to duration");
   (fun r => gt (get r "tower_switch_rate") 0.9,
    "Extreme cell tower switching, potential SIM-box activity")].

Fixpoint matching (rules : list rule) (r : row) : result (list string) :=
  match rules with
  | [] => Ok []
  | (pred, clause) :: rest =>
      b <- pred r ;;
      m <- matching rest r ;;
      Ok (if b then clause :: m else m)
  end.

Definition spec_clauses (r : row) (mode : string) : result (list string) :=
  let rules := if String.eqb mode "upi" then upi_rules else cdr_rules in
  let fallback := if String.eqb mode "upi" then upi_fallback else cdr_fallback in
  m <- matching rules r ;;
  Ok (firstn 4 (or_fallback fallback m)).

Definition cdr_row_example : row :=
  [("call_duration", VNum (Fin 2)); ("tower_switch_rate", VNum (Fin 0.95));
   ("repeated_short_calls_last_1h", VNum (Fin 5));
   ("distinct_callees_last_24h", VNum (Fin 70))].

End Reason.

(** * Properties *)

(** ** Risk buckets *)

Section BucketFacts.

Import Buckets.

Lemma tier_of_categorize (h m p : Q) :
  tier_of (categorize h m p) =
  Some (if Qle_bool h p then High else if Qle_bool m p then Medium else Low).
Proof.
  unfold categorize.
  destruct (Qle_bool h p); [reflexivity|].
  destruct (Qle_bool m p); reflexivity.
Qed.

Lemma Qle_bool_false (a b : Q) : Qle_bool a b = false <-> b < a.
Proof.
  split; intro H.
  - apply Qnot_le_lt. intro L. apply Qle_bool_iff in L. congruence.
  - destruct (Qle_bool a b) eqn:E; [|reflexivity].
    apply Qle_bool_iff in E. exfalso. apply (Qlt_not_le _ _ H E).
Qed.

(** The tier of one probability under cutoffs [m <= h]. *)
Lemma categorize_cutoffs (h m p : Q) (t : tier) :
  m <= h ->
  tier_of (categorize h m p) = Some t ->
  (t = High <-> h <= p) /\
  (t = Medium <-> m <= p /\ p < h) /\
  (t = Low <-> p < m).
Proof.
  intros Hmh E. rewrite tier_of_categorize in E.
  destruct (Qle_bool h p) eqn:Eh.
  - apply Qle_bool_iff in Eh. injection E as <-.
    repeat split; try discriminate; intros; try lra.
  - apply Qle_bool_false in Eh.
    destruct (Qle_bool m p) eqn:Em.
    + apply Qle_bool_iff in Em. injection E as <-.
      repeat split; try discriminate; intros; try lra.
    + apply Qle_bool_false in Em. injection E as <-.
      repeat split; try discriminate; intros; try lra.
Qed.

Lemma categorize_monotone (h m p1 p2 : Q) :
  p1 <= p2 ->
  exists t1 t2,
    tier_of (categorize h m p1) = Some t1 /\
    tier_of (categorize h m p2) = Some t2 /\
    (rank t1 <= rank t2)%nat.
Proof.
  intro L. rewrite !tier_of_categorize.
  do 2 eexists. split; [reflexivity|]. split; [reflexivity|].
  destruct (Qle_bool h p1) eqn:H1.
  - apply Qle_bool_iff in H1.
    assert (H2 : Qle_bool h p2 = true) by (apply Qle_bool_iff; lra).
    rewrite H2. simpl. lia.
  - destruct (Qle_bool m p1) eqn:M1.
    + apply Qle_bool_iff in M1.
      destruct (Qle_bool h p2); [simpl; lia|].
      assert (M2 : Qle_bool m p2 = true) by (apply Qle_bool_iff; lra).
      rewrite M2. simpl. lia.
    + destruct (Qle_bool h p2); [simpl; lia|].
      destruct (Qle_bool m p2); simpl; lia.
Qed.

(** C3.  [apply_risk_buckets] gives one label per probability, each from
    the three-level enum, by inclusive static cutoffs: for UPI High iff
    [p >= 0.97], Medium iff [0.95 <= p < 0.97], else Low; for CDR High iff
    [p >= 0.70], Medium iff [0.30 <= p < 0.70], else Low.  For UPI, 0.96
    is Medium, 0.97 is High and 0.949999 is Low. *)
Theorem apply_risk_buckets_cutoffs :
  (forall probs : list Q,
     exists ls, apply_risk_buckets probs "upi" = Ok ls /\
       Forall2 (fun p l => exists t, tier_of l = Some t /\
                  (t = High <-> 0.97 <= p) /\
                  (t = Medium <-> 0.95 <= p /\ p < 0.97) /\
                  (t = Low <-> p < 0.95)) probs ls) /\
  (forall probs : list Q,
     exists ls, apply_risk_buckets probs "cdr" = Ok ls /\
       Forall2 (fun p l => exists t, tier_of l = Some t /\
                  (t = High <-> 0.70 <= p) /\
                  (t = Medium <-> 0.30 <= p /\ p < 0.70) /\
                  (t = Low <-> p < 0.30)) probs ls) /\
  apply_risk_buckets [0.96; 0.97; 0.949999] "upi"
    = Ok [medium_label; high_label; low_label].
Proof.
  split; [|split]; [| |reflexivity].
  - intro probs. eexists. split; [reflexivity|]. simpl.
    induction probs as [|p r IH]; simpl; constructor; [|exact IH].
    eexists. split; [apply tier_of_categorize|].
    apply categorize_cutoffs; [lra|apply tier_of_categorize].
  - intro probs. eexists. split; [reflexivity|]. simpl.
    induction probs as [|p r IH]; simpl; constructor; [|exact IH].
    eexists. split; [apply tier_of_categorize|].
    apply categorize_cutoffs; [lra|apply tier_of_categorize].
Qed.

(** C8.  For both domains the bucketing is monotone: [p1 < p2] gives
    [bucket p1 <= bucket p2] in the order Low < Medium < High; and a
    probability equal to a cutoff gets the higher tier. *)
Theorem apply_risk_buckets_monotone (mode : string) (p1 p2 : Q) :
  mode = "upi" \/ mode = "cdr" ->
  p1 < p2 ->
  (exists l1 l2 t1 t2,
     apply_risk_buckets [p1; p2] mode = Ok [l1; l2] /\
     tier_of l1 = Some t1 /\ tier_of l2 = Some t2 /\
     (rank t1 <= rank t2)%nat) /\
  (exists h m,
     thresholds mode = Ok (h, m) /\
     apply_risk_buckets [h; m] mode = Ok [high_label; medium_label]).
Proof.
  intros Hmode Hlt. split.
  - assert (L : p1 <= p2) by lra.
    destruct Hmode as [-> | ->]; simpl.
    + destruct (categorize_monotone 0.97 0.95 L) as (t1 & t2 & E1 & E2 & R).
      exists (categorize 0.97 0.95 p1), (categorize 0.97 0.95 p2), t1, t2. auto.
    + destruct (categorize_monotone 0.70 0.30 L) as (t1 & t2 & E1 & E2 & R).
      exists (categorize 0.70 0.30 p1), (categorize 0.70 0.30 p2), t1, t2. auto.
  - destruct Hmode as [-> | ->]; do 2 eexists; split; reflexivity.
Qed.

End BucketFacts.

(** ** Normalization *)

Lemma fold_min_le (r : list Q) (x : Q) :
  fold_left Qmin r x <= x /\ forall p, In p r -> fold_left Qmin r x <= p.
Proof.
  revert x. induction r as [|y r IH]; intro x; simpl.
  - split; [lra | intros p []].
  - destruct (IH (Qmin x y)) as [H1 H2].
    pose proof (Q.le_min_l x y). pose proof (Q.le_min_r x y).
    split; [lra|]. intros p [<- | Hp]; [lra | auto].
Qed.

Lemma fold_max_ge (r : list Q) (x : Q) :
  x <= fold_left Qmax r x /\ forall p, In p r -> p <= fold_left Qmax r x.
Proof.
  revert x. induction r as [|y r IH]; intro x; simpl.
  - split; [lra | intros p []].
  - destruct (IH (Qmax x y)) as [H1 H2].
    pose proof (Q.le_max_l x y). pose proof (Q.le_max_r x y).
    split; [lra|]. intros p [<- | Hp]; [lra | auto].
Qed.

Lemma fold_min_attained (r : list Q) (x : Q) :
  exists p, In p (x :: r) /\ p == fold_left Qmin r x.
Proof.
  revert x. induction r as [|y r IH]; intro x; simpl.
  - exists x. split; [auto | reflexivity].
  - destruct (IH (Qmin x y)) as (p & [<- | Hp] & E).
    + destruct (Q.min_dec x y) as [M | M].
      * exists x. split; [auto|]. rewrite <- E. symmetry. exact M.
      * exists y. split; [auto|]. rewrite <- E. symmetry. exact M.
    + exists p. auto.
Qed.

Lemma fold_max_attained (r : list Q) (x : Q) :
  exists p, In p (x :: r) /\ p == fold_left Qmax r x.
Proof.
  revert x. induction r as [|y r IH]; intro x; simpl.
  - exists x. split; [auto | reflexivity].
  - destruct (IH (Qmax x y)) as (p & [<- | Hp] & E).
    + destruct (Q.max_dec x y) as [M | M].
      * exists x. split; [auto|]. rewrite <- E. symmetry. exact M.
      * exists y. split; [auto|]. rewrite <- E. symmetry. exact M.
    + exists p. auto.
Qed.

(** The minimum and the maximum of a batch that is not empty. *)
Lemma np_min_max_spec (probs : list Q) :
  probs <> [] ->
  exists lo hi,
    np_min probs = Ok lo /\ np_max probs = Ok hi /\
    (forall p, In p probs -> lo <= p /\ p <= hi) /\
    (exists p, In p probs /\ p == lo) /\
    (exists p, In p probs /\ p == hi).
Proof.
  destruct probs as [|x r]; [congruence|]. intros _.
  exists (fold_left Qmin r x), (fold_left Qmax r x).
  split; [reflexivity|]. split; [reflexivity|].
  destruct (fold_min_le r x) as [A1 A2].
  destruct (fold_max_ge r x) as [B1 B2].
  split; [|split].
  - intros p [<- | Hp]; auto.
  - apply fold_min_attained.
  - apply fold_max_attained.
Qed.

Lemma allclose_iff (a b : Q) :
  allclose a b = true <-> Qabs (a - b) <= atol + rtol * Qabs b.
Proof. unfold allclose. apply Qle_bool_iff. Qed.

Lemma close_to_itself (b : Q) : Qabs 0 <= atol + rtol * Qabs b.
Proof.
  change (Qabs 0) with 0.
  pose proof (Qabs_nonneg b) as H. set (k := Qabs b) in *.
  unfold atol, rtol. lra.
Qed.

Lemma rescale_bounds (lo hi p : Q) :
  lo < hi -> lo <= p -> p <= hi ->
  0 <= (p - lo) / (hi - lo) /\ (p - lo) / (hi - lo) <= 1.
Proof.
  intros H L U. split.
  - apply Qle_shift_div_l; lra.
  - apply Qle_shift_div_r; lra.
Qed.

(** C4, as the code has it.  On a batch that is not empty: when minimum
    and maximum are close in the sense of [np.allclose]
    ([|min - max| <= 1e-8 + 1e-5 * |max|]), in particular when all values
    are identical, the result is the all-zero vector of the same length;
    otherwise it is [(p - min) / (max - min)] per element, every output
    lies in [0,1], the minimum goes to 0 and the maximum to 1. *)
Theorem normalize_probabilities_spec (probs : list Q) :
  probs <> [] ->
  exists lo hi,
    np_min probs = Ok lo /\ np_max probs = Ok hi /\
    (Qabs (lo - hi) <= atol + rtol * Qabs hi ->
       normalize_probabilities probs = Ok (map (fun _ => 0) probs)) /\
    ((forall p q, In p probs -> In q probs -> p == q) ->
       normalize_probabilities probs = Ok (map (fun _ => 0) probs)) /\
    (~ Qabs (lo - hi) <= atol + rtol * Qabs hi ->
       normalize_probabilities probs
         = Ok (map (fun p => (p - lo) / (hi - lo)) probs) /\
       Forall (fun p =>
                 0 <= (p - lo) / (hi - lo) /\ (p - lo) / (hi - lo) <= 1 /\
                 (p == lo -> (p - lo) / (hi - lo) == 0) /\
                 (p == hi -> (p - lo) / (hi - lo) == 1)) probs /\
       (exists p, In p probs /\ p == lo) /\
       (exists p, In p probs /\ p == hi)).
Proof.
  intro Hne.
  destruct (np_min_max_spec Hne) as (lo & hi & Elo & Ehi & Hb & Hlo & Hhi).
  exists lo, hi. split; [exact Elo|]. split; [exact Ehi|].
  assert (Hclose : Qabs (lo - hi) <= atol + rtol * Qabs hi ->
                   normalize_probabilities probs = Ok (map (fun _ => 0) probs)).
  { intro C. unfold normalize_probabilities. rewrite Elo, Ehi. simpl.
    apply allclose_iff in C. rewrite C. reflexivity. }
  split; [exact Hclose|]. split.
  - intro Hall. apply Hclose.
    destruct Hlo as (a & Ia & Ea). destruct Hhi as (b & Ib & Eb).
    assert (E : lo - hi == 0) by (rewrite <- Ea, <- Eb, (Hall a b Ia Ib); ring).
    rewrite E. apply close_to_itself.
  - intro C. split; [|split; [|split; assumption]].
    + unfold normalize_probabilities. rewrite Elo, Ehi. simpl.
      destruct (allclose lo hi) eqn:A; [|reflexivity].
      apply allclose_iff in A. contradiction.
    + assert (Hlt : lo < hi).
      { destruct Hlo as (a & Ia & Ea). destruct (Hb a Ia) as [_ U].
        destruct (Qlt_le_dec lo hi) as [|G]; [assumption|].
        exfalso. apply C.
        assert (E : lo - hi == 0) by lra.
        rewrite E. apply close_to_itself. }
      apply Forall_forall. intros p Ip. destruct (Hb p Ip) as [L U].
      destruct (rescale_bounds Hlt L U) as [R0 R1].
      split; [exact R0|]. split; [exact R1|]. split; intro E.
      * rewrite E. field. lra.
      * rewrite E. field. lra.
Qed.

(** ** Reasons *)

Section ReasonFacts.

Import Reason.

(** The chain of [if ...: reasons.append(...)] statements over a list of
    rules, followed by the rest of the function. *)
Fixpoint collect {A : Type} (rules : list rule) (r : row) (acc : list string)
    (k : list string -> result A) : result A :=
  match rules with
  | [] => k acc
  | (pred, clause) :: rest =>
      acc' <- append_if (pred r) clause acc ;; collect rest r acc' k
  end.

Lemma collect_matching {A : Type} (rules : list rule) (r : row)
    (acc : list string) (k : list string -> result A) :
  collect rules r acc k = (m <- matching rules r ;; k (acc ++ m)%list).
Proof.
  revert acc. induction rules as [|[pred clause] rest IH]; intro acc; simpl.
  - rewrite app_nil_r. reflexivity.
  - unfold append_if. destruct (pred r) as [[|]|e]; simpl; [| |reflexivity].
    + rewrite IH. destruct (matching rest r); simpl; [|reflexivity].
      rewrite <- app_assoc. reflexivity.
    + rewrite IH. destruct (matching rest r); reflexivity.
Qed.

Lemma cdr_reasons_matching (r : row) :
  cdr_reasons r = (m <- matching cdr_rules r ;; Ok (or_fallback cdr_fallback m)).
Proof.
  transitivity (collect cdr_rules r [] (fun m => Ok (or_fallback cdr_fallback m)));
    [reflexivity | apply collect_matching].
Qed.

Lemma upi_reasons_matching (r : row) :
  upi_reasons r = (m <- matching upi_rules r ;; Ok (or_fallback upi_fallback m)).
Proof.
  transitivity (collect upi_rules r [] (fun m => Ok (or_fallback upi_fallback m)));
    [|apply collect_matching].
  unfold upi_reasons, upi_rules, collect, append_if.
  destruct (get r "amount_log") as [n|s]; simpl; [|reflexivity].
  destruct (Float.gtb n (Fin 11.5)); simpl; [reflexivity|].
  destruct (Float.gtb n (Fin 10.5)); reflexivity.
Qed.

Lemma kept_reasons_spec (r : row) (mode : string) :
  kept_reasons r mode = spec_clauses r mode.
Proof.
  unfold kept_reasons, spec_clauses.
  destruct (String.eqb mode "upi").
  - rewrite upi_reasons_matching. destruct (matching upi_rules r); reflexivity.
  - rewrite cdr_reasons_matching. destruct (matching cdr_rules r); reflexivity.
Qed.

Lemma or_fallback_length (fallback : string) (m : list string) :
  (1 <= List.length (or_fallback fallback m))%nat.
Proof. destruct m; simpl; lia. Qed.

(** C6.  [generate_reason] collects the matching clauses in the declared
    order of the predicates, keeps the first four and joins them with
    [" + "]; between one and four clauses are returned; when no predicate
    matches the result is the fallback clause of the domain; rows with the
    same content give the same string; and the CDR example row gives
    exactly its first four clauses, the clause on extreme tower switching
    being cut away. *)
Theorem generate_reason_spec :
  (forall r mode,
     generate_reason r mode
       = (cs <- spec_clauses r mode ;; Ok (Text.join separator cs))) /\
  (forall r mode cs,
     spec_clauses r mode = Ok cs ->
     (1 <= List.length cs)%nat /\ (List.length cs <= 4)%nat) /\
  (forall r, matching upi_rules r = Ok [] ->
             generate_reason r "upi" = Ok upi_fallback) /\
  (forall r mode, mode <> "upi" -> matching cdr_rules r = Ok [] ->
                  generate_reason r mode = Ok cdr_fallback) /\
  (forall r1 r2 mode,
     (forall key, get r1 key = get r2 key) ->
     generate_reason r1 mode = generate_reason r2 mode) /\
  matching cdr_rules cdr_row_example
    = Ok ["Very short call duration pattern";
          "High tower switching frequency detected";
          "Repeated short-duration calls within an hour";
          "Abnormally high number of distinct callees";
          "Extreme cell tower switching, potential SIM-box activity"] /\
  generate_reason cdr_row_example "cdr"
    = Ok (Text.join " + "
            ["Very short call duration pattern";
             "High tower switching frequency detected";
             "Repeated short-duration calls within an hour";
             "Abnormally high number of distinct callees"]).
Proof.
  assert (G : forall r mode,
             generate_reason r mode
             = (cs <- spec_clauses r mode ;; Ok (Text.join separator cs))).
  { intros r mode. unfold generate_reason. rewrite kept_reasons_spec. reflexivity. }
  split; [exact G|]. split; [|split; [|split; [|split; [|split]]]].
  - intros r mode cs H. unfold spec_clauses in H.
    destruct (matching _ r) as [m|e]; unfold bind in H; [|discriminate].
    injection H as <-. split.
    + pose proof (or_fallback_length
                    (if String.eqb mode "upi" then upi_fallback else cdr_fallback) m) as L.
      destruct (or_fallback _ m) as [|a [|b [|c [|d l]]]]; simpl in *; lia.
    + exact (firstn_le_length 4
               (or_fallback
                  (if String.eqb mode "upi" then upi_fallback else cdr_fallback) m)).
  - intros r H. rewrite G. unfold spec_clauses.
    rewrite (String.eqb_refl "upi"), H. reflexivity.
  - intros r mode Hm H. rewrite G. unfold spec_clauses.
    apply String.eqb_neq in Hm. rewrite Hm, H. reflexivity.
  - intros r1 r2 mode H.
    unfold generate_reason, kept_reasons, upi_reasons, cdr_reasons.
    rewrite !H. reflexivity.
  - reflexivity.
  - reflexivity.
Qed.

End ReasonFacts.

(** ** Model loading *)

Ltac bind_ok H :=
  repeat match type of H with
         | bind ?r _ = Ok _ =>
             let E := fresh "E" in
             destruct r eqn:E; cbn [bind] in H; [|discriminate H]
         end.

(** [sub] occurs in [s]. *)
Definition occurs_in (sub s : string) : Prop :=
  exists pre post, s = pre ++ sub ++ post.

Lemma append_assoc (a b c : string) : (a ++ b) ++ c = a ++ (b ++ c).
Proof. induction a as [|x a IH]; simpl; [reflexivity | rewrite IH; reflexivity]. Qed.

Lemma append_empty_r (a : string) : a ++ "" = a.
Proof. induction a as [|x a IH]; simpl; [reflexivity | rewrite IH; reflexivity]. Qed.

Lemma occurs_in_prefixed (pre sub s : string) :
  occurs_in sub s -> occurs_in sub (pre ++ s).
Proof.
  intros (a & b & ->). exists (pre ++ a), b. symmetry. apply append_assoc.
Qed.

Lemma join_lists_each (sep : string) (l : list string) (p : string) :
  In p l -> occurs_in p (Text.join sep l).
Proof.
  unfold Text.join.
  induction l as [|x r IH]; intros H; [destruct H|].
  destruct r as [|y r].
  - destruct H as [-> | []]. exists "", "". simpl. symmetry. apply append_empty_r.
  - change (String.concat sep (x :: y :: r))
      with (x ++ sep ++ String.concat sep (y :: r)).
    destruct H as [-> | H].
    + exists "", (sep ++ String.concat sep (y :: r)). reflexivity.
    + apply occurs_in_prefixed. apply occurs_in_prefixed. apply IH. exact H.
Qed.

Section LoaderFacts.

Variable artifact : Type.

Lemma load_models_roles (sys : Install artifact) (mode : string)
    (bundle : list (string * artifact)) :
  load_models sys mode = Ok bundle ->
  map fst bundle = bundle_roles /\
  exists paths,
    getitem mode (model_paths sys) = Ok paths /\ missing_files sys paths = [].
Proof.
  unfold load_models. intro H.
  destruct (negb (path_exists sys (config_path sys))); [discriminate|].
  destruct (getitem mode (model_paths sys)) as [paths|e] eqn:Ep;
    cbn [bind] in H; [|discriminate].
  destruct (missing_files sys paths) eqn:Em; [|discriminate].
  bind_ok H. injection H as <-.
  split; [reflexivity|]. exists paths. auto.
Qed.

(** C5.  When a declared artifact path of the requested domain does not
    exist, [load_models] raises [FileNotFoundError] with a message that
    lists every missing declared path, and returns no bundle; whenever it
    returns, no declared path is missing and the bundle has all eight
    roles. *)
Theorem load_models_all_or_nothing (sys : Install artifact) (mode : string)
    (paths : list (string * string)) (p : string) :
  path_exists sys (config_path sys) = true ->
  getitem mode (model_paths sys) = Ok paths ->
  In p (map snd (abs_paths sys paths)) ->
  path_exists sys p = false ->
  (exists msg,
     load_models sys mode = Raise (FileNotFoundError msg) /\
     msg = missing_message (missing_files sys paths) /\
     forall q, In q (map snd (abs_paths sys paths)) ->
               path_exists sys q = false -> occurs_in q msg) /\
  (forall sys' mode' bundle,
     @load_models artifact sys' mode' = Ok bundle ->
     map fst bundle = bundle_roles /\
     exists paths',
       getitem mode' (model_paths sys') = Ok paths' /\
       forall q, In q (map snd (abs_paths sys' paths')) ->
                 path_exists sys' q = true).
Proof.
  intros Hc Hp Hin Hmiss. split.
  - exists (missing_message (missing_files sys paths)).
    assert (Hall : forall q, In q (map snd (abs_paths sys paths)) ->
                     path_exists sys q = false -> In q (missing_files sys paths)).
    { intros q Hq Hf. unfold missing_files. apply filter_In.
      split; [exact Hq | rewrite Hf; reflexivity]. }
    split; [|split; [reflexivity|]].
    + unfold load_models. rewrite Hc, Hp. simpl.
      pose proof (Hall p Hin Hmiss) as Hm.
      destruct (missing_files sys paths) as [|m ms]; [destruct Hm | reflexivity].
    + intros q Hq Hf. unfold missing_message.
      apply occurs_in_prefixed. apply occurs_in_prefixed.
      apply join_lists_each. apply Hall; assumption.
  - intros sys' mode' bundle H.
    destruct (load_models_roles _ _ H) as (Hr & paths' & Hp' & Hm').
    split; [exact Hr|]. exists paths'. split; [exact Hp'|].
    intros q Hq. destruct (path_exists sys' q) eqn:Eq; [reflexivity|].
    exfalso.
    assert (In q (missing_files sys' paths')) as Hi.
    { unfold missing_files. apply filter_In. split; [exact Hq | rewrite Eq; reflexivity]. }
    rewrite Hm' in Hi. destruct Hi.
Qed.

End LoaderFacts.

(** ** Scoring *)

Lemma combine_map_same {A B C : Type} (f : A -> B) (g : A -> C) (l : list A) :
  combine (map f l) (map g l) = map (fun x => (f x, g x)) l.
Proof. induction l as [|x l IH]; simpl; [reflexivity | rewrite IH; reflexivity]. Qed.

Lemma rows_length (X : DataFrame) : List.length (rows X) = nrows X.
Proof. unfold rows. rewrite length_map, length_seq. reflexivity. Qed.

Lemma nth_rows {A : Type} (f : list value -> A) (X : DataFrame) (i : nat) (d : A) :
  (i < nrows X)%nat -> nth i (map f (rows X)) d = f (row_at X i).
Proof.
  intro H. unfold rows. rewrite map_map.
  rewrite (nth_indep _ d (f (row_at X 0%nat)))
    by (rewrite length_map, length_seq; exact H).
  rewrite (map_nth (fun j => f (row_at X j)) (seq 0 (nrows X)) 0%nat i).
  rewrite seq_nth by exact H. reflexivity.
Qed.

Section ScoringFacts.

Variable log1p_finite : Q -> Q.
Variable num_repr : Q -> string.
Variable parse_number : string -> option num.
Variable feature_order_path : string.
Variable artifact : Type.
Variable predict_proba : artifact -> list value -> Q.
Variable transform : artifact -> list value -> list value.

Local Notation "'reconstruct'" :=
  (features log1p_finite num_repr parse_number feature_order_path)
  (only parsing).
Local Notation "'score'" :=
  (predict_supervised log1p_finite num_repr parse_number feature_order_path
     predict_proba transform)
  (only parsing).

(** The blend the specification states, for one feature row. *)
Definition blend (xgb rf scaler_lr lr : artifact) (row : list value) : Q :=
  0.5 * (0.6 * predict_proba xgb row + 0.4 * predict_proba rf row)
  + 0.5 * predict_proba lr (transform scaler_lr row).

(** C1.  For both domains, with normalization disabled, the probability
    vector has one entry per row of the reconstructed feature matrix [X],
    and the entry of a row is [0.5*(0.6*p_xgb + 0.4*p_rf) + 0.5*p_meta],
    where [p_meta] is the meta-refiner on the row transformed by its paired
    scaler (equal as rationals, hence within 1e-9). *)
Theorem predict_supervised_blend (models : list (string * artifact))
    (feature_order : option yaml_mapping) (df_raw X : DataFrame)
    (mode : string) (xgb rf scaler_lr lr : artifact) :
  reconstruct feature_order mode df_raw = Ok X ->
  getitem "xgb" models = Ok xgb ->
  getitem "rf" models = Ok rf ->
  getitem "scaler_lr" models = Ok scaler_lr ->
  getitem "lr" models = Ok lr ->
  (mode = "upi" \/ mode = "cdr") /\
  exists p_final,
    score models feature_order df_raw mode false = Ok p_final /\
    List.length p_final = nrows X /\
    forall i, (i < nrows X)%nat ->
      nth i p_final 0 == blend xgb rf scaler_lr lr (row_at X i) /\
      Qabs (nth i p_final 0 - blend xgb rf scaler_lr lr (row_at X i))
        <= 0.000000001.
Proof.
  intros HX Hxgb Hrf Hsc Hlr. split.
  - unfold features in HX.
    destruct (String.eqb mode "upi") eqn:E1; [left; apply String.eqb_eq; exact E1|].
    destruct (String.eqb mode "cdr") eqn:E2; [right; apply String.eqb_eq; exact E2|].
    discriminate.
  - unfold predict_supervised.
    rewrite HX, Hxgb, Hrf, Hsc, Hlr. cbn [bind].
    rewrite combine_map_same, map_map, map_map, combine_map_same, map_map.
    eexists. split; [reflexivity|]. split.
    + rewrite length_map. apply rows_length.
    + intros i Hi. rewrite (nth_rows _ X 0 Hi). cbn [fst snd]. unfold blend.
      set (a := predict_proba xgb (row_at X i)).
      set (b := predict_proba rf (row_at X i)).
      set (c := predict_proba lr (transform scaler_lr (row_at X i))).
      assert (E : a * 0.6 + b * 0.4 == 0.6 * a + 0.4 * b) by ring.
      assert (E' : (a * 0.6 + b * 0.4) * 0.5 + c * 0.5
                   == 0.5 * (0.6 * a + 0.4 * b) + 0.5 * c) by ring.
      split; [exact E'|].
      rewrite E'.
      setoid_replace (0.5 * (0.6 * a + 0.4 * b) + 0.5 * c
                      - (0.5 * (0.6 * a + 0.4 * b) + 0.5 * c)) with 0 by ring.
      discriminate.
Qed.

End ScoringFacts.

(** ** Tables: reading and writing columns *)

Lemma mem_In (c : string) (l : list string) : mem c l = true <-> In c l.
Proof.
  unfold mem. rewrite existsb_exists. split.
  - intros (x & Hx & E). apply String.eqb_eq in E. subst. exact Hx.
  - intro H. exists c. split; [exact H | apply String.eqb_refl].
Qed.

Lemma mem_false (c : string) (l : list string) : mem c l = false <-> ~ In c l.
Proof.
  rewrite <- mem_In. destruct (mem c l); split; congruence.
Qed.

Lemma has_column_lookup (c : string) (df : DataFrame) :
  has_column c df = match lookup c (columns df) with Some _ => true | None => false end.
Proof.
  unfold has_column, labels, mem. induction (columns df) as [|[l s] r IH]; simpl.
  - reflexivity.
  - rewrite String.eqb_sym. destruct (String.eqb l c); simpl; [reflexivity | exact IH].
Qed.

Lemma lookup_replace (c c' : string) (s : series) (cols : list (string * series)) :
  lookup c' (map (fun p => if String.eqb (fst p) c then (c, s) else p) cols)
  = if String.eqb c c'
    then match lookup c cols with Some _ => Some s | None => None end
    else lookup c' cols.
Proof.
  induction cols as [|[l t] r IH]; simpl.
  - destruct (String.eqb c c'); reflexivity.
  - destruct (String.eqb l c) eqn:E; simpl.
    + apply String.eqb_eq in E. subst l.
      destruct (String.eqb c c'); [reflexivity | exact IH].
    + rewrite IH. destruct (String.eqb c c') eqn:E'.
      * apply String.eqb_eq in E'. subst c'. rewrite E. reflexivity.
      * reflexivity.
Qed.

Lemma lookup_app (c : string) (a b : list (string * series)) :
  lookup c (a ++ b)
  = match lookup c a with Some s => Some s | None => lookup c b end.
Proof.
  induction a as [|[l t] r IH]; simpl; [reflexivity|].
  destruct (String.eqb l c); [reflexivity | exact IH].
Qed.

Lemma lookup_set_column (c c' : string) (s : series) (df : DataFrame) :
  lookup c' (columns (set_column c s df))
  = if String.eqb c c' then Some s else lookup c' (columns df).
Proof.
  unfold set_column. rewrite has_column_lookup.
  destruct (lookup c (columns df)) eqn:E; simpl.
  - rewrite lookup_replace, E. reflexivity.
  - rewrite lookup_app. simpl.
    destruct (String.eqb c c') eqn:E'.
    + apply String.eqb_eq in E'. subst c'. rewrite E. reflexivity.
    + destruct (lookup c' (columns df)); reflexivity.
Qed.

Lemma nrows_set_column (c : string) (s : series) (df : DataFrame) :
  nrows (set_column c s df) = nrows df.
Proof. unfold set_column. destruct (has_column c df); reflexivity. Qed.

Lemma get_column_set_column (c c' : string) (s : series) (df : DataFrame) :
  get_column c' (set_column c s df)
  = if String.eqb c c' then Ok s else get_column c' df.
Proof.
  unfold get_column. rewrite lookup_set_column.
  destruct (String.eqb c c'); reflexivity.
Qed.

Lemma labels_set_column (c : string) (s : series) (df : DataFrame) :
  labels (set_column c s df)
  = if has_column c df then labels df else (labels df ++ [c])%list.
Proof.
  unfold set_column, labels. destruct (has_column c df); simpl.
  - rewrite map_map. apply map_ext_in. intros [l t] _. simpl.
    destruct (String.eqb l c) eqn:E; [|reflexivity].
    apply String.eqb_eq in E. simpl. congruence.
  - rewrite map_app. reflexivity.
Qed.

Lemma lookup_add_missing (names : list string) (v : value) (c : string)
    (df : DataFrame) :
  lookup c (columns (add_missing names v df))
  = match lookup c (columns df) with
    | Some s => Some s
    | None => if mem c names then Some (repeat v (nrows df)) else None
    end.
Proof.
  unfold add_missing. revert df.
  induction names as [|n r IH]; intro df; simpl.
  - destruct (lookup c (columns df)); reflexivity.
  - rewrite IH. rewrite has_column_lookup.
    destruct (lookup n (columns df)) eqn:En.
    + destruct (lookup c (columns df)) eqn:Ec; [reflexivity|].
      destruct (String.eqb c n) eqn:E; [|reflexivity].
      apply String.eqb_eq in E. subst. congruence.
    + unfold set_scalar. rewrite lookup_set_column, nrows_set_column.
      rewrite (String.eqb_sym c n).
      destruct (String.eqb n c) eqn:E.
      * apply String.eqb_eq in E. subst. rewrite En. reflexivity.
      * reflexivity.
Qed.

Lemma lookup_relabel (f : string -> string) (L e : string)
    (cols : list (string * series)) :
  (forall l, In l (map fst cols) -> String.eqb (f l) L = String.eqb l e) ->
  lookup L (map (fun p => (f (fst p), snd p)) cols) = lookup e cols.
Proof.
  induction cols as [|[l t] r IH]; intro H; simpl; [reflexivity|].
  rewrite (H l) by (simpl; auto).
  destruct (String.eqb l e); [reflexivity|].
  apply IH. intros l' Hl'. apply H. simpl. auto.
Qed.

Lemma lookup_tabulate (g : string -> series) (e : string) (ls : list string) :
  lookup e (map (fun l => (l, g l)) ls) = if mem e ls then Some (g e) else None.
Proof.
  unfold mem. induction ls as [|l r IH]; simpl; [reflexivity|].
  rewrite (String.eqb_sym e l).
  destruct (String.eqb l e) eqn:E; simpl; [|exact IH].
  apply String.eqb_eq in E. subst. reflexivity.
Qed.

Lemma lookup_None_labels (c : string) (cols : list (string * series)) :
  lookup c cols = None <-> ~ In c (map fst cols).
Proof.
  induction cols as [|[l t] r IH]; simpl.
  - tauto.
  - destruct (String.eqb l c) eqn:E.
    + apply String.eqb_eq in E. split; [discriminate | intro H; exfalso; auto].
    + apply String.eqb_neq in E. rewrite IH. tauto.
Qed.

(** ** Text: lower-case strings *)

Lemma lower_char_idempotent (c : ascii) :
  Text.lower_char (Text.lower_char c) = Text.lower_char c.
Proof. destruct c as [[] [] [] [] [] [] [] []]; reflexivity. Qed.

Lemma lower_idempotent (s : string) : Text.lower (Text.lower s) = Text.lower s.
Proof.
  induction s as [|c r IH]; simpl; [reflexivity|].
  rewrite lower_char_idempotent, IH. reflexivity.
Qed.

Lemma lower_suffix (p t : string) :
  Text.lower (p ++ t) = p ++ t -> Text.lower t = t.
Proof.
  induction p as [|c p IH]; cbn [append Text.lower]; intro H; [exact H|].
  injection H as _ H. exact (IH H).
Qed.

Lemma lower_prefix (t q : string) :
  Text.lower (t ++ q) = t ++ q -> Text.lower t = t.
Proof.
  induction t as [|c t IH]; cbn [append Text.lower]; intro H; [reflexivity|].
  injection H as Hc H. rewrite Hc, (IH H). reflexivity.
Qed.

(** What [lstrip] returns is the end of its argument. *)
Lemma lstrip_suffix (s : string) : exists p, s = p ++ Text.lstrip s.
Proof.
  assert (G : forall n s, (String.length s <= n)%nat ->
                          exists p, s = p ++ Text.lstrip s).
  { clear s. induction n as [|n IH]; intros s Hn.
    - destruct s; [exists ""; reflexivity | cbn in Hn; lia].
    - destruct s as [|a r]; [exists ""; reflexivity|].
      cbn [String.length] in Hn. cbn [Text.lstrip].
      destruct (Text.is_space (String a "")).
      { destruct (IH r ltac:(lia)) as (p & Hp).
        exists (String a p). cbn [append]. rewrite <- Hp. reflexivity. }
      destruct r as [|b r2]; [exists ""; reflexivity|].
      cbn [String.length] in Hn.
      destruct (Text.is_space (String a (String b ""))).
      { destruct (IH r2 ltac:(lia)) as (p & Hp).
        exists (String a (String b p)). cbn [append]. rewrite <- Hp. reflexivity. }
      destruct r2 as [|c r3]; [exists ""; reflexivity|].
      cbn [String.length] in Hn.
      destruct (Text.is_space (String a (String b (String c "")))).
      { destruct (IH r3 ltac:(lia)) as (p & Hp).
        exists (String a (String b (String c p))). cbn [append].
        rewrite <- Hp. reflexivity. }
      exists "". reflexivity. }
  exact (G (String.length s) s (le_n _)).
Qed.

(** What [rstrip] returns is the beginning of its argument. *)
Lemma rstrip_prefix (s : string) : exists q, s = Text.rstrip s ++ q.
Proof.
  induction s as [|c r (q & Hq)]; [exists ""; reflexivity|].
  cbn [Text.rstrip]. cbv zeta.
  destruct (Text.is_space (String c (Text.rstrip r))).
  - exists (String c r). reflexivity.
  - exists q. cbn [append]. rewrite <- Hq. reflexivity.
Qed.

Lemma lower_lstrip (s : string) :
  Text.lower s = s -> Text.lower (Text.lstrip s) = Text.lstrip s.
Proof.
  intro H. destruct (lstrip_suffix s) as (p & Hp).
  apply (@lower_suffix p). rewrite <- Hp. exact H.
Qed.

Lemma lower_rstrip (s : string) :
  Text.lower s = s -> Text.lower (Text.rstrip s) = Text.rstrip s.
Proof.
  intro H. destruct (rstrip_prefix s) as (q & Hq).
  apply (@lower_prefix _ q). rewrite <- Hq. exact H.
Qed.

Lemma lower_strip_lower (s : string) :
  Text.lower (Text.strip (Text.lower s)) = Text.strip (Text.lower s).
Proof.
  unfold Text.strip. apply lower_rstrip, lower_lstrip, lower_idempotent.
Qed.

(** A no-break space (U+00A0) and an ideographic space (U+3000) around a
    call type are stripped like the ASCII space. *)
Lemma strip_unicode_whitespace :
  Text.strip (Text.lower " VoIP 　") = "voip" /\
  Text.strip (Text.lower " voice ") = "voice".
Proof. split; reflexivity. Qed.

(** ** Indicator columns of the call type *)

Definition final_dummies : list (string * string) :=
  [("type_VoIP", "voip"); ("type_international", "international");
   ("type_roaming", "roaming"); ("type_voice", "voice")].

Lemma rename_map_eqb (l final name : string) :
  l <> "type_VoIP" ->
  In (final, name) final_dummies ->
  String.eqb (rename_map l) final = String.eqb l ("type_" ++ name).
Proof.
  intros Hl Hin.
  destruct (string_dec l "type_voip") as [-> | N1].
  { destruct Hin as [H|[H|[H|[H|[]]]]]; injection H as <- <-; reflexivity. }
  destruct (string_dec l "type_international") as [-> | N2].
  { destruct Hin as [H|[H|[H|[H|[]]]]]; injection H as <- <-; reflexivity. }
  destruct (string_dec l "type_roaming") as [-> | N3].
  { destruct Hin as [H|[H|[H|[H|[]]]]]; injection H as <- <-; reflexivity. }
  destruct (string_dec l "type_voice") as [-> | N4].
  { destruct Hin as [H|[H|[H|[H|[]]]]]; injection H as <- <-; reflexivity. }
  assert (R : rename_map l = l).
  { unfold rename_map.
    apply String.eqb_neq in N1, N2, N3, N4. rewrite N1, N2, N3, N4. reflexivity. }
  rewrite R.
  apply String.eqb_neq in Hl, N1, N2, N3, N4.
  destruct Hin as [H|[H|[H|[H|[]]]]]; injection H as <- <-;
    change ("type_" ++ "voip") with "type_voip";
    change ("type_" ++ "international") with "type_international";
    change ("type_" ++ "roaming") with "type_roaming";
    change ("type_" ++ "voice") with "type_voice"; congruence.
Qed.

Section DummyFacts.

Variable num_repr : Q -> string.

Local Notation "'clean'" := (clean_call_type num_repr) (only parsing).

(** The cleaned text of a call type cell. *)
Definition clean_text (v : value) : string :=
  Text.strip (Text.lower (str_of_value num_repr v)).

(** The chain from [pd.get_dummies] to [dummies.rename]. *)
Definition call_type_dummies (cleaned : series) : DataFrame :=
  relabel rename_map
    (add_missing expected_dummies zero
       (relabel Text.lower (get_dummies num_repr cleaned "type"))).

Definition levels_of (raw : series) : list string :=
  nodup string_dec (map (fun v => "type_" ++ clean_text v) raw).

Lemma filter_cleaned (raw : series) :
  filter (fun v => negb (is_missing v)) (map clean raw) = map clean raw.
Proof.
  induction raw as [|v r IH]; simpl; [reflexivity | rewrite IH; reflexivity].
Qed.

Lemma get_dummies_cleaned (raw : series) :
  get_dummies num_repr (map clean raw) "type"
  = mkDF (List.length raw)
      (map (fun l => (l, map (fun v => of_bool (String.eqb ("type_" ++ clean_text v) l)) raw))
         (levels_of raw)).
Proof.
  unfold get_dummies. rewrite filter_cleaned, length_map, map_map.
  f_equal. apply map_ext. intro l. rewrite map_map. reflexivity.
Qed.

Lemma levels_lower (raw : series) (l : string) :
  In l (levels_of raw) -> Text.lower l = l.
Proof.
  unfold levels_of. rewrite nodup_In, in_map_iff. intros (v & <- & _).
  unfold clean_text. simpl. rewrite lower_strip_lower. reflexivity.
Qed.

Lemma relabel_lower_dummies (raw : series) :
  relabel Text.lower (get_dummies num_repr (map clean raw) "type")
  = get_dummies num_repr (map clean raw) "type".
Proof.
  rewrite get_dummies_cleaned. unfold relabel. simpl. f_equal.
  rewrite map_map. apply map_ext_in. intros l Hl. simpl.
  rewrite (@levels_lower raw l Hl). reflexivity.
Qed.

Lemma no_level_no_match (raw : series) (e : string) :
  ~ In e (levels_of raw) ->
  map (fun v => of_bool (String.eqb ("type_" ++ clean_text v) e)) raw
  = repeat zero (List.length raw).
Proof.
  unfold levels_of. rewrite nodup_In. intro H.
  induction raw as [|v r IH]; cbn [map repeat List.length]; [reflexivity|].
  rewrite IH by (intro Hr; apply H; cbn [map]; right; exact Hr). f_equal.
  destruct (String.eqb ("type_" ++ clean_text v) e) eqn:E; [|reflexivity].
  apply String.eqb_eq in E. exfalso. apply H. cbn [map]. left. exact E.
Qed.

(** What [dummies[final]] holds, for the final label [final] that the
    rename gives to the lower-case label [e = "type_" ++ name]. *)
Lemma dummies_column (raw : series) (final name : string) :
  In (final, name) final_dummies ->
  get_column final (call_type_dummies (map clean raw))
  = Ok (map (fun v => of_bool (String.eqb (clean_text v) name)) raw).
Proof.
  intro Hin. unfold call_type_dummies. rewrite relabel_lower_dummies.
  set (e := "type_" ++ name).
  assert (He : mem e expected_dummies = true).
  { simpl in Hin. destruct Hin as [H|[H|[H|[H|[]]]]]; injection H as <- <-; reflexivity. }
  assert (Hcol : lookup e (columns (add_missing expected_dummies zero
                                      (get_dummies num_repr (map clean raw) "type")))
                 = Some (map (fun v => of_bool (String.eqb ("type_" ++ clean_text v) e)) raw)).
  { rewrite lookup_add_missing, He, get_dummies_cleaned. cbn [columns nrows].
    rewrite lookup_tabulate.
    destruct (mem e (levels_of raw)) eqn:M; [reflexivity|].
    apply mem_false in M. rewrite (@no_level_no_match raw e M). reflexivity. }
  unfold get_column.
  change (columns (relabel rename_map ?d))
    with (map (fun p => (rename_map (fst p), snd p)) (columns d)).
  rewrite (@lookup_relabel rename_map final e).
  - rewrite Hcol. reflexivity.
  - intros l Hl.
    assert (Hlow : Text.lower l = l \/ In l expected_dummies).
    { destruct (lookup l (columns (add_missing expected_dummies zero
                (get_dummies num_repr (map clean raw) "type")))) eqn:El.
      - rewrite lookup_add_missing, get_dummies_cleaned in El.
        cbn [columns nrows] in El. rewrite lookup_tabulate in El.
        destruct (mem l (levels_of raw)) eqn:M.
        + left. apply mem_In in M. exact (@levels_lower raw l M).
        + destruct (mem l expected_dummies) eqn:M'; [|discriminate].
          right. apply mem_In. exact M'.
      - apply lookup_None_labels in El. contradiction. }
    assert (Hl' : l <> "type_VoIP").
    { intro. subst l. destruct Hlow as [H|H]; [discriminate H|].
      simpl in H. destruct H as [H|[H|[H|[H|[]]]]]; discriminate H. }
    subst e. apply rename_map_eqb; assumption.
Qed.

End DummyFacts.

(** ** The CDR reconstructor in closed form *)

Fixpoint default_of (c : string) (l : list (string * num)) : option num :=
  match l with
  | [] => None
  | (k, d) :: r => if String.eqb k c then Some d else default_of c r
  end.

Lemma default_of_None (c : string) (l : list (string * num)) :
  ~ In c (map fst l) -> default_of c l = None.
Proof.
  induction l as [|[k d] r IH]; simpl; intro H; [reflexivity|].
  destruct (String.eqb k c) eqn:E.
  - apply String.eqb_eq in E. exfalso. auto.
  - auto.
Qed.

(** The column [c] of a raw table, or [d] in every row when it is absent. *)
Definition raw_or (df : DataFrame) (c : string) (d : value) : series :=
  match lookup c (columns df) with
  | Some s => s
  | None => repeat d (nrows df)
  end.

Section CdrFacts.

Variable num_repr : Q -> string.
Variable parse_number : string -> option num.

Local Notation "'coerced'" := (coerce parse_number) (only parsing).
Local Notation "'ensure'" := (ensure_numeric parse_number) (only parsing).

Lemma ensure_numeric_spec (df : DataFrame) (c : string) (d : num) :
  exists df',
    ensure df (c, d) = Ok df' /\
    nrows df' = nrows df /\
    forall c', lookup c' (columns df')
               = if String.eqb c c'
                 then Some (map (coerced d) (raw_or df c (VNum d)))
                 else lookup c' (columns df).
Proof.
  unfold ensure_numeric, raw_or. cbn [fst snd].
  rewrite has_column_lookup.
  destruct (lookup c (columns df)) as [s|] eqn:E.
  - unfold get_column. rewrite E. cbn [bind]. eexists. split; [reflexivity|].
    split; [apply nrows_set_column|].
    intro c'. apply lookup_set_column.
  - unfold get_column, set_scalar. rewrite lookup_set_column, String.eqb_refl.
    cbn [bind]. eexists. split; [reflexivity|].
    split; [rewrite !nrows_set_column; reflexivity|].
    intro c'. rewrite !lookup_set_column.
    destruct (String.eqb c c'); reflexivity.
Qed.

Lemma numeric_loop_spec (l : list (string * num)) (df : DataFrame) :
  NoDup (map fst l) ->
  exists df',
    for_each ensure l df = Ok df' /\
    nrows df' = nrows df /\
    forall c, lookup c (columns df')
              = match default_of c l with
                | Some d => Some (map (coerced d) (raw_or df c (VNum d)))
                | None => lookup c (columns df)
                end.
Proof.
  revert df. induction l as [|[k d] r IH]; intros df Hnd.
  - exists df. simpl. auto.
  - inversion Hnd as [|? ? Hk Hr]; subst.
    destruct (ensure_numeric_spec df k d) as (df1 & E1 & N1 & L1).
    destruct (IH df1 Hr) as (df2 & E2 & N2 & L2).
    exists df2. cbn [for_each]. rewrite E1. cbn [bind].
    split; [exact E2|]. split; [congruence|].
    intro c. rewrite L2. cbn [default_of].
    destruct (String.eqb k c) eqn:E.
    + apply String.eqb_eq in E. subst c.
      rewrite (default_of_None k r Hk), L1, String.eqb_refl. reflexivity.
    + destruct (default_of c r) as [d'|] eqn:Ed.
      * unfold raw_or. rewrite L1, E, N1. reflexivity.
      * rewrite L1, E. reflexivity.
Qed.

Lemma series_map_lift1_coerced (f : num -> num) (d : num) (s : series) :
  series_map (lift1 f) (map (coerced d) s)
  = Ok (map (fun v => VNum (f (Float.fillna d (to_numeric parse_number v)))) s).
Proof.
  induction s as [|v r IH]; simpl; [reflexivity|]. rewrite IH. reflexivity.
Qed.

Lemma astype_int_of_bool (b : bool) : astype_int (of_bool b) = Ok (of_bool b).
Proof. destruct b; reflexivity. Qed.

(** The eleven columns, written out. *)
Definition numeric_feature (df : DataFrame) (c : string) : series :=
  map (fun v => VNum (Float.fillna (Fin 0) (to_numeric parse_number v)))
      (raw_or df c (VNum (Fin 0))).

Definition hour_feature (df : DataFrame) : series :=
  map (fun v => VNum (Float.clip 0 23
                        (Float.fillna (Fin 0) (to_numeric parse_number v))))
      (raw_or df "call_hour" (VNum (Fin 0))).

Definition type_feature (df : DataFrame) (name : string) : series :=
  map (fun v => of_bool (String.eqb (clean_text num_repr v) name))
      (raw_or df "call_type" (VStr "")).

Definition cdr_features (df : DataFrame) : DataFrame :=
  mkDF (nrows df)
    [("call_duration", numeric_feature df "call_duration");
     ("call_cost", numeric_feature df "call_cost");
     ("cost_per_sec", numeric_feature df "cost_per_sec");
     ("call_hour", hour_feature df);
     ("distinct_callees_last_24h", numeric_feature df "distinct_callees_last_24h");
     ("tower_switch_rate", numeric_feature df "tower_switch_rate");
     ("repeated_short_calls_last_1h", numeric_feature df "repeated_short_calls_last_1h");
     ("type_VoIP", type_feature df "voip");
     ("type_international", type_feature df "international");
     ("type_roaming", type_feature df "roaming");
     ("type_voice", type_feature df "voice")].

End CdrFacts.

Lemma series_map_ok_id (cast : value -> result value) (s : series) :
  Forall (fun v => cast v = Ok v) s -> series_map cast s = Ok s.
Proof.
  induction 1 as [|v r Hv Hr IH]; simpl; [reflexivity|].
  rewrite Hv. cbn [bind]. rewrite IH. reflexivity.
Qed.

Lemma has_column_In (c : string) (df : DataFrame) :
  has_column c df = true <-> In c (labels df).
Proof. apply mem_In. Qed.

(** Copying columns that are not yet in [out] appends them in order. *)
Lemma copy_columns_spec (src : DataFrame) (cast : value -> result value)
    (names : list string) (cols : list series) (out : DataFrame) :
  NoDup names ->
  (forall n, In n names -> ~ In n (labels out)) ->
  Forall2 (fun n s => get_column n src = Ok s /\ series_map cast s = Ok s)
          names cols ->
  for_each (copy_column src cast) names out
  = Ok (mkDF (nrows out) (columns out ++ combine names cols)).
Proof.
  intros Hnd Hfresh H. revert out Hnd Hfresh.
  induction H as [|n s names cols [Hg Hc] Hrest IH]; intros out Hnd Hfresh.
  - simpl. rewrite app_nil_r. destruct out; reflexivity.
  - inversion Hnd as [|? ? Hn Hnd']; subst.
    cbn [for_each]. unfold copy_column at 1. rewrite Hg. cbn [bind].
    rewrite Hc. cbn [bind].
    assert (Hout : set_column n s out = mkDF (nrows out) (columns out ++ [(n, s)])).
    { unfold set_column.
      destruct (has_column n out) eqn:E; [|reflexivity].
      apply has_column_In in E. exfalso. apply (Hfresh n); simpl; auto. }
    rewrite Hout, IH.
    + cbn [nrows columns combine]. rewrite <- app_assoc. reflexivity.
    + exact Hnd'.
    + intros m Hm. unfold labels. cbn [columns]. rewrite map_app, in_app_iff.
      cbn [map fst In]. intros [Hin | [-> | []]].
      * apply (Hfresh m); simpl; auto.
      * contradiction.
Qed.

Lemma map_fill_zero_id (s : series) :
  Forall (fun v => is_missing v = false) s -> map fill_zero s = s.
Proof.
  induction 1 as [|v r Hv Hr IH]; simpl; [reflexivity|].
  unfold fill_zero at 1. rewrite Hv, IH. reflexivity.
Qed.

Lemma fillna_not_nan (n : num) : Float.isnan (Float.fillna (Fin 0) n) = false.
Proof. destruct n; reflexivity. Qed.

Lemma clip_not_nan (lo hi : Q) (n : num) :
  Float.isnan n = false -> Float.isnan (Float.clip lo hi n) = false.
Proof.
  destruct n as [q|[|]|]; simpl; intro H; try reflexivity; [|discriminate].
  destruct (Qltb q lo); [reflexivity|]. destruct (Qltb hi q); reflexivity.
Qed.

Section CdrMain.

Variable num_repr : Q -> string.
Variable parse_number : string -> option num.

Local Notation "'prepare_cdr'" := (prepare_cdr_features num_repr parse_number)
  (only parsing).
Local Notation "'closed_form'" := (cdr_features num_repr parse_number)
  (only parsing).
Local Notation "'numeric'" := (numeric_feature parse_number) (only parsing).
Local Notation "'hour'" := (hour_feature parse_number) (only parsing).
Local Notation "'indicator_of'" := (type_feature num_repr) (only parsing).

Lemma numeric_names_distinct : NoDup (map fst numeric_cols).
Proof. repeat constructor; simpl; intuition discriminate. Qed.

Lemma numeric_feature_cells (df : DataFrame) (c : string) :
  Forall (fun v => astype_float parse_number v = Ok v /\ is_missing v = false)
         (numeric df c).
Proof.
  unfold numeric_feature. apply Forall_forall. intros v Hv.
  apply in_map_iff in Hv. destruct Hv as (w & <- & _).
  split; [reflexivity | apply fillna_not_nan].
Qed.

Lemma hour_feature_cells (df : DataFrame) :
  Forall (fun v => astype_float parse_number v = Ok v /\ is_missing v = false)
         (hour df).
Proof.
  unfold hour_feature. apply Forall_forall. intros v Hv.
  apply in_map_iff in Hv. destruct Hv as (w & <- & _).
  split; [reflexivity | apply clip_not_nan, fillna_not_nan].
Qed.

Lemma type_feature_cells (df : DataFrame) (name : string) :
  Forall (fun v => astype_int v = Ok v /\ is_missing v = false)
         (indicator_of df name).
Proof.
  unfold type_feature. apply Forall_forall. intros v Hv.
  apply in_map_iff in Hv. destruct Hv as (w & <- & _).
  split; [apply astype_int_of_bool | destruct (String.eqb _ _); reflexivity].
Qed.

(** The CDR reconstructor never raises, and its result is the table of
    [cdr_features]. *)
Lemma prepare_cdr_features_closed (df : DataFrame) :
  prepare_cdr df = Ok (closed_form df).
Proof.
  unfold prepare_cdr_features.
  destruct (@numeric_loop_spec parse_number numeric_cols df numeric_names_distinct)
    as (dfA & EA & NA & LA).
  rewrite EA. cbn [bind].
  unfold assign1 at 1. unfold get_column at 1. rewrite LA.
  cbn [default_of numeric_cols String.eqb Ascii.eqb Bool.eqb].
  cbn [bind]. rewrite series_map_lift1_coerced. cbn [bind].
  fold (hour df).
  set (dfB := set_column "call_hour" (hour df) dfA).
  assert (NB : nrows dfB = nrows df)
    by (unfold dfB; rewrite nrows_set_column; exact NA).
  assert (LB : forall c, lookup c (columns dfB)
                         = if String.eqb "call_hour" c then Some (hour df)
                           else lookup c (columns dfA))
    by (intro c; apply lookup_set_column).
  clearbody dfB.
  set (dfC := if has_column "call_type" dfB then dfB
              else set_scalar "call_type" (VStr "") dfB).
  assert (NC : nrows dfC = nrows df).
  { unfold dfC. destruct (has_column "call_type" dfB); [exact NB|].
    unfold set_scalar. rewrite nrows_set_column. exact NB. }
  assert (LC : forall c, String.eqb "call_type" c = false ->
                         lookup c (columns dfC) = lookup c (columns dfB)).
  { intros c Hc. unfold dfC. destruct (has_column "call_type" dfB); [reflexivity|].
    unfold set_scalar. rewrite lookup_set_column, Hc. reflexivity. }
  assert (GC : get_column "call_type" dfC = Ok (raw_or df "call_type" (VStr ""))).
  { unfold dfC, get_column, raw_or. rewrite has_column_lookup.
    pose proof (LB "call_type") as L1. cbn in L1.
    pose proof (LA "call_type") as L2. cbn in L2.
    rewrite L1, L2.
    destruct (lookup "call_type" (columns df)) eqn:E.
    - cbv iota. rewrite L1, L2. reflexivity.
    - cbv iota. unfold set_scalar.
      rewrite lookup_set_column, String.eqb_refl, NB. reflexivity. }
  clearbody dfC. rewrite GC. cbn [bind].
  set (ct := raw_or df "call_type" (VStr "")).
  rewrite get_column_set_column, String.eqb_refl. cbn [bind].
  set (dfD := set_column "call_type" (map (clean_call_type num_repr) ct) dfC).
  assert (ND : nrows dfD = nrows df)
    by (unfold dfD; rewrite nrows_set_column; exact NC).
  assert (GD : forall c, String.eqb "call_type" c = false ->
                         get_column c dfD
                         = match (if String.eqb "call_hour" c then Some (hour df)
                                  else lookup c (columns dfA)) with
                           | Some s => Ok s
                           | None => Raise (KeyError c)
                           end).
  { intros c Hc. unfold dfD, get_column.
    rewrite lookup_set_column, Hc, (LC c Hc), LB. reflexivity. }
  clearbody dfD.
  fold (call_type_dummies num_repr (map (clean_call_type num_repr) ct)).
  set (dummies := call_type_dummies num_repr (map (clean_call_type num_repr) ct)).
  assert (Hnum : forall c, In c (firstn 7 final_cols) -> c <> "call_hour" ->
                 get_column c dfD = Ok (numeric df c)).
  { intros c Hc Hh. apply String.eqb_neq in Hh. rewrite String.eqb_sym in Hh.
    cbn in Hc.
    destruct Hc as [<-|[<-|[<-|[<-|[<-|[<-|[<-|[]]]]]]]];
      try discriminate Hh;
      rewrite GD by reflexivity; rewrite Hh, LA; reflexivity. }
  assert (Hhour : get_column "call_hour" dfD = Ok (hour df))
    by (rewrite GD by reflexivity; reflexivity).
  assert (Hcast : forall c, series_map (astype_float parse_number) (numeric df c)
                            = Ok (numeric df c)).
  { intro c. apply series_map_ok_id.
    eapply Forall_impl; [|apply numeric_feature_cells]. intros v [H _]. exact H. }
  assert (Hcasth : series_map (astype_float parse_number) (hour df) = Ok (hour df)).
  { apply series_map_ok_id.
    eapply Forall_impl; [|apply hour_feature_cells]. intros v [H _]. exact H. }
  assert (Hcastt : forall name, series_map astype_int (indicator_of df name)
                                = Ok (indicator_of df name)).
  { intro name. apply series_map_ok_id.
    eapply Forall_impl; [|apply type_feature_cells]. intros v [H _]. exact H. }
  rewrite (@copy_columns_spec dfD (astype_float parse_number) (firstn 7 final_cols)
             [numeric df "call_duration"; numeric df "call_cost";
              numeric df "cost_per_sec"; hour df;
              numeric df "distinct_callees_last_24h";
              numeric df "tower_switch_rate";
              numeric df "repeated_short_calls_last_1h"]).
  2: { repeat constructor; cbn; intuition discriminate. }
  2: { intros n _ []. }
  2: { cbn [firstn final_cols].
       repeat (constructor;
               [split; [first [exact Hhour
                              | apply Hnum; [cbn; tauto | discriminate]]
                       | first [apply Hcast | exact Hcasth]] |]).
       constructor. }
  cbn [bind].
  rewrite (@copy_columns_spec dummies astype_int (skipn 7 final_cols)
             [indicator_of df "voip"; indicator_of df "international";
              indicator_of df "roaming"; indicator_of df "voice"]).
  2: { repeat constructor; cbn; intuition discriminate. }
  2: { cbn. intros n Hn Hin. intuition (subst; discriminate). }
  2: { cbn [skipn final_cols]. unfold dummies.
       repeat (constructor;
               [split; [apply dummies_column; cbn; tauto | apply Hcastt] |]).
       constructor. }
  cbn [bind nrows columns firstn skipn final_cols combine app map fst snd].
  unfold cdr_features. rewrite ND.
  rewrite !(map_fill_zero_id (s := numeric df _)),
          (map_fill_zero_id (s := hour df)),
          !(map_fill_zero_id (s := indicator_of df _)).
  1: reflexivity.
  all: eapply Forall_impl;
    [|first [apply type_feature_cells | apply hour_feature_cells
            | apply numeric_feature_cells]];
    intros v [_ H]; exact H.
Qed.

End CdrMain.

Section CdrClaims.

Variable num_repr : Q -> string.
Variable parse_number : string -> option num.

Local Notation "'prepare_cdr'" := (prepare_cdr_features num_repr parse_number)
  (only parsing).

Lemma labels_cdr_features (df : DataFrame) :
  labels (cdr_features num_repr parse_number df) = final_cols.
Proof. reflexivity. Qed.

(** A table with one call of type [" VoIP"]. *)
Definition one_voip_call : DataFrame :=
  mkDF 1 [("call_duration", [VNum (Fin 12)]); ("call_type", [VStr " VoIP"]);
          ("type_VoIP", [VNum (Fin 0)]); ("type_voice", [VNum (Fin 1)])].

(** C10.  The four indicator columns are computed from [call_type] alone:
    in every row, the indicator of a category is 1 exactly when the
    lower-cased, stripped text of the call type is the (lower-case) name
    of the category; columns of the input that already carry an indicator
    label are ignored (two tables with distinct labels and the same
    [call_type] column get the same indicators); and applying the
    reconstructor to its own output, which has no [call_type] column, sets
    all four indicators to 0, so the indicators are not idempotent in
    value. *)
Theorem cdr_indicators_from_call_type (df : DataFrame) :
  unique_labels df ->
  exists out,
    prepare_cdr df = Ok out /\
    (forall final name, In (final, name) final_dummies ->
       get_column final out
       = Ok (map (fun v => of_bool (String.eqb (clean_text num_repr v) name))
                 (raw_or df "call_type" (VStr "")))) /\
    (forall df', unique_labels df' -> nrows df' = nrows df ->
       lookup "call_type" (columns df') = lookup "call_type" (columns df) ->
       exists out', prepare_cdr df' = Ok out' /\
         forall final name, In (final, name) final_dummies ->
           get_column final out' = get_column final out) /\
    (exists out2,
       prepare_cdr out = Ok out2 /\
       forall final name, In (final, name) final_dummies ->
         get_column final out2 = Ok (repeat zero (nrows df))) /\
    (exists first second,
       prepare_cdr one_voip_call = Ok first /\
       prepare_cdr first = Ok second /\
       get_column "type_VoIP" first = Ok [of_bool true] /\
       get_column "type_voice" first = Ok [of_bool false] /\
       get_column "type_VoIP" second = Ok [of_bool false]).
Proof.
  intros _. exists (cdr_features num_repr parse_number df).
  split; [apply prepare_cdr_features_closed|].
  split; [|split; [|split]].
  - intros final name Hin. cbn in Hin.
    destruct Hin as [H|[H|[H|[H|[]]]]]; injection H as <- <-; reflexivity.
  - intros df' _ Hn Hl. exists (cdr_features num_repr parse_number df').
    split; [apply prepare_cdr_features_closed|].
    intros final name Hin. cbn in Hin.
    destruct Hin as [H|[H|[H|[H|[]]]]]; injection H as <- <-;
      unfold get_column; cbn; unfold type_feature, raw_or; rewrite Hl, Hn;
      reflexivity.
  - exists (cdr_features num_repr parse_number
              (cdr_features num_repr parse_number df)).
    split; [apply prepare_cdr_features_closed|].
    intros final name Hin.
    assert (Z : forall nm, nm <> "" ->
                type_feature num_repr (cdr_features num_repr parse_number df) nm
                = repeat zero (nrows df)).
    { intros nm Hnm. unfold type_feature, raw_or. cbn [lookup columns cdr_features
        String.eqb Ascii.eqb Bool.eqb nrows].
      rewrite map_repeat. f_equal. unfold clean_text. cbn.
      destruct nm; [congruence | reflexivity]. }
    cbn in Hin.
    destruct Hin as [H|[H|[H|[H|[]]]]]; injection H as <- <-;
      unfold get_column; cbn [lookup columns cdr_features String.eqb Ascii.eqb Bool.eqb];
      rewrite Z by discriminate; reflexivity.
  - exists (cdr_features num_repr parse_number one_voip_call),
           (cdr_features num_repr parse_number
              (cdr_features num_repr parse_number one_voip_call)).
    split; [apply prepare_cdr_features_closed|].
    split; [apply prepare_cdr_features_closed|].
    repeat split; reflexivity.
Qed.

End CdrClaims.

(** ** The UPI reconstructor: when it returns *)

(** The columns the core transformations compute with. *)
Definition numeric_sources : list string :=
  ["amount"; "oldbalanceOrg"; "newbalanceOrig"; "newbalanceDest";
   "oldbalanceDest"; "orig_balance_change"; "dest_balance_change"].

Definition all_num (s : series) : bool := forallb is_num s.

(** No cell of an amount or balance column holds a text. *)
Definition numeric_inputs (df : DataFrame) : bool :=
  forallb (fun c => match lookup c (columns df) with
                    | Some s => all_num s
                    | None => true
                    end) numeric_sources.

Lemma numeric_inputs_lookup (df : DataFrame) (c : string) (s : series) :
  numeric_inputs df = true -> In c numeric_sources ->
  lookup c (columns df) = Some s -> all_num s = true.
Proof.
  unfold numeric_inputs. rewrite forallb_forall. intros H Hc E.
  specialize (H c Hc). rewrite E in H. exact H.
Qed.

Lemma numeric_inputs_intro (df : DataFrame) :
  (forall c s, In c numeric_sources -> lookup c (columns df) = Some s ->
               all_num s = true) ->
  numeric_inputs df = true.
Proof.
  intro H. unfold numeric_inputs. apply forallb_forall. intros c Hc.
  destruct (lookup c (columns df)) eqn:E; [|reflexivity].
  apply (H c); assumption.
Qed.

Lemma numeric_inputs_set_column (t : string) (r : series) (df : DataFrame) :
  numeric_inputs df = true -> all_num r = true ->
  numeric_inputs (set_column t r df) = true.
Proof.
  intros H Hr. apply numeric_inputs_intro. intros c s Hc E.
  rewrite lookup_set_column in E. destruct (String.eqb t c).
  - injection E as <-. exact Hr.
  - exact (@numeric_inputs_lookup df c s H Hc E).
Qed.

Lemma lookup_drop (names : list string) (c : string) (df : DataFrame) :
  lookup c (columns (drop_columns names df))
  = if mem c names then None else lookup c (columns df).
Proof.
  unfold drop_columns. cbn [columns].
  induction (columns df) as [|[l s] r IH]; cbn [filter fst lookup].
  - destruct (mem c names); reflexivity.
  - destruct (mem l names) eqn:M; cbn [negb lookup].
    + rewrite IH. destruct (String.eqb l c) eqn:E; [|reflexivity].
      apply String.eqb_eq in E. subst. rewrite M. reflexivity.
    + destruct (String.eqb l c) eqn:E.
      * apply String.eqb_eq in E. subst. rewrite M. reflexivity.
      * exact IH.
Qed.

Lemma numeric_inputs_drop (names : list string) (df : DataFrame) :
  numeric_inputs df = true -> numeric_inputs (drop_columns names df) = true.
Proof.
  intro H. apply numeric_inputs_intro. intros c s Hc E.
  rewrite lookup_drop in E. destruct (mem c names); [discriminate|].
  exact (@numeric_inputs_lookup df c s H Hc E).
Qed.

Lemma labels_drop (names : list string) (df : DataFrame) :
  labels (drop_columns names df)
  = filter (fun l => negb (mem l names)) (labels df).
Proof.
  unfold drop_columns, labels. cbn [columns].
  induction (columns df) as [|[l s] r IH]; cbn [filter map fst]; [reflexivity|].
  destruct (mem l names); cbn [negb map fst]; rewrite IH; reflexivity.
Qed.

Lemma NoDup_set_column (t : string) (r : series) (df : DataFrame) :
  NoDup (labels df) -> NoDup (labels (set_column t r df)).
Proof.
  intro H. rewrite labels_set_column.
  destruct (has_column t df) eqn:E; [exact H|].
  apply mem_false in E.
  apply NoDup_app; [exact H | repeat constructor; intros [] |].
  intros x Hx [<- | []]. contradiction.
Qed.

Lemma has_column_set_column (t c : string) (r : series) (df : DataFrame) :
  has_column c (set_column t r df) = (String.eqb t c || has_column c df)%bool.
Proof.
  rewrite !has_column_lookup, lookup_set_column.
  destruct (String.eqb t c); reflexivity.
Qed.

Lemma has_column_add_missing (names : list string) (v : value) (c : string)
    (df : DataFrame) :
  has_column c (add_missing names v df) = (has_column c df || mem c names)%bool.
Proof.
  rewrite !has_column_lookup, lookup_add_missing.
  destruct (lookup c (columns df)); [reflexivity|].
  destruct (mem c names); reflexivity.
Qed.

Lemma NoDup_add_missing (names : list string) (v : value) (df : DataFrame) :
  NoDup (labels df) -> NoDup (labels (add_missing names v df)).
Proof.
  unfold add_missing. revert df.
  induction names as [|n r IH]; intros df H; cbn [fold_left]; [exact H|].
  apply IH. destruct (has_column n df); [exact H|].
  apply NoDup_set_column. exact H.
Qed.

(** A step keeps the amount and balance columns numeric, keeps distinct
    labels distinct and neither adds nor removes the column [type]. *)
Definition kept (df df' : DataFrame) : Prop :=
  numeric_inputs df' = true /\
  (NoDup (labels df) -> NoDup (labels df')) /\
  has_column "type" df' = has_column "type" df.

Lemma kept_refl (df : DataFrame) : numeric_inputs df = true -> kept df df.
Proof. intro H. repeat split; auto. Qed.

Lemma kept_trans (a b c : DataFrame) : kept a b -> kept b c -> kept a c.
Proof.
  intros (_ & N1 & T1) (I2 & N2 & T2). repeat split; auto. congruence.
Qed.

Lemma kept_set_column (t : string) (r : series) (df : DataFrame) :
  t <> "type" -> numeric_inputs df = true -> all_num r = true ->
  kept df (set_column t r df).
Proof.
  intros Ht H Hr. split; [|split].
  - apply numeric_inputs_set_column; assumption.
  - apply NoDup_set_column.
  - rewrite has_column_set_column. apply String.eqb_neq in Ht. rewrite Ht.
    reflexivity.
Qed.

(** A cell function that takes numbers to a number. *)
Definition closed1 (f : value -> result value) : Prop :=
  forall v, is_num v = true -> exists u, f v = Ok u /\ is_num u = true.

Definition closed2 (f : value -> value -> result value) : Prop :=
  forall v w, is_num v = true -> is_num w = true ->
              exists u, f v w = Ok u /\ is_num u = true.

Lemma series_map_closed (f : value -> result value) (s : series) :
  closed1 f -> all_num s = true ->
  exists r, series_map f s = Ok r /\ all_num r = true.
Proof.
  intros Hf. induction s as [|v s IH]; cbn [all_num forallb series_map]; intro H.
  - exists []. auto.
  - apply andb_true_iff in H. destruct H as [Hv Hs].
    destruct (Hf v Hv) as (u & Eu & Nu). destruct (IH Hs) as (r & Er & Nr).
    exists (u :: r). rewrite Eu. cbn [bind]. rewrite Er. cbn [bind].
    split; [reflexivity|]. cbn [all_num forallb]. rewrite Nu. exact Nr.
Qed.

Lemma series_zip_closed (f : value -> value -> result value) (a b : series) :
  closed2 f -> all_num a = true -> all_num b = true ->
  exists r, series_zip f a b = Ok r /\ all_num r = true.
Proof.
  intros Hf. revert b.
  induction a as [|v a IH]; intros b Ha Hb; [exists []; auto|].
  destruct b as [|w b]; [exists []; auto|].
  cbn [all_num forallb] in Ha, Hb.
  apply andb_true_iff in Ha, Hb. destruct Ha as [Hv Ha], Hb as [Hw Hb].
  destruct (Hf v w Hv Hw) as (u & Eu & Nu).
  destruct (IH b Ha Hb) as (r & Er & Nr).
  exists (u :: r). cbn [series_zip]. rewrite Eu. cbn [bind]. rewrite Er.
  cbn [bind]. split; [reflexivity|]. cbn [all_num forallb]. rewrite Nu. exact Nr.
Qed.

Lemma closed_lift1 (f : num -> num) : closed1 (lift1 f).
Proof. intros [n|s] H; [|discriminate]. eexists. split; reflexivity. Qed.

Lemma closed_lift2 (f : num -> num -> num) : closed2 (lift2 f).
Proof.
  intros [n|s] [m|t] H1 H2; try discriminate. eexists. split; reflexivity.
Qed.

Lemma closed_mismatch : closed2 mismatch.
Proof.
  intros [n|s] [m|t] H1 H2; try discriminate. eexists. split; reflexivity.
Qed.

Lemma closed_zero_but_amount : closed2 zero_but_amount.
Proof.
  intros [n|s] [m|t] H1 H2; try discriminate. eexists. split; reflexivity.
Qed.

Lemma closed_balance_ratio : closed2 balance_ratio.
Proof.
  intros [n|s] [m|t] H1 H2; try discriminate. eexists. split; reflexivity.
Qed.

Lemma has_column_get (c : string) (df : DataFrame) :
  has_column c df = true -> exists s, lookup c (columns df) = Some s.
Proof.
  rewrite has_column_lookup. destruct (lookup c (columns df)) as [s|];
    [eauto | discriminate].
Qed.

Lemma when_assign1_kept (target src : string) (f : value -> result value)
    (df : DataFrame) :
  target <> "type" -> In src numeric_sources -> closed1 f ->
  numeric_inputs df = true ->
  exists df', when (has_column src df) (assign1 target src f) df = Ok df' /\
              kept df df'.
Proof.
  intros Ht Hs Hf H. unfold when.
  destruct (has_column src df) eqn:E; [|exists df; split; [reflexivity|apply kept_refl; exact H]].
  destruct (has_column_get _ _ E) as (s & Es).
  destruct (@series_map_closed f s Hf (@numeric_inputs_lookup df src s H Hs Es))
    as (r & Er & Nr).
  exists (set_column target r df). unfold assign1, get_column.
  rewrite Es. cbn [bind]. rewrite Er. cbn [bind].
  split; [reflexivity | apply kept_set_column; assumption].
Qed.

Lemma when_assign2_kept (names : list string) (target a b : string)
    (f : value -> value -> result value) (df : DataFrame) :
  target <> "type" -> In a names -> In b names ->
  In a numeric_sources -> In b numeric_sources -> closed2 f ->
  numeric_inputs df = true ->
  exists df', when (has_columns names df) (assign2 target a b f) df = Ok df' /\
              kept df df'.
Proof.
  intros Ht Han Hbn Ha Hb Hf H. unfold when.
  destruct (has_columns names df) eqn:E;
    [|exists df; split; [reflexivity|apply kept_refl; exact H]].
  unfold has_columns in E. rewrite forallb_forall in E.
  destruct (has_column_get _ _ (E a Han)) as (x & Ex).
  destruct (has_column_get _ _ (E b Hbn)) as (y & Ey).
  destruct (@series_zip_closed f x y Hf
              (@numeric_inputs_lookup df a x H Ha Ex)
              (@numeric_inputs_lookup df b y H Hb Ey)) as (r & Er & Nr).
  exists (set_column target r df). unfold assign2, get_column.
  rewrite Ex, Ey. cbn [bind]. rewrite Er. cbn [bind].
  split; [reflexivity | apply kept_set_column; assumption].
Qed.

Section UpiCore.

Variable log1p_finite : Q -> Q.

(** On numeric amounts and balances the core transformations return. *)
Lemma core_transformations_kept (df : DataFrame) :
  numeric_inputs df = true ->
  exists df', core_transformations log1p_finite df = Ok df' /\ kept df df'.
Proof.
  intro H0. unfold core_transformations.
  destruct (@when_assign1_kept "amount_log" "amount"
              (lift1 (log1p log1p_finite)) df) as (d1 & E1 & K1);
    [discriminate | cbn; tauto | apply closed_lift1 | exact H0 |].
  rewrite E1. cbn [bind].
  destruct (@when_assign2_kept ["oldbalanceOrg"; "newbalanceOrig"]
              "orig_balance_change" "oldbalanceOrg" "newbalanceOrig"
              (lift2 Float.sub) d1) as (d2 & E2 & K2);
    [discriminate | cbn; tauto | cbn; tauto | cbn; tauto | cbn; tauto
    | apply closed_lift2 | apply K1 |].
  rewrite E2. cbn [bind].
  destruct (@when_assign2_kept ["newbalanceDest"; "oldbalanceDest"]
              "dest_balance_change" "newbalanceDest" "oldbalanceDest"
              (lift2 Float.sub) d2) as (d3 & E3 & K3);
    [discriminate | cbn; tauto | cbn; tauto | cbn; tauto | cbn; tauto
    | apply closed_lift2 | apply K2 |].
  rewrite E3. cbn [bind].
  destruct (@when_assign2_kept ["orig_balance_change"; "amount"]
              "balance_mismatch_orig" "orig_balance_change" "amount"
              mismatch d3) as (d4 & E4 & K4);
    [discriminate | cbn; tauto | cbn; tauto | cbn; tauto | cbn; tauto
    | apply closed_mismatch | apply K3 |].
  rewrite E4. cbn [bind].
  destruct (@when_assign2_kept ["dest_balance_change"; "amount"]
              "balance_mismatch_dest" "dest_balance_change" "amount"
              mismatch d4) as (d5 & E5 & K5);
    [discriminate | cbn; tauto | cbn; tauto | cbn; tauto | cbn; tauto
    | apply closed_mismatch | apply K4 |].
  rewrite E5. cbn [bind].
  destruct (@when_assign2_kept ["oldbalanceOrg"; "amount"]
              "orig_zero_but_amount" "oldbalanceOrg" "amount"
              zero_but_amount d5) as (d6 & E6 & K6);
    [discriminate | cbn; tauto | cbn; tauto | cbn; tauto | cbn; tauto
    | apply closed_zero_but_amount | apply K5 |].
  rewrite E6. cbn [bind].
  destruct (@when_assign2_kept ["oldbalanceDest"; "amount"]
              "dest_zero_but_amount" "oldbalanceDest" "amount"
              zero_but_amount d6) as (d7 & E7 & K7);
    [discriminate | cbn; tauto | cbn; tauto | cbn; tauto | cbn; tauto
    | apply closed_zero_but_amount | apply K6 |].
  rewrite E7. cbn [bind].
  destruct (@when_assign2_kept ["newbalanceOrig"; "oldbalanceOrg"]
              "orig_balance_ratio" "oldbalanceOrg" "newbalanceOrig"
              balance_ratio d7) as (d8 & E8 & K8);
    [discriminate | cbn; tauto | cbn; tauto | cbn; tauto | cbn; tauto
    | apply closed_balance_ratio | apply K7 |].
  rewrite E8. cbn [bind].
  destruct (@when_assign2_kept ["newbalanceDest"; "oldbalanceDest"]
              "dest_balance_ratio" "oldbalanceDest" "newbalanceDest"
              balance_ratio d8) as (d9 & E9 & K9);
    [discriminate | cbn; tauto | cbn; tauto | cbn; tauto | cbn; tauto
    | apply closed_balance_ratio | apply K8 |].
  exists d9. split; [exact E9|].
  apply (@kept_trans df d1 d9 K1), (@kept_trans d1 d2 d9 K2),
    (@kept_trans d2 d3 d9 K3), (@kept_trans d3 d4 d9 K4),
    (@kept_trans d4 d5 d9 K5), (@kept_trans d5 d6 d9 K6),
    (@kept_trans d6 d7 d9 K7), (@kept_trans d7 d8 d9 K8), K9.
Qed.

End UpiCore.

(** ** Selecting columns *)

Lemma filter_label_nonempty (n : string) (cols : list (string * series)) :
  In n (map fst cols) ->
  filter (fun p => String.eqb (fst p) n) cols <> [].
Proof.
  induction cols as [|[l s] r IH]; cbn [map fst In filter]; [tauto|].
  intros [-> | H].
  - rewrite String.eqb_refl. discriminate.
  - destruct (String.eqb l n); [discriminate | auto].
Qed.

Lemma filter_label_labels (n : string) (cols : list (string * series)) :
  map fst (filter (fun p => String.eqb (fst p) n) cols)
  = repeat n (List.length (filter (fun p => String.eqb (fst p) n) cols)).
Proof.
  induction cols as [|[l s] r IH]; cbn [filter fst]; [reflexivity|].
  destruct (String.eqb l n) eqn:E; [|exact IH].
  apply String.eqb_eq in E. subst. cbn [map fst List.length repeat].
  rewrite IH. reflexivity.
Qed.

Lemma filter_label_unique (n : string) (cols : list (string * series)) :
  NoDup (map fst cols) -> In n (map fst cols) ->
  map fst (filter (fun p => String.eqb (fst p) n) cols) = [n].
Proof.
  induction cols as [|[l s] r IH]; cbn [map fst In filter]; [tauto|].
  intros Hnd Hin. inversion Hnd as [|? ? Hl Hr]; subst.
  destruct (String.eqb l n) eqn:E.
  - apply String.eqb_eq in E. subst l. cbn [map fst]. f_equal.
    rewrite filter_label_labels.
    destruct (filter (fun p => String.eqb (fst p) n) r) as [|[k t] f] eqn:F;
      [reflexivity|].
    exfalso. apply Hl.
    assert (I : In (k, t) (filter (fun p => String.eqb (fst p) n) r))
      by (rewrite F; left; reflexivity).
    apply filter_In in I. destruct I as [I Ek]. cbn [fst] in Ek.
    apply String.eqb_eq in Ek. subst k.
    apply in_map_iff. exists (n, t). auto.
  - apply String.eqb_neq in E. destruct Hin as [-> | Hin]; [congruence|].
    apply IH; assumption.
Qed.

(** [df[names]] returns when every name is a label of [df]. *)
Lemma select_total (names : list string) (df : DataFrame) :
  (forall n, In n names -> has_column n df = true) ->
  exists X, select names df = Ok X.
Proof.
  intro H. unfold select.
  assert (E : exists cols, select_columns names (columns df) = Ok cols).
  { induction names as [|n r IH]; [exists []; reflexivity|].
    destruct IH as (rest & Er); [intros m Hm; apply H; right; exact Hm|].
    cbn [select_columns].
    pose proof (@filter_label_nonempty n (columns df)) as Hne.
    destruct (filter (fun p => String.eqb (fst p) n) (columns df)) as [|p m] eqn:F.
    - exfalso. apply Hne; [|reflexivity].
      apply has_column_In. apply H. left. reflexivity.
    - rewrite Er. cbn [bind]. eexists. reflexivity. }
  destruct E as (cols & E). rewrite E. cbn [bind]. eexists. reflexivity.
Qed.

(** From a table with distinct labels, [df[names]] has exactly the
    labels [names]. *)
Lemma select_distinct (names : list string) (df : DataFrame) :
  NoDup (labels df) ->
  (forall n, In n names -> has_column n df = true) ->
  exists X, select names df = Ok X /\ labels X = names.
Proof.
  intros Hnd H. unfold select.
  assert (E : exists cols, select_columns names (columns df) = Ok cols /\
                           map fst cols = names).
  { induction names as [|n r IH]; [exists []; split; reflexivity|].
    destruct IH as (rest & Er & Lr); [intros m Hm; apply H; right; exact Hm|].
    cbn [select_columns].
    assert (Hn : In n (map fst (columns df)))
      by (apply has_column_In; apply H; left; reflexivity).
    pose proof (@filter_label_unique n (columns df) Hnd Hn) as U.
    destruct (filter (fun p => String.eqb (fst p) n) (columns df)) as [|p m] eqn:F;
      [discriminate U|].
    rewrite Er. cbn [bind]. eexists. split; [reflexivity|].
    rewrite map_app, U, Lr. reflexivity. }
  destruct E as (cols & E & L). rewrite E. cbn [bind].
  eexists. split; [reflexivity | exact L].
Qed.

(** When [df[names]] has distinct labels, they are exactly [names]. *)
Lemma select_columns_unique (names : list string)
    (cols out : list (string * series)) :
  select_columns names cols = Ok out -> NoDup (map fst out) ->
  map fst out = names.
Proof.
  revert out. induction names as [|n r IH]; intros out E Hnd.
  - injection E as <-. reflexivity.
  - cbn [select_columns] in E.
    pose proof (filter_label_labels n cols) as L.
    destruct (filter (fun p => String.eqb (fst p) n) cols) as [|p m] eqn:F;
      [discriminate|].
    destruct (select_columns r cols) as [rest|e]; [|discriminate].
    cbn [bind] in E. injection E as <-.
    cbn [map app] in Hnd, L |- *. cbn [List.length repeat] in L.
    injection L as Hp Hm. rewrite Hp in Hnd |- *.
    destruct m as [|q m].
    + cbn [app] in Hnd |- *. inversion Hnd; subst. f_equal.
      apply IH; [reflexivity | assumption].
    + exfalso. cbn [map List.length repeat] in Hm. injection Hm as Hq _.
      cbn [app map] in Hnd. rewrite Hq in Hnd.
      inversion Hnd as [|? ? Hx _]; subst. apply Hx. left. reflexivity.
Qed.

Lemma select_unique (names : list string) (df X : DataFrame) :
  select names df = Ok X -> NoDup (labels X) -> labels X = names.
Proof.
  unfold select. intros E Hnd.
  destruct (select_columns names (columns df)) as [cols|e] eqn:S; [|discriminate].
  cbn [bind] in E. injection E as <-.
  exact (@select_columns_unique names (columns df) cols S Hnd).
Qed.

(** ** The UPI reconstructor: totality and canonical columns *)

Definition schema_missing (path : string) : error :=
  FileNotFoundError ("❌ feature_order.yaml not found at " ++ path).

Lemma NoDup_drop (names : list string) (df : DataFrame) :
  NoDup (labels df) -> NoDup (labels (drop_columns names df)).
Proof. intro H. rewrite labels_drop. apply NoDup_filter. exact H. Qed.

Lemma has_column_drop (names : list string) (c : string) (df : DataFrame) :
  has_column c (drop_columns names df)
  = (negb (mem c names) && has_column c df)%bool.
Proof.
  rewrite !has_column_lookup, lookup_drop.
  destruct (mem c names); reflexivity.
Qed.

Section UpiFacts.

Variable log1p_finite : Q -> Q.
Variable num_repr : Q -> string.
Variable feature_order_path : string.

Local Notation "'prepare_upi'" :=
  (prepare_upi_features log1p_finite num_repr feature_order_path)
  (only parsing).

Lemma type_dummies_total (df : DataFrame) :
  exists df', type_dummies num_repr df = Ok df'.
Proof.
  unfold type_dummies. destruct (has_column "type" df) eqn:E; [|eexists; reflexivity].
  destruct (has_column_get _ _ E) as (t & Et).
  unfold get_column. rewrite Et. cbn [bind].
  destruct (@select_total expected_types
              (add_missing expected_types zero (get_dummies num_repr t "type")))
    as (d & Ed).
  - intros n Hn. rewrite has_column_add_missing.
    apply mem_In in Hn. rewrite Hn. apply orb_true_r.
  - rewrite Ed. cbn [bind]. eexists. reflexivity.
Qed.

Lemma select_schema_total (training_order : list string) (df : DataFrame) :
  exists X, select training_order (add_missing training_order zero df) = Ok X.
Proof.
  apply select_total. intros n Hn. rewrite has_column_add_missing.
  apply mem_In in Hn. rewrite Hn. apply orb_true_r.
Qed.

(** [d[k]] raises exactly when [k] is not a key of [d], and then
    [KeyError(k)]. *)
Lemma getitem_raises {A : Type} (k : string) (d : list (string * A)) (e : error) :
  getitem k d = Raise e <-> e = KeyError k /\ ~ In k (map fst d).
Proof.
  induction d as [|[l a] r IH]; cbn [getitem map fst In].
  - split; [intro H; injection H as <-; tauto | intros [-> _]; reflexivity].
  - destruct (String.eqb l k) eqn:E.
    + apply String.eqb_eq in E. split; [discriminate | intros [_ H]; tauto].
    + apply String.eqb_neq in E. rewrite IH. tauto.
Qed.

Lemma getitem_returns {A : Type} (k : string) (d : list (string * A)) (a : A) :
  getitem k d = Ok a -> In k (map fst d).
Proof.
  induction d as [|[l b] r IH]; cbn [getitem map fst In]; [discriminate|].
  destruct (String.eqb l k) eqn:E.
  - apply String.eqb_eq in E. intros _. left. exact E.
  - intro H. right. exact (IH H).
Qed.

(** With numeric amounts and balances, the reconstructor raises exactly
    when the schema file is absent or lacks the key ["upi_features"]. *)
Lemma prepare_upi_features_returns (feature_order : option yaml_mapping)
    (df : DataFrame) :
  numeric_inputs df = true ->
  match feature_order with
  | None => prepare_upi None df = Raise (schema_missing feature_order_path)
  | Some doc =>
      match getitem "upi_features" doc with
      | Ok _ => exists X, prepare_upi (Some doc) df = Ok X
      | Raise e => prepare_upi (Some doc) df = Raise e
      end
  end.
Proof.
  intro H. unfold prepare_upi_features.
  destruct (@core_transformations_kept log1p_finite
              (drop_columns label_columns df) (numeric_inputs_drop _ _ H))
    as (d1 & E1 & K1).
  rewrite E1. cbn [bind].
  destruct (type_dummies_total d1) as (d2 & E2). rewrite E2. cbn [bind].
  destruct feature_order as [doc|]; [|reflexivity].
  destruct (getitem "upi_features" doc) as [training_order|e]; cbn [bind];
    [|reflexivity].
  apply select_schema_total.
Qed.

(** On a table with distinct labels and no [type] column, the result has
    exactly the labels of the schema. *)
Lemma prepare_upi_features_canonical (doc : yaml_mapping)
    (training_order : list string) (df : DataFrame) :
  getitem "upi_features" doc = Ok training_order ->
  numeric_inputs df = true -> NoDup (labels df) -> has_column "type" df = false ->
  exists X, prepare_upi (Some doc) df = Ok X /\
            labels X = training_order.
Proof.
  intros Hdoc H Hnd Ht. unfold prepare_upi_features. rewrite Hdoc.
  destruct (@core_transformations_kept log1p_finite
              (drop_columns label_columns df) (numeric_inputs_drop _ _ H))
    as (d1 & E1 & (_ & N1 & T1)).
  rewrite E1. cbn [bind].
  assert (T1' : has_column "type" d1 = false).
  { rewrite T1, has_column_drop, Ht. apply andb_false_r. }
  unfold type_dummies. rewrite T1'. cbn [bind].
  apply select_distinct.
  - apply NoDup_add_missing, NoDup_drop, NoDup_add_missing, NoDup_add_missing.
    apply N1, NoDup_drop, Hnd.
  - intros n Hn. rewrite has_column_add_missing.
    apply mem_In in Hn. rewrite Hn. apply orb_true_r.
Qed.

(** A result with distinct labels has exactly the labels of the schema. *)
Lemma prepare_upi_features_unique (doc : yaml_mapping)
    (training_order : list string) (df X : DataFrame) :
  getitem "upi_features" doc = Ok training_order ->
  prepare_upi (Some doc) df = Ok X -> NoDup (labels X) ->
  labels X = training_order.
Proof.
  unfold prepare_upi_features. intros Hdoc E Hnd. rewrite Hdoc in E.
  destruct (core_transformations log1p_finite (drop_columns label_columns df));
    cbn [bind] in E; [|discriminate].
  destruct (type_dummies num_repr a); cbn [bind] in E; [|discriminate].
  exact (@select_unique training_order _ X E Hnd).
Qed.

End UpiFacts.

(** ** The reconstructors: fatal conditions and repeated application *)

Section ReconstructorClaims.

Variable log1p_finite : Q -> Q.
Variable num_repr : Q -> string.
Variable parse_number : string -> option num.
Variable feature_order_path : string.

Local Notation "'prepare_upi'" :=
  (prepare_upi_features log1p_finite num_repr feature_order_path)
  (only parsing).
Local Notation "'prepare_cdr'" := (prepare_cdr_features num_repr parse_number)
  (only parsing).

Lemma coerced_cells (df : DataFrame) (c : string) (f : num -> num) :
  f (Fin 0) = Fin 0 -> (forall n, Float.isnan n = false -> Float.isnan (f n) = false) ->
  Forall2 (fun v u => is_num u = true /\ is_missing u = false /\
                      (to_numeric parse_number v = NaN -> u = zero))
          (raw_or df c zero)
          (map (fun v => VNum (f (Float.fillna (Fin 0) (to_numeric parse_number v))))
               (raw_or df c zero)).
Proof.
  intros Hf Hn. induction (raw_or df c zero) as [|v r IH]; cbn [map]; constructor.
  - split; [reflexivity|]. split.
    + cbn [is_missing]. apply Hn. apply fillna_not_nan.
    + intros ->. cbn [Float.fillna]. rewrite Hf. reflexivity.
  - exact IH.
Qed.

Lemma missing_column_zero (df : DataFrame) (c : string) (f : num -> num) :
  f (Fin 0) = Fin 0 -> lookup c (columns df) = None ->
  map (fun v => VNum (f (Float.fillna (Fin 0) (to_numeric parse_number v))))
      (raw_or df c zero)
  = repeat zero (nrows df).
Proof.
  intros Hf E. unfold raw_or. rewrite E, map_repeat. cbn. rewrite Hf. reflexivity.
Qed.

(** C7, as the code has it.  On a table whose amount and balance columns
    hold no text, [prepare_upi_features] raises the file-not-found error
    exactly when the schema file is absent; when the file is there, it
    raises [KeyError] exactly when the file has no key ["upi_features"],
    and returns a table otherwise; it raises nothing else.
    [prepare_cdr_features] reads no schema file and always returns: a
    missing numeric column is filled with 0.0 and a cell that is not a
    number becomes 0.0. *)
Theorem schema_file_only_fatal_condition
    (feature_order : option yaml_mapping) (df : DataFrame) :
  unique_labels df ->
  numeric_inputs df = true ->
  (prepare_upi feature_order df = Raise (schema_missing feature_order_path)
   <-> feature_order = None) /\
  (prepare_upi feature_order df = Raise (KeyError "upi_features")
   <-> exists doc, feature_order = Some doc /\
                   ~ In "upi_features" (map fst doc)) /\
  ((exists X, prepare_upi feature_order df = Ok X)
   <-> exists doc, feature_order = Some doc /\
                   In "upi_features" (map fst doc)) /\
  (forall e, prepare_upi feature_order df = Raise e ->
             e = schema_missing feature_order_path \/
             e = KeyError "upi_features") /\
  (forall calls : DataFrame,
     unique_labels calls ->
     exists out,
       prepare_cdr calls = Ok out /\
       forall c, In c (firstn 7 final_cols) ->
         exists col,
           get_column c out = Ok col /\
           (lookup c (columns calls) = None -> col = repeat zero (nrows calls)) /\
           Forall2 (fun v u => is_num u = true /\ is_missing u = false /\
                               (to_numeric parse_number v = NaN -> u = zero))
                   (raw_or calls c zero) col).
Proof.
  intros _ H.
  pose proof (@prepare_upi_features_returns log1p_finite num_repr
                feature_order_path feature_order df H) as R.
  assert (Cases :
            (feature_order = None /\
             prepare_upi feature_order df = Raise (schema_missing feature_order_path))
            \/ (exists doc, feature_order = Some doc /\
                            ~ In "upi_features" (map fst doc) /\
                            prepare_upi feature_order df
                            = Raise (KeyError "upi_features"))
            \/ (exists doc X, feature_order = Some doc /\
                              In "upi_features" (map fst doc) /\
                              prepare_upi feature_order df = Ok X)).
  { destruct feature_order as [doc|]; [|left; split; [reflexivity | exact R]].
    right. destruct (getitem "upi_features" doc) as [t|e] eqn:G.
    - right. destruct R as (X & E). exists doc, X.
      split; [reflexivity|]. split; [exact (getitem_returns _ _ G) | exact E].
    - left. apply getitem_raises in G. destruct G as [-> G].
      exists doc. split; [reflexivity|]. split; [exact G | exact R]. }
  clear R.
  split; [|split; [|split; [|split]]].
  - destruct Cases as [[-> E] | [(doc & -> & _ & E) | (doc & X & -> & _ & E)]];
      rewrite E; split; try reflexivity; discriminate.
  - destruct Cases as [[-> E] | [(doc & -> & N & E) | (doc & X & -> & I & E)]];
      rewrite E; (split; [intro B | intros (doc' & B & N')]).
    + discriminate B.
    + discriminate B.
    + exists doc. split; [reflexivity | exact N].
    + reflexivity.
    + discriminate B.
    + injection B as <-. contradiction.
  - destruct Cases as [[-> E] | [(doc & -> & N & E) | (doc & X & -> & I & E)]];
      rewrite E; (split; [intros (X' & B) | intros (doc' & B & I')]).
    + discriminate B.
    + discriminate B.
    + discriminate B.
    + injection B as <-. contradiction.
    + exists doc. split; [reflexivity | exact I].
    + exists X. reflexivity.
  - intros e He.
    destruct Cases as [[_ E] | [(doc & _ & _ & E) | (doc & X & _ & _ & E)]];
      rewrite E in He; [left | right | discriminate He];
      injection He as <-; reflexivity.
  - intros calls _. exists (cdr_features num_repr parse_number calls).
    split; [apply prepare_cdr_features_closed|].
    intros c Hc. cbn in Hc.
    destruct Hc as [<-|[<-|[<-|[<-|[<-|[<-|[<-|[]]]]]]]];
      eexists; (split; [reflexivity|]); split;
      first [ apply (@missing_column_zero calls _ (fun n => n)); reflexivity
            | apply (@missing_column_zero calls _ (Float.clip 0 23)); reflexivity
            | apply (@coerced_cells calls _ (fun n => n)); [reflexivity | auto]
            | apply (@coerced_cells calls _ (Float.clip 0 23));
              [reflexivity | intros n Hn; apply clip_not_nan; exact Hn] ].
Qed.

(** C9, as the code has it.  For CDR, the reconstructor applied to its own
    output returns a table with the same columns in the same order.  For
    UPI, with [training_order] the schema the file holds, the same holds
    when the first output has distinct labels, the schema does not list
    [type], and the amount and balance columns of the first output hold no
    text. *)
Theorem reconstruction_keeps_columns
    (doc : yaml_mapping) (training_order : list string) (raw X1 : DataFrame) :
  unique_labels raw ->
  getitem "upi_features" doc = Ok training_order ->
  prepare_upi (Some doc) raw = Ok X1 ->
  unique_labels X1 ->
  ~ In "type" training_order ->
  numeric_inputs X1 = true ->
  (exists X2,
     prepare_upi (Some doc) X1 = Ok X2 /\
     labels X2 = labels X1 /\ labels X1 = training_order) /\
  (forall calls : DataFrame,
     unique_labels calls ->
     exists out out2,
       prepare_cdr calls = Ok out /\ prepare_cdr out = Ok out2 /\
       labels out2 = labels out /\ labels out = final_cols).
Proof.
  intros _ Hdoc E1 U1 Ht N1. split.
  - pose proof (@prepare_upi_features_unique log1p_finite num_repr
                  feature_order_path doc training_order raw X1 Hdoc E1 U1) as L1.
    destruct (@prepare_upi_features_canonical log1p_finite num_repr
                feature_order_path doc training_order X1 Hdoc N1 U1)
      as (X2 & E2 & L2).
    + apply mem_false. rewrite L1. exact Ht.
    + exists X2. split; [exact E2|]. split; [congruence | exact L1].
  - intros calls _.
    exists (cdr_features num_repr parse_number calls),
           (cdr_features num_repr parse_number
              (cdr_features num_repr parse_number calls)).
    split; [apply prepare_cdr_features_closed|].
    split; [apply prepare_cdr_features_closed|].
    split; reflexivity.
Qed.

End ReconstructorClaims.

(** * The model at work on concrete tables *)

(** Stand-ins for the three library functions, to run the model. *)
Definition example_log1p (q : Q) : Q := q.
Definition example_repr (q : Q) : string := "1.0".
Definition example_parse (s : string) : option num :=
  if String.eqb s "12" then Some (Fin 12) else None.
Definition example_path : string := "/srv/app/config/feature_order.yaml".

(** A pre-engineered UPI table that still carries its [type] column. *)
Definition upi_pre_engineered : DataFrame :=
  mkDF 2 [("amount", [VNum (Fin 100); VNum (Fin 5)]);
          ("type", [VStr "CASH_IN"; VStr "TRANSFER"]);
          ("type_CASH_IN", [VNum (Fin 1); VNum (Fin 0)])].

(** The same table without the [type] column. *)
Definition upi_without_type : DataFrame :=
  drop_columns ["type"] upi_pre_engineered.

(** C2 at its failing input.  With the schema [amount, type_CASH_IN]
    under the key [upi_features] of the schema file, a
    table that has both [type] and [type_CASH_IN] comes back with the
    label [type_CASH_IN] twice; without the [type] column the same table
    comes back with exactly the schema. *)
Theorem upi_type_indicator_duplicated :
  (exists X,
     prepare_upi_features example_log1p example_repr example_path
       (Some [("upi_features", ["amount"; "type_CASH_IN"])]) upi_pre_engineered
     = Ok X /\
     labels X = ["amount"; "type_CASH_IN"; "type_CASH_IN"]) /\
  (exists X,
     prepare_upi_features example_log1p example_repr example_path
       (Some [("upi_features", ["amount"; "type_CASH_IN"])]) upi_without_type
     = Ok X /\
     labels X = ["amount"; "type_CASH_IN"]) /\
  unique_labels upi_pre_engineered.
Proof.
  split; [|split].
  - eexists. split; [vm_compute; reflexivity | reflexivity].
  - eexists. split; [vm_compute; reflexivity | reflexivity].
  - unfold unique_labels. cbn. repeat constructor; cbn; intuition discriminate.
Qed.

(** C4 fails on a batch whose values differ but are close: minimum and
    maximum differ, the result is all zero, and [(max - min) / (max - min)]
    is not 0. *)
Lemma normalize_close_batch_is_zero :
  np_min [0.5; 0.500001] = Ok 0.5 /\
  np_max [0.5; 0.500001] = Ok 0.500001 /\
  ~ 0.5 == 0.500001 /\
  normalize_probabilities [0.5; 0.500001] = Ok [0; 0] /\
  (0.500001 - 0.5) / (0.500001 - 0.5) == 1.
Proof.
  split; [reflexivity|]. split; [reflexivity|]. split; [discriminate|].
  split; reflexivity.
Qed.

Lemma normalize_probabilities_spec_witness :
  exists lo hi,
    np_min [0.2; 0.8] = Ok lo /\ np_max [0.2; 0.8] = Ok hi /\
    (Qabs (lo - hi) <= atol + rtol * Qabs hi ->
       normalize_probabilities [0.2; 0.8] = Ok (map (fun _ => 0) [0.2; 0.8])) /\
    ((forall p q, In p [0.2; 0.8] -> In q [0.2; 0.8] -> p == q) ->
       normalize_probabilities [0.2; 0.8] = Ok (map (fun _ => 0) [0.2; 0.8])) /\
    (~ Qabs (lo - hi) <= atol + rtol * Qabs hi ->
       normalize_probabilities [0.2; 0.8]
         = Ok (map (fun p => (p - lo) / (hi - lo)) [0.2; 0.8]) /\
       Forall (fun p =>
                 0 <= (p - lo) / (hi - lo) /\ (p - lo) / (hi - lo) <= 1 /\
                 (p == lo -> (p - lo) / (hi - lo) == 0) /\
                 (p == hi -> (p - lo) / (hi - lo) == 1)) [0.2; 0.8] /\
       (exists p, In p [0.2; 0.8] /\ p == lo) /\
       (exists p, In p [0.2; 0.8] /\ p == hi)).
Proof.
  apply (@normalize_probabilities_spec [0.2; 0.8]). discriminate.
Defined.

Lemma apply_risk_buckets_monotone_witness :
  (exists l1 l2 t1 t2,
     Buckets.apply_risk_buckets [0.5; 0.96] "upi" = Ok [l1; l2] /\
     Buckets.tier_of l1 = Some t1 /\ Buckets.tier_of l2 = Some t2 /\
     (Buckets.rank t1 <= Buckets.rank t2)%nat) /\
  (exists h m,
     Buckets.thresholds "upi" = Ok (h, m) /\
     Buckets.apply_risk_buckets [h; m] "upi"
       = Ok [Buckets.high_label; Buckets.medium_label]).
Proof.
  apply (@apply_risk_buckets_monotone "upi" 0.5 0.96);
    [left; reflexivity | reflexivity].
Defined.

(** An installation whose configuration declares a scaler that is not on
    disk. *)
Definition example_install : Install nat :=
  {| base_dir := "/srv/app";
     project_root := "/srv";
     path_exists := fun p => negb (String.eqb p "/srv/models/scaler_ae.pkl");
     model_paths := [("upi", [("xgb", "models/xgb.pkl");
                              ("scaler_ae", "models/scaler_ae.pkl")])];
     joblib_load := fun _ => Ok 0%nat;
     load_model := fun _ => Ok 1%nat |}.

Lemma load_models_all_or_nothing_witness :
  (exists msg,
     load_models example_install "upi" = Raise (FileNotFoundError msg) /\
     msg = missing_message
             (missing_files example_install
                [("xgb", "models/xgb.pkl"); ("scaler_ae", "models/scaler_ae.pkl")]) /\
     forall q,
       In q (map snd (abs_paths example_install
                        [("xgb", "models/xgb.pkl");
                         ("scaler_ae", "models/scaler_ae.pkl")])) ->
       path_exists example_install q = false -> occurs_in q msg) /\
  (forall sys' mode' bundle,
     @load_models nat sys' mode' = Ok bundle ->
     map fst bundle = bundle_roles /\
     exists paths',
       getitem mode' (model_paths sys') = Ok paths' /\
       forall q, In q (map snd (abs_paths sys' paths')) ->
                 path_exists sys' q = true).
Proof.
  apply (@load_models_all_or_nothing nat example_install "upi"
           [("xgb", "models/xgb.pkl"); ("scaler_ae", "models/scaler_ae.pkl")]
           "/srv/models/scaler_ae.pkl").
  - reflexivity.
  - reflexivity.
  - cbn. right. left. reflexivity.
  - reflexivity.
Defined.

(** Classifiers that answer a constant, and a scaler that changes nothing. *)
Definition example_models : list (string * Q) :=
  [("xgb", 0.9); ("rf", 0.8); ("lr", 0.7); ("scaler_lr", 0)].
Definition constant_proba (a : Q) (row : list value) : Q := a.
Definition identity_transform (a : Q) (row : list value) : list value := row.

Lemma predict_supervised_blend_witness :
  ("cdr" = "upi" \/ "cdr" = "cdr") /\
  exists p_final,
    predict_supervised example_log1p example_repr example_parse example_path
      constant_proba identity_transform example_models None one_voip_call
      "cdr" false = Ok p_final /\
    List.length p_final
      = nrows (cdr_features example_repr example_parse one_voip_call) /\
    forall i,
      (i < nrows (cdr_features example_repr example_parse one_voip_call))%nat ->
      nth i p_final 0
        == blend constant_proba identity_transform 0.9 0.8 0 0.7
             (row_at (cdr_features example_repr example_parse one_voip_call) i) /\
      Qabs (nth i p_final 0
            - blend constant_proba identity_transform 0.9 0.8 0 0.7
                (row_at (cdr_features example_repr example_parse one_voip_call) i))
        <= 0.000000001.
Proof.
  apply (@predict_supervised_blend example_log1p example_repr example_parse
           example_path Q
           constant_proba identity_transform example_models None one_voip_call
           (cdr_features example_repr example_parse one_voip_call) "cdr"
           0.9 0.8 0 0.7); reflexivity.
Defined.

Lemma unique_labels_one_voip_call : unique_labels one_voip_call.
Proof. unfold unique_labels. cbn. repeat constructor; cbn; intuition discriminate. Defined.

Lemma cdr_indicators_from_call_type_witness :
  exists out,
    prepare_cdr_features example_repr example_parse one_voip_call = Ok out /\
    (forall final name, In (final, name) final_dummies ->
       get_column final out
       = Ok (map (fun v => of_bool (String.eqb (clean_text example_repr v) name))
                 (raw_or one_voip_call "call_type" (VStr "")))) /\
    (forall df', unique_labels df' -> nrows df' = nrows one_voip_call ->
       lookup "call_type" (columns df') = lookup "call_type" (columns one_voip_call) ->
       exists out',
         prepare_cdr_features example_repr example_parse df' = Ok out' /\
         forall final name, In (final, name) final_dummies ->
           get_column final out' = get_column final out) /\
    (exists out2,
       prepare_cdr_features example_repr example_parse out = Ok out2 /\
       forall final name, In (final, name) final_dummies ->
         get_column final out2 = Ok (repeat zero (nrows one_voip_call))) /\
    (exists first second,
       prepare_cdr_features example_repr example_parse one_voip_call = Ok first /\
       prepare_cdr_features example_repr example_parse first = Ok second /\
       get_column "type_VoIP" first = Ok [of_bool true] /\
       get_column "type_voice" first = Ok [of_bool false] /\
       get_column "type_VoIP" second = Ok [of_bool false]).
Proof.
  apply (@cdr_indicators_from_call_type example_repr example_parse one_voip_call).
  exact unique_labels_one_voip_call.
Defined.

Lemma unique_labels_upi_pre_engineered : unique_labels upi_pre_engineered.
Proof. unfold unique_labels. cbn. repeat constructor; cbn; intuition discriminate. Defined.

(** A schema file with the schema of the other domain only. *)
Definition schema_without_key : yaml_mapping := [("cdr_features", final_cols)].

Lemma schema_file_only_fatal_condition_witness :
  (prepare_upi_features example_log1p example_repr example_path
     (Some schema_without_key) upi_pre_engineered
   = Raise (schema_missing example_path) <-> Some schema_without_key = None) /\
  (prepare_upi_features example_log1p example_repr example_path
     (Some schema_without_key) upi_pre_engineered
   = Raise (KeyError "upi_features")
   <-> exists doc, Some schema_without_key = Some doc /\
                   ~ In "upi_features" (map fst doc)) /\
  ((exists X, prepare_upi_features example_log1p example_repr example_path
                (Some schema_without_key) upi_pre_engineered = Ok X)
   <-> exists doc, Some schema_without_key = Some doc /\
                   In "upi_features" (map fst doc)) /\
  (forall e,
     prepare_upi_features example_log1p example_repr example_path
       (Some schema_without_key) upi_pre_engineered = Raise e ->
     e = schema_missing example_path \/ e = KeyError "upi_features") /\
  (forall calls : DataFrame,
     unique_labels calls ->
     exists out,
       prepare_cdr_features example_repr example_parse calls = Ok out /\
       forall c, In c (firstn 7 final_cols) ->
         exists col,
           get_column c out = Ok col /\
           (lookup c (columns calls) = None -> col = repeat zero (nrows calls)) /\
           Forall2 (fun v u => is_num u = true /\ is_missing u = false /\
                               (to_numeric example_parse v = NaN -> u = zero))
                   (raw_or calls c zero) col).
Proof.
  apply (@schema_file_only_fatal_condition example_log1p example_repr
           example_parse example_path (Some schema_without_key)
           upi_pre_engineered).
  - exact unique_labels_upi_pre_engineered.
  - reflexivity.
Defined.

(** C7 fails on a schema file without the key [upi_features]: the file is
    there, the table has distinct labels and numeric amounts, and the
    reconstructor raises [KeyError], which is not the file-not-found
    error. *)
Lemma upi_schema_key_missing_raises :
  unique_labels upi_pre_engineered /\
  numeric_inputs upi_pre_engineered = true /\
  prepare_upi_features example_log1p example_repr example_path
    (Some schema_without_key) upi_pre_engineered
  = Raise (KeyError "upi_features") /\
  prepare_upi_features example_log1p example_repr example_path
    (Some []) upi_pre_engineered
  = Raise (KeyError "upi_features") /\
  ~ KeyError "upi_features" = schema_missing example_path.
Proof.
  split; [exact unique_labels_upi_pre_engineered|].
  split; [reflexivity|]. split; [vm_compute; reflexivity|].
  split; [vm_compute; reflexivity | discriminate].
Qed.

Definition upi_schema : list string := ["amount"; "amount_log"; "type_CASH_IN"].

Definition upi_schema_file : yaml_mapping :=
  [("upi_features", upi_schema); ("cdr_features", final_cols)].

(** The first output for [upi_without_type] under [upi_schema]. *)
Definition upi_first_output : DataFrame :=
  Eval vm_compute in
    match prepare_upi_features example_log1p example_repr example_path
            (Some upi_schema_file) upi_without_type with
    | Ok X => X
    | Raise _ => mkDF 0 []
    end.

Lemma unique_labels_upi_without_type : unique_labels upi_without_type.
Proof. unfold unique_labels. cbn. repeat constructor; cbn; intuition discriminate. Defined.

Lemma unique_labels_upi_first_output : unique_labels upi_first_output.
Proof. unfold unique_labels. cbn. repeat constructor; cbn; intuition discriminate. Defined.

Lemma reconstruction_keeps_columns_witness :
  (exists X2,
     prepare_upi_features example_log1p example_repr example_path
       (Some upi_schema_file) upi_first_output = Ok X2 /\
     labels X2 = labels upi_first_output /\
     labels upi_first_output = upi_schema) /\
  (forall calls : DataFrame,
     unique_labels calls ->
     exists out out2,
       prepare_cdr_features example_repr example_parse calls = Ok out /\
       prepare_cdr_features example_repr example_parse out = Ok out2 /\
       labels out2 = labels out /\ labels out = final_cols).
Proof.
  apply (@reconstruction_keeps_columns example_log1p example_repr example_parse
           example_path upi_schema_file upi_schema upi_without_type
           upi_first_output).
  - exact unique_labels_upi_without_type.
  - reflexivity.
  - vm_compute. reflexivity.
  - exact unique_labels_upi_first_output.
  - cbn. intuition discriminate.
  - reflexivity.
Defined.

(** A raw table whose only column is a balance that holds a text. *)
Definition text_balance : DataFrame :=
  mkDF 1 [("oldbalanceOrg", [VStr "abc"])].

(** C9 fails for UPI on [text_balance] under the schema
    [oldbalanceOrg, newbalanceOrig]: the first application returns (the
    text is never computed with, as [newbalanceOrig] is absent), and the
    second application, which finds both balances, raises. *)
Lemma upi_second_application_raises :
  exists X1,
    prepare_upi_features example_log1p example_repr example_path
      (Some [("upi_features", ["oldbalanceOrg"; "newbalanceOrig"])]) text_balance
    = Ok X1 /\
    labels X1 = ["oldbalanceOrg"; "newbalanceOrig"] /\
    prepare_upi_features example_log1p example_repr example_path
      (Some [("upi_features", ["oldbalanceOrg"; "newbalanceOrig"])]) X1
    = Raise (TypeError "unsupported operand type: str").
Proof.
  eexists. split; [vm_compute; reflexivity|]. split; reflexivity.
Qed.

(** * Further properties of the code *)

(** ** Normalization: range, order and repeated application *)

Lemma nth_map_in {A B : Type} (f : A -> B) (l : list A) (i : nat) (a : A) (b : B) :
  (i < List.length l)%nat -> nth i (map f l) b = f (nth i l a).
Proof.
  intro H. rewrite (nth_indep (map f l) b (f a)) by (rewrite length_map; exact H).
  apply map_nth.
Qed.

(** What [normalize_probabilities] returns on a batch that is not empty:
    zero everywhere, or the rescaling between a minimum and a maximum that
    are apart. *)
Lemma normalize_cases (probs : list Q) :
  probs <> [] ->
  exists lo hi,
    (forall p, In p probs -> lo <= p /\ p <= hi) /\
    (exists p, In p probs /\ p == lo) /\
    (exists p, In p probs /\ p == hi) /\
    ((allclose lo hi = true /\
      normalize_probabilities probs = Ok (map (fun _ => 0) probs)) \/
     (allclose lo hi = false /\ lo < hi /\
      normalize_probabilities probs
        = Ok (map (fun p => (p - lo) / (hi - lo)) probs))).
Proof.
  intro Hne.
  destruct (np_min_max_spec Hne) as (lo & hi & Elo & Ehi & Hb & Hlo & Hhi).
  exists lo, hi. split; [exact Hb|]. split; [exact Hlo|]. split; [exact Hhi|].
  unfold normalize_probabilities. rewrite Elo, Ehi. cbn [bind].
  destruct (allclose lo hi) eqn:A; [left; auto|].
  right. split; [reflexivity|]. split; [|reflexivity].
  destruct Hlo as (a & Ia & Ea). destruct (Hb a Ia) as [_ U].
  destruct (Qlt_le_dec lo hi) as [|G]; [assumption|].
  exfalso. assert (C : allclose lo hi = true).
  { apply allclose_iff. assert (E : lo - hi == 0) by lra.
    rewrite E. apply close_to_itself. }
  congruence.
Qed.

(** X1.  [normalize_probabilities] raises on the empty batch, and only
    there; on any other batch it returns a vector of the same length whose
    entries all lie between 0 and 1. *)
Theorem normalize_probabilities_range (probs : list Q) :
  match probs with
  | [] => normalize_probabilities probs
          = Raise (ValueError
                     "zero-size array to reduction operation minimum which has no identity")
  | _ :: _ =>
      exists out,
        normalize_probabilities probs = Ok out /\
        List.length out = List.length probs /\
        Forall (fun y => 0 <= y /\ y <= 1) out
  end.
Proof.
  destruct probs as [|x r]; [reflexivity|].
  destruct (@normalize_cases (x :: r)) as (lo & hi & Hb & _ & _ & [[_ E] | (_ & Hlt & E)]);
    [discriminate | |]; rewrite E; eexists; (split; [reflexivity|]);
    (split; [apply length_map|]); apply Forall_forall; intros y Hy;
    apply in_map_iff in Hy; destruct Hy as (p & <- & Hp).
  - split; lra.
  - destruct (Hb p Hp) as [L U]. apply rescale_bounds; assumption.
Qed.

(** X2.  Normalization keeps the order of the records: a record whose
    probability is not above another's before is not above it after. *)
Theorem normalize_probabilities_monotone (probs out : list Q) (i j : nat) :
  normalize_probabilities probs = Ok out ->
  (i < List.length probs)%nat -> (j < List.length probs)%nat ->
  nth i probs 0 <= nth j probs 0 ->
  nth i out 0 <= nth j out 0.
Proof.
  intros E Hi Hj Hle.
  assert (Hne : probs <> []) by (intro; subst; cbn in Hi; lia).
  destruct (normalize_cases Hne) as (lo & hi & Hb & _ & _ & [[_ E'] | (_ & Hlt & E')]);
    rewrite E' in E; injection E as <-.
  - rewrite (nth_map_in _ _ 0 0 Hi), (nth_map_in _ _ 0 0 Hj). lra.
  - rewrite (nth_map_in _ _ 0 0 Hi), (nth_map_in _ _ 0 0 Hj).
    unfold Qdiv. apply Qmult_le_compat_r; [lra|].
    apply Qlt_le_weak, Qinv_lt_0_compat. lra.
Qed.

Lemma Forall2_map_same {A B : Type} (R : B -> A -> Prop) (f : A -> B) (l : list A) :
  (forall a, In a l -> R (f a) a) -> Forall2 R (map f l) l.
Proof.
  induction l as [|a l IH]; intro H; cbn [map]; constructor.
  - apply H. left. reflexivity.
  - apply IH. intros b Hb. apply H. right. exact Hb.
Qed.

(** X3.  Normalizing a normalized vector changes nothing: the second
    result equals the first entry by entry. *)
Theorem normalize_probabilities_idempotent (probs out : list Q) :
  normalize_probabilities probs = Ok out ->
  exists out2,
    normalize_probabilities out = Ok out2 /\ Forall2 Qeq out2 out.
Proof.
  intro E.
  assert (Hne : probs <> []) by (intro; subst; discriminate).
  assert (Hne' : forall g : Q -> Q, map g probs <> []).
  { intros g Hg. apply Hne. destruct probs; [reflexivity | discriminate]. }
  destruct (normalize_cases Hne)
    as (lo & hi & Hb & Hlo & Hhi & [[_ E'] | (_ & Hlt & E')]);
    rewrite E' in E; injection E as <-.
  - (* all zero: minimum and maximum coincide *)
    destruct (normalize_cases (Hne' (fun _ => 0)))
      as (lo2 & hi2 & Hb2 & Hlo2 & Hhi2 & [[_ E2] | (_ & Hlt2 & _)]).
    + rewrite E2. eexists. split; [reflexivity|].
      apply Forall2_map_same. intros y Hy. apply in_map_iff in Hy.
      destruct Hy as (p & <- & _). reflexivity.
    + exfalso. destruct Hlo2 as (a & Ia & Ea), Hhi2 as (b & Ib & Eb).
      apply in_map_iff in Ia, Ib.
      destruct Ia as (? & <- & _), Ib as (? & <- & _). lra.
  - set (f := fun p => (p - lo) / (hi - lo)) in *.
    assert (F0 : forall p, p == lo -> f p == 0)
      by (intros p Ep; unfold f; rewrite Ep; field; lra).
    assert (F1 : forall p, p == hi -> f p == 1)
      by (intros p Ep; unfold f; rewrite Ep; field; lra).
    assert (FB : forall y, In y (map f probs) -> 0 <= y /\ y <= 1).
    { intros y Hy. apply in_map_iff in Hy. destruct Hy as (p & <- & Hp).
      destruct (Hb p Hp). apply rescale_bounds; assumption. }
    destruct (normalize_cases (Hne' f))
      as (lo2 & hi2 & Hb2 & Hlo2 & Hhi2 & Hcase).
    assert (L0 : lo2 == 0).
    { destruct Hlo as (a & Ia & Ea). destruct Hlo2 as (y & Iy & Ey).
      destruct (Hb2 (f a) (in_map f _ _ Ia)) as [L _].
      rewrite (F0 a Ea) in L. destruct (FB y Iy). lra. }
    assert (H1 : hi2 == 1).
    { destruct Hhi as (a & Ia & Ea). destruct Hhi2 as (y & Iy & Ey).
      destruct (Hb2 (f a) (in_map f _ _ Ia)) as [_ U].
      rewrite (F1 a Ea) in U. destruct (FB y Iy). lra. }
    destruct Hcase as [[C _] | (_ & _ & E2)].
    + exfalso. apply allclose_iff in C. rewrite L0, H1 in C.
      apply Qle_bool_iff in C. vm_compute in C. discriminate.
    + rewrite E2. eexists. split; [reflexivity|].
      apply Forall2_map_same. intros y _. rewrite L0, H1. field.
Qed.

(** ** Normalization followed by bucketing *)

Section NormalizedBuckets.

Import Buckets.

Lemma categorize_respects_Qeq (h m p q : Q) :
  p == q -> categorize h m p = categorize h m q.
Proof.
  intro E. unfold categorize. rewrite (Qleb_comp h h (Qeq_refl h) p q E).
  rewrite (Qleb_comp m m (Qeq_refl m) p q E). reflexivity.
Qed.

Lemma thresholds_known (mode : string) :
  mode = "upi" \/ mode = "cdr" ->
  exists h m, thresholds mode = Ok (h, m) /\
              categorize h m 0 = low_label /\ categorize h m 1 = high_label.
Proof.
  intros [-> | ->]; do 2 eexists; repeat split; reflexivity.
Qed.

(** X4.  A batch whose scores are all equal, a single record in
    particular, is bucketed Low in every row once it is normalized, in
    both domains. *)
Theorem degenerate_batch_all_low (probs : list Q) (mode : string) :
  probs <> [] ->
  (forall p q, In p probs -> In q probs -> p == q) ->
  mode = "upi" \/ mode = "cdr" ->
  exists out,
    normalize_probabilities probs = Ok out /\
    apply_risk_buckets out mode = Ok (map (fun _ => low_label) probs).
Proof.
  intros Hne Hall Hmode.
  destruct (thresholds_known Hmode) as (h & m & Et & L0 & _).
  destruct (normalize_cases Hne)
    as (lo & hi & Hb & Hlo & Hhi & [[_ E] | (_ & Hlt & _)]).
  - rewrite E. eexists. split; [reflexivity|].
    unfold apply_risk_buckets. rewrite Et. cbn [bind fst snd].
    rewrite map_map. f_equal. apply map_ext. intros _. exact L0.
  - exfalso. destruct Hlo as (a & Ia & Ea), Hhi as (b & Ib & Eb).
    pose proof (Hall a b Ia Ib). lra.
Qed.

(** X5.  When normalization does not collapse the batch to zeros, every
    record with the greatest score is bucketed High and every record with
    the least score is bucketed Low, so both labels occur, in both
    domains. *)
Theorem spread_batch_has_high_and_low (probs out : list Q) (mode : string) :
  normalize_probabilities probs = Ok out ->
  (exists y, In y out /\ ~ y == 0) ->
  mode = "upi" \/ mode = "cdr" ->
  exists ls,
    apply_risk_buckets out mode = Ok ls /\
    In high_label ls /\ In low_label ls /\
    Forall2 (fun p l =>
               ((forall q, In q probs -> q <= p) -> l = high_label) /\
               ((forall q, In q probs -> p <= q) -> l = low_label))
            probs ls.
Proof.
  intros E (y & Iy & Hy) Hmode.
  destruct (thresholds_known Hmode) as (h & m & Et & L0 & L1).
  assert (Hne : probs <> []) by (intro; subst; discriminate).
  destruct (normalize_cases Hne)
    as (lo & hi & Hb & Hlo & Hhi & [[_ E'] | (_ & Hlt & E')]);
    rewrite E' in E; injection E as <-.
  - exfalso. apply in_map_iff in Iy. destruct Iy as (p & <- & _).
    apply Hy. reflexivity.
  - set (f := fun p => (p - lo) / (hi - lo)) in *.
    assert (F0 : forall p, p == lo -> categorize h m (f p) = low_label).
    { intros p Ep. rewrite <- L0. apply categorize_respects_Qeq.
      unfold f. rewrite Ep. field. lra. }
    assert (F1 : forall p, p == hi -> categorize h m (f p) = high_label).
    { intros p Ep. rewrite <- L1. apply categorize_respects_Qeq.
      unfold f. rewrite Ep. field. lra. }
    unfold apply_risk_buckets. rewrite Et. cbn [bind fst snd].
    eexists. split; [reflexivity|]. rewrite map_map.
    split; [|split].
    + destruct Hhi as (b & Ib & Eb). apply in_map_iff. exists b. auto.
    + destruct Hlo as (a & Ia & Ea). apply in_map_iff. exists a. auto.
    + assert (G : forall l, (forall p, In p l -> In p probs) ->
                Forall2 (fun p lab =>
                           ((forall q, In q probs -> q <= p) -> lab = high_label) /\
                           ((forall q, In q probs -> p <= q) -> lab = low_label))
                        l (map (fun x => categorize h m (f x)) l));
        [|apply G; auto].
      induction l as [|p l IH]; intro Hsub; cbn [map]; constructor.
      * assert (Ip : In p probs) by (apply Hsub; left; reflexivity).
        destruct (Hb p Ip) as [L U]. split; intro H.
        -- apply F1. destruct Hhi as (b & Ib & Eb). specialize (H b Ib). lra.
        -- apply F0. destruct Hlo as (a & Ia & Ea). specialize (H a Ia). lra.
      * apply IH. intros q Hq. apply Hsub. right. exact Hq.
Qed.


End NormalizedBuckets.

(** ** Loading and scoring together *)

Lemma getitem_key {A : Type} (k : string) (d : list (string * A)) :
  In k (map fst d) -> exists a, getitem k d = Ok a.
Proof.
  induction d as [|[l a] r IH]; cbn [map fst In getitem]; [tauto|].
  intros [-> | H].
  - rewrite String.eqb_refl. eauto.
  - destruct (String.eqb l k); eauto.
Qed.

Section LoaderMore.

Variable artifact : Type.

(** X7.  [load_models] returns a bundle exactly when the configuration
    file exists, declares the mode, no declared file is missing, the eight
    roles are declared and their loaders succeed; the bundle then holds,
    under the roles xgb, rf, lr, iso, ae, scaler_lr, scaler_iso and
    scaler_ae, what was loaded from the paths declared under xgb, rf,
    lr_meta, iso, ae, scaler_lr, scaler_iso and scaler_ae. *)
Theorem load_models_returns_iff (sys : Install artifact) (mode : string)
    (bundle : list (string * artifact)) :
  load_models sys mode = Ok bundle <->
  exists paths,
    path_exists sys (config_path sys) = true /\
    getitem mode (model_paths sys) = Ok paths /\
    missing_files sys paths = [] /\
    exists xgb rf lr iso ae scaler_lr scaler_iso scaler_ae,
      (p <- getitem "xgb" (abs_paths sys paths) ;; joblib_load sys p) = Ok xgb /\
      (p <- getitem "rf" (abs_paths sys paths) ;; joblib_load sys p) = Ok rf /\
      (p <- getitem "lr_meta" (abs_paths sys paths) ;; joblib_load sys p) = Ok lr /\
      (p <- getitem "iso" (abs_paths sys paths) ;; joblib_load sys p) = Ok iso /\
      (p <- getitem "ae" (abs_paths sys paths) ;; load_model sys p) = Ok ae /\
      (p <- getitem "scaler_lr" (abs_paths sys paths) ;; joblib_load sys p)
        = Ok scaler_lr /\
      (p <- getitem "scaler_iso" (abs_paths sys paths) ;; joblib_load sys p)
        = Ok scaler_iso /\
      (p <- getitem "scaler_ae" (abs_paths sys paths) ;; joblib_load sys p)
        = Ok scaler_ae /\
      bundle = [("xgb", xgb); ("rf", rf); ("lr", lr); ("iso", iso); ("ae", ae);
                ("scaler_lr", scaler_lr); ("scaler_iso", scaler_iso);
                ("scaler_ae", scaler_ae)].
Proof.
  unfold load_models. split.
  - intro H.
    destruct (path_exists sys (config_path sys)); cbn [negb] in H; [|discriminate].
    destruct (getitem mode (model_paths sys)) as [paths|e];
      cbn [bind] in H; [|discriminate].
    exists paths. split; [reflexivity|]. split; [reflexivity|].
    destruct (missing_files sys paths); [|discriminate].
    split; [reflexivity|].
    repeat match type of H with
           | bind ?r _ = Ok _ =>
               let a := fresh "a" in
               destruct r as [a|] eqn:?; cbn [bind] in H; [|discriminate H]
           end.
    injection H as <-. do 8 eexists. repeat split; reflexivity.
  - intros (paths & Hc & Hp & Hm & xgb & rf & lr & iso & ae & s1 & s2 & s3 &
            E1 & E2 & E3 & E4 & E5 & E6 & E7 & E8 & ->).
    rewrite Hc, Hp. cbn [negb bind]. rewrite Hm, E1, E2, E3, E4, E5, E6, E7, E8.
    reflexivity.
Qed.

(** X8.  Without the configuration file the loader raises
    [FileNotFoundError] naming the configuration path, whatever the mode;
    with the file but a mode it does not declare, it raises [KeyError] for
    that mode, whatever files exist. *)
Theorem load_models_configuration_errors (sys : Install artifact) (mode : string) :
  (path_exists sys (config_path sys) = false ->
   load_models sys mode
   = Raise (FileNotFoundError ("❌ Config file not found: " ++ config_path sys))) /\
  (path_exists sys (config_path sys) = true ->
   ~ In mode (map fst (model_paths sys)) ->
   load_models sys mode = Raise (KeyError mode)).
Proof.
  unfold load_models. split.
  - intros ->. reflexivity.
  - intros -> Hm. cbn [negb].
    assert (E : getitem mode (model_paths sys) = Raise (KeyError mode)).
    { induction (model_paths sys) as [|[l a] r IH]; cbn [getitem]; [reflexivity|].
      destruct (String.eqb l mode) eqn:El.
      - apply String.eqb_eq in El. exfalso. apply Hm. left. exact El.
      - apply IH. intro H. apply Hm. right. exact H. }
    rewrite E. reflexivity.
Qed.

End LoaderMore.

(** A batch that is not empty normalizes to a vector of its length with
    entries between 0 and 1. *)
Lemma normalize_nonempty (probs : list Q) :
  probs <> [] ->
  exists out,
    normalize_probabilities probs = Ok out /\
    List.length out = List.length probs /\
    Forall (fun y => 0 <= y /\ y <= 1) out.
Proof.
  intro Hne.
  destruct (normalize_cases Hne) as (lo & hi & Hb & _ & _ & [[_ E] | (_ & Hlt & E)]);
    rewrite E; eexists; (split; [reflexivity|]);
    (split; [apply length_map|]); apply Forall_forall; intros y Hy;
    apply in_map_iff in Hy; destruct Hy as (p & <- & Hp).
  - split; lra.
  - destruct (Hb p Hp) as [L U]. apply rescale_bounds; assumption.
Qed.

Section ScoringMore.

Variable log1p_finite : Q -> Q.
Variable num_repr : Q -> string.
Variable parse_number : string -> option num.
Variable feature_order_path : string.
Variable artifact : Type.
Variable predict_proba : artifact -> list value -> Q.
Variable transform : artifact -> list value -> list value.

Local Notation "'reconstruct'" :=
  (features log1p_finite num_repr parse_number feature_order_path)
  (only parsing).
Local Notation "'score'" :=
  (predict_supervised log1p_finite num_repr parse_number feature_order_path
     predict_proba transform)
  (only parsing).

(** With the four roles at hand, the blended vector has one entry per row
    of the feature table. *)
Lemma predict_supervised_unnormalized (models : list (string * artifact))
    (feature_order : option yaml_mapping) (df_raw X : DataFrame) (mode : string) :
  reconstruct feature_order mode df_raw = Ok X ->
  In "xgb" (map fst models) -> In "rf" (map fst models) ->
  In "scaler_lr" (map fst models) -> In "lr" (map fst models) ->
  exists p,
    score models feature_order df_raw mode false = Ok p /\
    List.length p = nrows X /\
    score models feature_order df_raw mode true = normalize_probabilities p.
Proof.
  intros HX H1 H2 H3 H4.
  destruct (getitem_key _ _ H1) as (a1 & E1). destruct (getitem_key _ _ H2) as (a2 & E2).
  destruct (getitem_key _ _ H3) as (a3 & E3). destruct (getitem_key _ _ H4) as (a4 & E4).
  unfold predict_supervised. rewrite HX, E1, E2, E3, E4. cbn [bind].
  eexists. split; [reflexivity|]. split; [|reflexivity].
  rewrite length_map, length_combine, length_map, length_combine, !length_map,
    rows_length. lia.
Qed.


End ScoringMore.

(** ** The CDR reconstructor: ranges, one-hot indicators, repeated use *)

Lemma clip_hour_range (n : num) :
  Float.isnan n = false ->
  exists q, Float.clip 0 23 n = Fin q /\ 0 <= q /\ q <= 23.
Proof.
  destruct n as [q|[|]|]; cbn [Float.clip Float.isnan]; intro H;
    [| eexists; split; [reflexivity | lra] ..| discriminate].
  unfold Qltb. destruct (Qle_bool 0 q) eqn:E0; cbn [negb].
  - destruct (Qle_bool q 23) eqn:E1; cbn [negb].
    + apply Qle_bool_iff in E0, E1. eexists. split; [reflexivity | lra].
    + eexists. split; [reflexivity | lra].
  - eexists. split; [reflexivity | lra].
Qed.

Lemma clip_hour_idempotent (n : num) :
  Float.clip 0 23 (Float.clip 0 23 n) = Float.clip 0 23 n.
Proof.
  destruct n as [q|[|]|]; cbn [Float.clip]; try reflexivity.
  unfold Qltb. destruct (Qle_bool 0 q) eqn:E0; cbn [negb].
  - destruct (Qle_bool q 23) eqn:E1; cbn [negb Float.clip]; unfold Qltb.
    + rewrite E0, E1. reflexivity.
    + reflexivity.
  - reflexivity.
Qed.

Lemma fillna_idempotent (n : num) :
  Float.fillna (Fin 0) (Float.fillna (Fin 0) n) = Float.fillna (Fin 0) n.
Proof. destruct n; reflexivity. Qed.

Lemma fillna_clip (n : num) :
  Float.fillna (Fin 0) (Float.clip 0 23 (Float.fillna (Fin 0) n))
  = Float.clip 0 23 (Float.fillna (Fin 0) n).
Proof.
  destruct (@clip_hour_range (Float.fillna (Fin 0) n) (fillna_not_nan n))
    as (q & -> & _). reflexivity.
Qed.

(** Every column of the table has as many cells as the table has rows. *)
Definition rectangular (df : DataFrame) : Prop :=
  forall c s, In (c, s) (columns df) -> List.length s = nrows df.

Lemma lookup_In (c : string) (cols : list (string * series)) (s : series) :
  lookup c cols = Some s -> In (c, s) cols.
Proof.
  induction cols as [|[l t] r IH]; cbn [lookup In]; [discriminate|].
  destruct (String.eqb l c) eqn:E.
  - apply String.eqb_eq in E. intro H. injection H as <-. subst. auto.
  - auto.
Qed.

Lemma raw_or_rectangular (df : DataFrame) (c : string) (d : value) :
  rectangular df -> List.length (raw_or df c d) = nrows df.
Proof.
  intro H. unfold raw_or. destruct (lookup c (columns df)) eqn:E.
  - apply (H c). apply lookup_In. exact E.
  - apply repeat_length.
Qed.

Section CdrMore.

Variable num_repr : Q -> string.
Variable parse_number : string -> option num.

Local Notation "'prepare_cdr'" := (prepare_cdr_features num_repr parse_number)
  (only parsing).
Local Notation "'closed_form'" := (cdr_features num_repr parse_number)
  (only parsing).

Lemma cdr_columns_cases (df : DataFrame) (c : string) (s : series) :
  In (c, s) (columns (closed_form df)) ->
  (exists k, s = numeric_feature parse_number df k) \/
  s = hour_feature parse_number df \/
  (exists name, s = type_feature num_repr df name).
Proof.
  cbn [columns cdr_features In].
  intros [H|[H|[H|[H|[H|[H|[H|[H|[H|[H|[H|[]]]]]]]]]]]]; injection H as <- <-; eauto.
Qed.

(** X10.  Whatever the raw table holds, the reconstructed call table has
    the rows of the input, its hour of the day lies between 0 and 23 in
    every row, and every cell of every column is a number, never NaN and
    never a text; on a table whose columns have one cell per row, so has
    the result. *)
Theorem cdr_features_are_clean (df : DataFrame) :
  unique_labels df ->
  exists out,
    prepare_cdr df = Ok out /\
    nrows out = nrows df /\
    (exists hours,
       get_column "call_hour" out = Ok hours /\
       Forall (fun v => exists q, v = VNum (Fin q) /\ 0 <= q /\ q <= 23) hours) /\
    (forall c s, In (c, s) (columns out) ->
       Forall (fun v => is_num v = true /\ is_missing v = false) s) /\
    (rectangular df -> rectangular out).
Proof.
  intros _. exists (closed_form df).
  split; [apply prepare_cdr_features_closed|]. split; [reflexivity|].
  split; [|split].
  - eexists. split; [reflexivity|].
    unfold hour_feature. apply Forall_forall. intros v Hv.
    apply in_map_iff in Hv. destruct Hv as (w & <- & _).
    destruct (@clip_hour_range (Float.fillna (Fin 0) (to_numeric parse_number w))
                (fillna_not_nan _)) as (q & -> & Hq).
    exists q. auto.
  - intros c s Hin.
    destruct (@cdr_columns_cases df c s Hin) as [(k & ->) | [-> | (name & ->)]];
      apply Forall_forall; intros v Hv.
    + pose proof (numeric_feature_cells parse_number df k) as F.
      rewrite Forall_forall in F. destruct (F v Hv) as [_ M].
      split; [|exact M]. unfold numeric_feature in Hv.
      apply in_map_iff in Hv. destruct Hv as (w & <- & _). reflexivity.
    + pose proof (hour_feature_cells parse_number df) as F.
      rewrite Forall_forall in F. destruct (F v Hv) as [_ M].
      split; [|exact M]. unfold hour_feature in Hv.
      apply in_map_iff in Hv. destruct Hv as (w & <- & _). reflexivity.
    + pose proof (type_feature_cells num_repr df name) as F.
      rewrite Forall_forall in F. destruct (F v Hv) as [_ M].
      split; [|exact M]. unfold type_feature in Hv.
      apply in_map_iff in Hv. destruct Hv as (w & <- & _). reflexivity.
  - intros R c s Hin. cbn [nrows cdr_features].
    destruct (@cdr_columns_cases df c s Hin) as [(k & ->) | [-> | (name & ->)]];
      unfold numeric_feature, hour_feature, type_feature;
      rewrite length_map; apply raw_or_rectangular; exact R.
Qed.

(** X11.  The four call type indicators are one-hot: in no row are two of
    them 1, and an indicator is 1 in a row exactly when the cleaned call
    type of that row is the name of its category. *)
Theorem cdr_indicators_one_hot (df : DataFrame) :
  unique_labels df ->
  exists out,
    prepare_cdr df = Ok out /\
    forall final1 name1 final2 name2 col1 col2 i,
      In (final1, name1) final_dummies -> In (final2, name2) final_dummies ->
      get_column final1 out = Ok col1 -> get_column final2 out = Ok col2 ->
      (nth i col1 zero = of_bool true <->
       exists v, nth_error (raw_or df "call_type" (VStr "")) i = Some v /\
                 clean_text num_repr v = name1) /\
      (nth i col1 zero = of_bool true -> nth i col2 zero = of_bool true ->
       final1 = final2).
Proof.
  intros _. exists (closed_form df).
  split; [apply prepare_cdr_features_closed|].
  assert (G : forall final name col,
            In (final, name) final_dummies ->
            get_column final (closed_form df) = Ok col ->
            col = type_feature num_repr df name).
  { intros final name col Hin Hg. cbn in Hin.
    destruct Hin as [H|[H|[H|[H|[]]]]]; injection H as <- <-;
      cbn in Hg; injection Hg as <-; reflexivity. }
  assert (N : forall name i,
            nth i (type_feature num_repr df name) zero = of_bool true <->
            exists v, nth_error (raw_or df "call_type" (VStr "")) i = Some v /\
                      clean_text num_repr v = name).
  { intros name i. unfold type_feature.
    generalize (raw_or df "call_type" (VStr "")) as l.
    intro l. revert i. induction l as [|w l IH]; intro i.
    - destruct i; cbn; split; [discriminate | intros (v & H & _); discriminate
                              | discriminate | intros (v & H & _); discriminate].
    - destruct i as [|i]; cbn [map nth nth_error].
      + split.
        * intro H. exists w. split; [reflexivity|].
          destruct (String.eqb (clean_text num_repr w) name) eqn:E;
            [apply String.eqb_eq; exact E | discriminate H].
        * intros (v & Hv & Ev). injection Hv as <-.
          apply String.eqb_eq in Ev. rewrite Ev. reflexivity.
      + apply IH. }
  intros final1 name1 final2 name2 col1 col2 i H1 H2 G1 G2.
  rewrite (G _ _ _ H1 G1), (G _ _ _ H2 G2). split; [apply N|].
  intros A B. apply N in A, B.
  destruct A as (v & Hv & Ev), B as (v' & Hv' & Ev').
  rewrite Hv in Hv'. injection Hv' as <-. rewrite Ev in Ev'. subst name2.
  cbn in H1, H2.
  destruct H1 as [H1|[H1|[H1|[H1|[]]]]]; injection H1 as <- <-;
    destruct H2 as [H2|[H2|[H2|[H2|[]]]]]; injection H2 as <-;
    try reflexivity; intros; discriminate.
Qed.

(** X12.  On the seven numeric columns reconstruction is idempotent in
    value: applying the reconstructor to its own output leaves each of
    them unchanged. *)
Theorem cdr_numeric_columns_idempotent (df : DataFrame) :
  unique_labels df ->
  exists out out2,
    prepare_cdr df = Ok out /\ prepare_cdr out = Ok out2 /\
    forall c, In c (firstn 7 final_cols) -> get_column c out2 = get_column c out.
Proof.
  intros _. exists (closed_form df), (closed_form (closed_form df)).
  split; [apply prepare_cdr_features_closed|].
  split; [apply prepare_cdr_features_closed|].
  assert (M : forall s : series,
            map (fun v => VNum (Float.fillna (Fin 0) (to_numeric parse_number v)))
                (map (fun v => VNum (Float.fillna (Fin 0) (to_numeric parse_number v))) s)
            = map (fun v => VNum (Float.fillna (Fin 0) (to_numeric parse_number v))) s).
  { intro s. rewrite map_map. apply map_ext. intro v. cbn [to_numeric].
    rewrite fillna_idempotent. reflexivity. }
  assert (H : forall s : series,
            map (fun v => VNum (Float.clip 0 23
                                  (Float.fillna (Fin 0) (to_numeric parse_number v))))
                (map (fun v => VNum (Float.clip 0 23
                                       (Float.fillna (Fin 0) (to_numeric parse_number v)))) s)
            = map (fun v => VNum (Float.clip 0 23
                                    (Float.fillna (Fin 0) (to_numeric parse_number v)))) s).
  { intro s. rewrite map_map. apply map_ext. intro v. cbn [to_numeric].
    rewrite fillna_clip, clip_hour_idempotent. reflexivity. }
  intros c Hc. cbn in Hc.
  destruct Hc as [<-|[<-|[<-|[<-|[<-|[<-|[<-|[]]]]]]]];
    unfold get_column;
    cbn [lookup columns cdr_features String.eqb Ascii.eqb Bool.eqb];
    f_equal; unfold numeric_feature, hour_feature, raw_or;
    cbn [lookup columns cdr_features String.eqb Ascii.eqb Bool.eqb];
    first [apply M | apply H].
Qed.




End CdrMore.

(** ** The UPI reconstructor: what reaches the output *)

(** The columns the core transformations write. *)
Definition core_targets : list string :=
  ["amount_log"; "orig_balance_change"; "dest_balance_change";
   "balance_mismatch_orig"; "balance_mismatch_dest"; "orig_zero_but_amount";
   "dest_zero_but_amount"; "orig_balance_ratio"; "dest_balance_ratio"].

(** [df'] has the rows of [df] and the same column under every label
    outside [ts]. *)
Definition same_outside (ts : list string) (df df' : DataFrame) : Prop :=
  nrows df' = nrows df /\
  forall c, ~ In c ts -> lookup c (columns df') = lookup c (columns df).

Lemma same_outside_refl (ts : list string) (df : DataFrame) : same_outside ts df df.
Proof. split; auto. Qed.

Lemma same_outside_trans (ts : list string) (a b c : DataFrame) :
  same_outside ts a b -> same_outside ts b c -> same_outside ts a c.
Proof.
  intros [N1 L1] [N2 L2]. split; [congruence|].
  intros k Hk. rewrite (L2 k Hk). apply L1. exact Hk.
Qed.

Lemma same_outside_set_column (ts : list string) (t : string) (r : series)
    (df : DataFrame) :
  In t ts -> same_outside ts df (set_column t r df).
Proof.
  intro Ht. split; [apply nrows_set_column|].
  intros c Hc. rewrite lookup_set_column.
  destruct (String.eqb t c) eqn:E; [|reflexivity].
  apply String.eqb_eq in E. subst. contradiction.
Qed.

Lemma when_assign1_outside (ts : list string) (cond : bool) (t src : string)
    (f : value -> result value) (df df' : DataFrame) :
  In t ts -> when cond (assign1 t src f) df = Ok df' -> same_outside ts df df'.
Proof.
  intros Ht. unfold when, assign1. destruct cond.
  - destruct (get_column src df); cbn [bind]; [|discriminate].
    destruct (series_map f a); cbn [bind]; [|discriminate].
    intro H. injection H as <-. apply same_outside_set_column. exact Ht.
  - intro H. injection H as <-. apply same_outside_refl.
Qed.

Lemma when_assign2_outside (ts : list string) (cond : bool) (t a b : string)
    (f : value -> value -> result value) (df df' : DataFrame) :
  In t ts -> when cond (assign2 t a b f) df = Ok df' -> same_outside ts df df'.
Proof.
  intros Ht. unfold when, assign2. destruct cond.
  - destruct (get_column a df); cbn [bind]; [|discriminate].
    destruct (get_column b df); cbn [bind]; [|discriminate].
    destruct (series_zip f a0 a1); cbn [bind]; [|discriminate].
    intro H. injection H as <-. apply same_outside_set_column. exact Ht.
  - intro H. injection H as <-. apply same_outside_refl.
Qed.

Lemma select_columns_In (names : list string) (cols out : list (string * series)) :
  select_columns names cols = Ok out ->
  (forall p, In p out -> In p cols /\ In (fst p) names) /\
  (forall n, In n names -> In n (map fst out)).
Proof.
  revert out. induction names as [|n r IH]; intros out E.
  - injection E as <-. split; [intros p [] | intros n []].
  - cbn [select_columns] in E.
    pose proof (filter_label_labels n cols) as L.
    destruct (filter (fun p => String.eqb (fst p) n) cols) as [|p0 m] eqn:F;
      [discriminate|].
    destruct (select_columns r cols) as [rest|e]; [|discriminate].
    cbn [bind] in E. injection E as <-.
    destruct (IH rest eq_refl) as [I1 I2]. split.
    + intros p Hp. change (In p ((p0 :: m) ++ rest)%list) in Hp.
      apply in_app_iff in Hp. destruct Hp as [Hp | Hp].
      * rewrite <- F in Hp. apply filter_In in Hp. destruct Hp as [Hp Ep].
        apply String.eqb_eq in Ep. split; [exact Hp | left; auto].
      * destruct (I1 p Hp). split; [assumption | right; assumption].
    + intros k Hk. change (In k (map fst ((p0 :: m) ++ rest)%list)).
      rewrite map_app. apply in_app_iff. destruct Hk as [<- | Hk].
      * left. rewrite L. left. reflexivity.
      * right. apply I2. exact Hk.
Qed.

Lemma In_add_missing (names : list string) (v : value) (d : DataFrame)
    (c : string) (s : series) :
  In (c, s) (columns (add_missing names v d)) ->
  In (c, s) (columns d) \/ s = repeat v (nrows d).
Proof.
  unfold add_missing. revert d.
  induction names as [|n r IH]; intros d H; cbn [fold_left] in H; [left; exact H|].
  destruct (has_column n d) eqn:E; [apply IH; exact H|].
  destruct (IH _ H) as [Hin | Hs].
  - unfold set_scalar, set_column in Hin. rewrite E in Hin. cbn [columns] in Hin.
    apply in_app_iff in Hin. destruct Hin as [Hin | [Hin | []]]; [left; exact Hin|].
    right. injection Hin as _ <-. reflexivity.
  - right. unfold set_scalar in Hs. rewrite nrows_set_column in Hs. exact Hs.
Qed.

Lemma nrows_add_missing (names : list string) (v : value) (d : DataFrame) :
  nrows (add_missing names v d) = nrows d.
Proof.
  unfold add_missing. revert d.
  induction names as [|n r IH]; intro d; cbn [fold_left]; [reflexivity|].
  rewrite IH. destruct (has_column n d); [reflexivity|]. apply nrows_set_column.
Qed.

Lemma nrows_drop (names : list string) (d : DataFrame) :
  nrows (drop_columns names d) = nrows d.
Proof. reflexivity. Qed.

(** [df[names]] has the rows of [df], every label of [names] and no other,
    and only columns of [df]. *)
Lemma select_spec (names : list string) (df X : DataFrame) :
  select names df = Ok X ->
  nrows X = nrows df /\
  (forall c, In c (labels X) <-> In c names) /\
  (forall p, In p (columns X) -> In p (columns df)).
Proof.
  unfold select.
  destruct (select_columns names (columns df)) as [cols|] eqn:S; cbn [bind];
    [|discriminate].
  intro H. injection H as <-. destruct (select_columns_In _ _ S) as [I1 I2].
  split; [reflexivity|]. split.
  - intro c. unfold labels. cbn [columns]. split; [|apply I2].
    intro Hc. apply in_map_iff in Hc. destruct Hc as (p & <- & Hp).
    destruct (I1 p Hp) as [_ Hn]. exact Hn.
  - intros p Hp. cbn [columns] in Hp. destruct (I1 p Hp) as [Hin _]. exact Hin.
Qed.

Section UpiMore.

Variable log1p_finite : Q -> Q.
Variable num_repr : Q -> string.
Variable feature_order_path : string.

Local Notation "'prepare_upi'" :=
  (prepare_upi_features log1p_finite num_repr feature_order_path)
  (only parsing).

Lemma core_transformations_outside (df df' : DataFrame) :
  core_transformations log1p_finite df = Ok df' ->
  same_outside core_targets df df'.
Proof.
  unfold core_transformations. intro H.
  repeat match type of H with
         | bind ?r _ = Ok _ =>
             let d := fresh "d" in
             let E := fresh "E" in
             destruct r as [d|] eqn:E; cbn [bind] in H; [|discriminate H]
         end.
  apply when_assign1_outside with (ts := core_targets) in E; [|cbn; tauto].
  repeat match goal with
         | E' : when _ (assign2 _ _ _ _) _ = Ok _ |- _ =>
             apply when_assign2_outside with (ts := core_targets) in E';
             [|cbn; tauto]
         end.
  repeat (eapply same_outside_trans; [eassumption|]).
  first [eassumption | apply same_outside_refl].
Qed.

Lemma type_dummies_outside (df df' : DataFrame) :
  type_dummies num_repr df = Ok df' -> same_outside expected_types df df'.
Proof.
  unfold type_dummies. destruct (has_column "type" df).
  - destruct (get_column "type" df) as [t|]; cbn [bind]; [|discriminate].
    destruct (select expected_types
                (add_missing expected_types zero (get_dummies num_repr t "type")))
      as [sel|] eqn:S; cbn [bind]; [|discriminate].
    intro H. injection H as <-. split; [reflexivity|].
    intros c Hc. unfold concat_columns. cbn [columns]. rewrite lookup_app.
    destruct (lookup c (columns df)); [reflexivity|].
    apply lookup_None_labels. intro Hin.
    unfold select in S.
    destruct (select_columns expected_types _) as [cols|] eqn:S'; [|discriminate].
    cbn [bind] in S. injection S as <-. cbn [columns] in Hin.
    apply in_map_iff in Hin. destruct Hin as (p & Ep & Hp).
    destruct (select_columns_In _ _ S') as [I _].
    destruct (I p Hp) as [_ Hn]. rewrite Ep in Hn. contradiction.
  - intro H.
    replace df' with (add_missing expected_types zero df) by congruence.
    split; [apply nrows_add_missing|].
    intros c Hc. rewrite lookup_add_missing.
    destruct (lookup c (columns df)); [reflexivity|].
    apply mem_false in Hc. rewrite Hc. reflexivity.
Qed.

(** The steps of [prepare_upi_features], named. *)
Lemma prepare_upi_features_steps (doc : yaml_mapping) (df X : DataFrame) :
  prepare_upi (Some doc) df = Ok X ->
  exists d1 d2 training_order,
    core_transformations log1p_finite (drop_columns label_columns df) = Ok d1 /\
    type_dummies num_repr d1 = Ok d2 /\
    getitem "upi_features" doc = Ok training_order /\
    select training_order
      (add_missing training_order zero
         (drop_columns unnecessary_columns
            (add_missing placeholder_cols zero d2))) = Ok X.
Proof.
  unfold prepare_upi_features. intro H.
  destruct (core_transformations log1p_finite (drop_columns label_columns df))
    as [d1|] eqn:E1; cbn [bind] in H; [|discriminate].
  destruct (type_dummies num_repr d1) as [d2|] eqn:E2; cbn [bind] in H;
    [|discriminate].
  destruct (getitem "upi_features" doc) as [training_order|] eqn:E3;
    cbn [bind] in H; [|discriminate].
  exists d1, d2, training_order.
  split; [reflexivity|]. split; [exact E2|]. split; [reflexivity | exact H].
Qed.

(** X14.  Whatever the raw table, a result of the UPI reconstructor has
    the rows of the input and, as a set, exactly the labels of the schema
    the file holds: no other column reaches the output and no schema
    column is missing. *)
Theorem upi_labels_are_the_schema (doc : yaml_mapping) (df X : DataFrame) :
  prepare_upi (Some doc) df = Ok X ->
  exists training_order,
    getitem "upi_features" doc = Ok training_order /\
    nrows X = nrows df /\
    forall c, In c (labels X) <-> In c training_order.
Proof.
  intro H.
  destruct (prepare_upi_features_steps _ _ H)
    as (d1 & d2 & training_order & E1 & E2 & Hdoc & E3).
  exists training_order. split; [exact Hdoc|].
  destruct (type_dummies_outside _ E2) as [N2 _].
  destruct (core_transformations_outside _ E1) as [N1 _].
  destruct (select_spec _ _ E3) as (N3 & L3 & _).
  split; [|exact L3].
  rewrite N3, nrows_add_missing, nrows_drop, nrows_add_missing, N2, N1.
  apply nrows_drop.
Qed.

(** X15.  The label columns and the dropped identifier columns never carry
    raw values into the output: a column of the result that bears one of
    their names (because the schema lists it) is zero in every row. *)
Theorem upi_dropped_columns_do_not_leak (doc : yaml_mapping)
    (df X : DataFrame) (c : string) (s : series) :
  prepare_upi (Some doc) df = Ok X ->
  In c (label_columns ++ unnecessary_columns) ->
  In (c, s) (columns X) ->
  s = repeat zero (nrows df).
Proof.
  intros H Hc Hin.
  destruct (prepare_upi_features_steps _ _ H)
    as (d1 & d2 & training_order & E1 & E2 & Hdoc & E3).
  destruct (core_transformations_outside _ E1) as [N1 L1].
  destruct (type_dummies_outside _ E2) as [N2 L2].
  destruct (select_spec _ _ E3) as (_ & _ & I3).
  assert (Hcases : mem c unnecessary_columns = true \/
                   (mem c unnecessary_columns = false /\
                    mem c label_columns = true /\
                    mem c placeholder_cols = false /\
                    ~ In c expected_types /\ ~ In c core_targets)).
  { destruct (mem c unnecessary_columns) eqn:M; [left; reflexivity | right].
    split; [reflexivity|].
    apply in_app_iff in Hc. destruct Hc as [Hc | Hc].
    - cbn in Hc. destruct Hc as [<- | [<- | []]];
        (split; [reflexivity|]); (split; [reflexivity|]);
        split; cbn; intuition discriminate.
    - apply mem_In in Hc. congruence. }
  assert (L4 : lookup c (columns (drop_columns unnecessary_columns
                                    (add_missing placeholder_cols zero d2)))
               = None).
  { rewrite lookup_drop.
    destruct Hcases as [-> | (-> & Ml & Mp & He & Hk)]; [reflexivity|].
    rewrite lookup_add_missing, (L2 c He), (L1 c Hk), lookup_drop, Ml, Mp.
    reflexivity. }
  destruct (In_add_missing _ _ _ _ _ (I3 _ Hin)) as [Hd | ->].
  - exfalso. apply lookup_None_labels in L4. apply L4.
    apply in_map_iff. exists (c, s). split; [reflexivity | exact Hd].
  - rewrite nrows_drop, nrows_add_missing, N2, N1. rewrite nrows_drop.
    reflexivity.
Qed.

Lemma series_map_text (f : num -> num) (s : series) :
  all_num s = false ->
  series_map (lift1 f) s = Raise (TypeError "unsupported operand type: str").
Proof.
  induction s as [|v s IH]; cbn [all_num forallb series_map]; [discriminate|].
  destruct v as [n|t]; cbn [is_num andb lift1 num_of bind]; [|reflexivity].
  intro H. rewrite (IH H). reflexivity.
Qed.

(** X16.  The UPI reconstructor does not coerce: an [amount] column with a
    text cell makes it raise [TypeError], and it does so before it looks
    for the schema file, so even an absent schema is not reported. *)
Theorem upi_text_amount_raises (feature_order : option yaml_mapping)
    (df : DataFrame) (s : series) :
  lookup "amount" (columns df) = Some s ->
  all_num s = false ->
  prepare_upi feature_order df = Raise (TypeError "unsupported operand type: str").
Proof.
  intros L Hs. unfold prepare_upi_features, core_transformations.
  assert (L' : lookup "amount" (columns (drop_columns label_columns df)) = Some s)
    by (rewrite lookup_drop; exact L).
  unfold when at 1. rewrite has_column_lookup, L'.
  unfold assign1, get_column. rewrite L'. cbn [bind].
  rewrite (series_map_text _ s Hs). reflexivity.
Qed.

End UpiMore.

(** ** The further properties at work on concrete inputs *)

Lemma normalize_probabilities_monotone_witness :
  exists out,
    normalize_probabilities [0.2; 0.8] = Ok out /\
    nth 0 out 0 <= nth 1 out 0.
Proof.
  eexists. split; [reflexivity|].
  apply (@normalize_probabilities_monotone [0.2; 0.8] _ 0 1);
    [reflexivity | cbn; lia | cbn; lia | discriminate].
Defined.

Lemma normalize_probabilities_idempotent_witness :
  exists out,
    normalize_probabilities [0.2; 0.8] = Ok out /\
    exists out2,
      normalize_probabilities out = Ok out2 /\ Forall2 Qeq out2 out.
Proof.
  eexists. split; [reflexivity|].
  apply (@normalize_probabilities_idempotent [0.2; 0.8]). reflexivity.
Defined.

Lemma degenerate_batch_all_low_witness :
  exists out,
    normalize_probabilities [0.4] = Ok out /\
    Buckets.apply_risk_buckets out "cdr"
    = Ok (map (fun _ => Buckets.low_label) [0.4]).
Proof.
  apply (@degenerate_batch_all_low [0.4] "cdr").
  - discriminate.
  - intros p q [<-|[]] [<-|[]]. reflexivity.
  - right. reflexivity.
Defined.

Lemma spread_batch_has_high_and_low_witness :
  exists out,
    normalize_probabilities [0.2; 0.8] = Ok out /\
    exists ls,
      Buckets.apply_risk_buckets out "upi" = Ok ls /\
      In Buckets.high_label ls /\ In Buckets.low_label ls /\
      Forall2 (fun p l =>
                 ((forall q, In q [0.2; 0.8] -> q <= p) -> l = Buckets.high_label) /\
                 ((forall q, In q [0.2; 0.8] -> p <= q) -> l = Buckets.low_label))
              [0.2; 0.8] ls.
Proof.
  eexists. split; [reflexivity|].
  apply (@spread_batch_has_high_and_low [0.2; 0.8] _ "upi").
  - reflexivity.
  - eexists. split; [right; left; reflexivity|].
    intro C. vm_compute in C. discriminate C.
  - left. reflexivity.
Defined.

(** An installation with every declared file on disk: the classifiers
    answer 0.9, the scalers change nothing. *)
Definition complete_install : Install Q :=
  {| base_dir := "/srv/app";
     project_root := "/srv";
     path_exists := fun _ => true;
     model_paths :=
       [("cdr", [("xgb", "models/cdr_xgb.pkl"); ("rf", "models/cdr_rf.pkl");
                 ("lr_meta", "models/cdr_lr.pkl"); ("iso", "models/cdr_iso.pkl");
                 ("ae", "models/cdr_ae.h5");
                 ("scaler_lr", "models/cdr_scaler_lr.pkl");
                 ("scaler_iso", "models/cdr_scaler_iso.pkl");
                 ("scaler_ae", "models/cdr_scaler_ae.pkl")])];
     joblib_load := fun _ => Ok 0.9;
     load_model := fun _ => Ok 0.5 |}.

Definition complete_bundle : list (string * Q) :=
  Eval vm_compute in
    match load_models complete_install "cdr" with
    | Ok b => b
    | Raise _ => []
    end.


Lemma cdr_features_are_clean_witness :
  exists out,
    prepare_cdr_features example_repr example_parse one_voip_call = Ok out /\
    nrows out = nrows one_voip_call /\
    (exists hours,
       get_column "call_hour" out = Ok hours /\
       Forall (fun v => exists q, v = VNum (Fin q) /\ 0 <= q /\ q <= 23) hours) /\
    (forall c s, In (c, s) (columns out) ->
       Forall (fun v => is_num v = true /\ is_missing v = false) s) /\
    (rectangular one_voip_call -> rectangular out).
Proof.
  apply (@cdr_features_are_clean example_repr example_parse one_voip_call).
  exact unique_labels_one_voip_call.
Defined.

Lemma cdr_indicators_one_hot_witness :
  exists out,
    prepare_cdr_features example_repr example_parse one_voip_call = Ok out /\
    forall final1 name1 final2 name2 col1 col2 i,
      In (final1, name1) final_dummies -> In (final2, name2) final_dummies ->
      get_column final1 out = Ok col1 -> get_column final2 out = Ok col2 ->
      (nth i col1 zero = of_bool true <->
       exists v, nth_error (raw_or one_voip_call "call_type" (VStr "")) i = Some v /\
                 clean_text example_repr v = name1) /\
      (nth i col1 zero = of_bool true -> nth i col2 zero = of_bool true ->
       final1 = final2).
Proof.
  apply (@cdr_indicators_one_hot example_repr example_parse one_voip_call).
  exact unique_labels_one_voip_call.
Defined.

Lemma cdr_numeric_columns_idempotent_witness :
  exists out out2,
    prepare_cdr_features example_repr example_parse one_voip_call = Ok out /\
    prepare_cdr_features example_repr example_parse out = Ok out2 /\
    forall c, In c (firstn 7 final_cols) -> get_column c out2 = get_column c out.
Proof.
  apply (@cdr_numeric_columns_idempotent example_repr example_parse one_voip_call).
  exact unique_labels_one_voip_call.
Defined.


Lemma upi_labels_are_the_schema_witness :
  exists training_order,
    getitem "upi_features" upi_schema_file = Ok training_order /\
    nrows upi_first_output = nrows upi_without_type /\
    forall c, In c (labels upi_first_output) <-> In c training_order.
Proof.
  apply (@upi_labels_are_the_schema example_log1p example_repr example_path
           upi_schema_file upi_without_type upi_first_output).
  vm_compute. reflexivity.
Defined.

(** A labelled transaction, and a schema that lists the label. *)
Definition labelled_transaction : DataFrame :=
  mkDF 1 [("amount", [VNum (Fin 5)]); ("isFraud", [VNum (Fin 1)])].

Definition schema_with_label : yaml_mapping :=
  [("upi_features", ["amount"; "isFraud"])].

Lemma upi_dropped_columns_do_not_leak_witness :
  exists X,
    prepare_upi_features example_log1p example_repr example_path
      (Some schema_with_label) labelled_transaction = Ok X /\
    In ("isFraud", [zero]) (columns X) /\
    [zero] = repeat zero (nrows labelled_transaction).
Proof.
  eexists. split; [vm_compute; reflexivity|].
  split; [right; left; reflexivity|].
  eapply (@upi_dropped_columns_do_not_leak example_log1p example_repr example_path
           schema_with_label labelled_transaction _ "isFraud" [zero]).
  - vm_compute. reflexivity.
  - left. reflexivity.
  - right. left. reflexivity.
Defined.

(** A transaction whose amount is a text. *)
Definition text_amount : DataFrame := mkDF 1 [("amount", [VStr "12,50"])].

Lemma upi_text_amount_raises_witness :
  prepare_upi_features example_log1p example_repr example_path None text_amount
  = Raise (TypeError "unsupported operand type: str").
Proof.
  apply (@upi_text_amount_raises example_log1p example_repr example_path None
           text_amount [VStr "12,50"]); reflexivity.
Defined.

(** * The application ([streamlit_app.py]) *)

(** [sub in s]. *)
Fixpoint contains (sub s : string) : bool :=
  String.prefix sub s
  || match s with
     | EmptyString => false
     | String _ r => contains sub r
     end.

(** [mode_key = "upi" if "UPI" in mode else "cdr"]. *)
Definition mode_key (mode : string) : string :=
  if contains "UPI" mode then "upi" else "cdr".

(** [df["risk_bucket"].astype(str).str.contains(word, na=False).sum()]. *)
Definition count_containing (word : string) (risk_bucket : list string) : nat :=
  List.length (filter (contains word) risk_bucket).

(** ** The overview counts *)

Lemma categorize_label (h m p : Q) :
  Buckets.categorize h m p = Buckets.high_label \/
  Buckets.categorize h m p = Buckets.medium_label \/
  Buckets.categorize h m p = Buckets.low_label.
Proof.
  unfold Buckets.categorize.
  destruct (Qle_bool h p); [tauto|]. destruct (Qle_bool m p); tauto.
Qed.

Lemma label_words (l : string) :
  l = Buckets.high_label \/ l = Buckets.medium_label \/ l = Buckets.low_label ->
  contains "High" l = String.eqb Buckets.high_label l /\
  contains "Medium" l = String.eqb Buckets.medium_label l /\
  contains "Low" l = String.eqb Buckets.low_label l /\
  ((if String.eqb Buckets.high_label l then 1 else 0)
   + (if String.eqb Buckets.medium_label l then 1 else 0)
   + (if String.eqb Buckets.low_label l then 1 else 0) = 1)%nat.
Proof. intros [-> | [-> | ->]]; vm_compute; repeat split. Qed.

(** X17.  The three overview counts, each taken by searching the labels
    for a word, partition the records: together they are the total, and
    each is the number of records that carry the label of its tier, for
    whatever batch and mode the labels were computed. *)
Theorem overview_counts_partition (probs : list Q) (mode : string)
    (risk_bucket : list string) :
  Buckets.apply_risk_buckets probs mode = Ok risk_bucket ->
  (count_containing "High" risk_bucket + count_containing "Medium" risk_bucket
   + count_containing "Low" risk_bucket = List.length probs)%nat /\
  count_containing "High" risk_bucket
  = List.length (filter (String.eqb Buckets.high_label) risk_bucket) /\
  count_containing "Medium" risk_bucket
  = List.length (filter (String.eqb Buckets.medium_label) risk_bucket) /\
  count_containing "Low" risk_bucket
  = List.length (filter (String.eqb Buckets.low_label) risk_bucket).
Proof.
  unfold Buckets.apply_risk_buckets.
  destruct (Buckets.thresholds mode) as [[h m]|e]; cbn [bind fst snd];
    [|discriminate].
  intro H. injection H as <-. unfold count_containing.
  induction probs as [|p r (IH0 & IH1 & IH2 & IH3)]; cbn [map filter List.length].
  - repeat split; reflexivity.
  - destruct (label_words (categorize_label h m p)) as (-> & -> & -> & One).
    destruct (String.eqb Buckets.high_label (Buckets.categorize h m p)),
             (String.eqb Buckets.medium_label (Buckets.categorize h m p)),
             (String.eqb Buckets.low_label (Buckets.categorize h m p));
      cbn [List.length]; cbn in One; repeat split; lia.
Qed.

(** ** Reasons: when they are given *)

Section ReasonMore.

Import Reason.

(** The fields [generate_reason] orders against a number, by branch. *)
Definition upi_ordered_fields : list string :=
  ["amount_log"; "sender_tx_count"; "sender_amount_std";
   "relative_amount_to_mean_sender"; "balance_gap_ratio"].

Definition cdr_ordered_fields : list string :=
  ["call_duration"; "tower_switch_rate"; "repeated_short_calls_last_1h";
   "distinct_callees_last_24h"; "call_cost"].

Definition ordered_fields (mode : string) : list string :=
  if String.eqb mode "upi" then upi_ordered_fields else cdr_ordered_fields.


Lemma gt_returns (v : value) (c : Q) :
  (exists b, gt v c = Ok b) <-> is_num v = true.
Proof.
  destruct v; cbn; split; intro H; try reflexivity; try discriminate.
  - eexists. reflexivity.
  - destruct H as (b & H). discriminate.
Qed.

Lemma lt_returns (v : value) (c : Q) :
  (exists b, lt v c = Ok b) <-> is_num v = true.
Proof.
  destruct v; cbn; split; intro H; try reflexivity; try discriminate.
  - eexists. reflexivity.
  - destruct H as (b & H). discriminate.
Qed.

Lemma elif_returns (v : value) (c d : Q) :
  (exists b, (a <- gt v c ;; b <- gt v d ;; Ok (negb a && b)) = Ok b)
  <-> is_num v = true.
Proof.
  destruct v; cbn; split; intro H; try reflexivity; try discriminate.
  - eexists. reflexivity.
  - destruct H as (b & H). discriminate.
Qed.

Lemma is_one_returns (v : value) : (exists b, is_one v = Ok b) <-> True.
Proof. split; [tauto|]. intros _. destruct v; eexists; reflexivity. Qed.

Lemma matching_returns_iff (rules : list rule) (r : row) :
  (exists m, matching rules r = Ok m)
  <-> Forall (fun rl => exists b, fst rl r = Ok b) rules.
Proof.
  induction rules as [|[pred clause] rest IH]; cbn [matching].
  - split; [constructor | eexists; reflexivity].
  - rewrite Forall_cons_iff, <- IH. cbn [fst]. split.
    + intros (m & H). destruct (pred r) as [b|]; cbn [bind] in H; [|discriminate].
      destruct (matching rest r) as [m'|]; cbn [bind] in H; [|discriminate].
      split; eexists; reflexivity.
    + intros [(b & ->) (m & ->)]. eexists. reflexivity.
Qed.





(** [generate_reason] returns exactly when the fields its branch orders
    against a number hold numbers. *)
Lemma generate_reason_returns (r : row) (mode : string) :
  (exists text, generate_reason r mode = Ok text) <->
  (forall k, In k (ordered_fields mode) -> is_num (get r k) = true).
Proof.
  unfold generate_reason. rewrite kept_reasons_spec. unfold spec_clauses.
  cbv zeta.
  transitivity (exists m,
                  matching (if String.eqb mode "upi" then upi_rules else cdr_rules) r
                  = Ok m).
  { split.
    - intros (text & H).
      destruct (matching _ r) as [m|]; [eexists; reflexivity | discriminate H].
    - intros (m & ->). eexists. reflexivity. }
  rewrite matching_returns_iff. unfold ordered_fields.
  destruct (String.eqb mode "upi").
  - unfold upi_rules, upi_ordered_fields.
    repeat rewrite Forall_cons_iff. cbn [fst].
    rewrite elif_returns, !gt_returns, !is_one_returns. split.
    + intros H k Hk. cbn [In] in Hk.
      destruct Hk as [<-|[<-|[<-|[<-|[<-|[]]]]]]; tauto.
    + intro H. repeat split; try constructor; apply H; cbn; tauto.
  - unfold cdr_rules, cdr_ordered_fields.
    repeat rewrite Forall_cons_iff. cbn [fst].
    rewrite lt_returns, !gt_returns, !is_one_returns. split.
    + intros H k Hk. cbn [In] in Hk.
      destruct Hk as [<-|[<-|[<-|[<-|[<-|[]]]]]]; tauto.
    + intro H. repeat split; try constructor; apply H; cbn; tauto.
Qed.


End ReasonMore.

(** ** From the upload to the reasons (lines 47 to 72) *)

(** The record of row [i] as [df.apply(..., axis=1)] passes it: every label
    with its cell. *)
Definition record (df : DataFrame) (i : nat) : Reason.row :=
  map (fun p => (fst p, nth i (snd p) (VNum NaN))) (columns df).

Definition records (df : DataFrame) : list Reason.row :=
  map (record df) (seq 0 (nrows df)).

(** [f] over a list, up to the first exception. *)
Fixpoint traverse {A B : Type} (f : A -> result B) (l : list A)
  : result (list B) :=
  match l with
  | [] => Ok []
  | a :: r => b <- f a ;; bs <- traverse f r ;; Ok (b :: bs)
  end.

Lemma traverse_total {A B : Type} (f : A -> result B) (l : list A) :
  (forall a, In a l -> exists b, f a = Ok b) ->
  exists bs, traverse f l = Ok bs /\ List.length bs = List.length l.
Proof.
  induction l as [|a r IH]; intro H; cbn [traverse].
  - exists []. split; reflexivity.
  - destruct (H a (or_introl eq_refl)) as (b & ->).
    destruct IH as (bs & -> & L); [intros x Hx; apply H; right; exact Hx|].
    cbn [bind]. exists (b :: bs). split; [reflexivity|]. cbn [List.length].
    rewrite L. reflexivity.
Qed.

Lemma get_record (df : DataFrame) (i : nat) (k : string) :
  Reason.get (record df i) k
  = match lookup k (columns df) with
    | Some s => nth i s (VNum NaN)
    | None => zero
    end.
Proof.
  unfold record. induction (columns df) as [|[l s] r IH];
    cbn [map Reason.get lookup fst snd]; [reflexivity|].
  destruct (String.eqb l k); [reflexivity | exact IH].
Qed.

Lemma nth_numeric (s : series) (i : nat) :
  Forall (fun v => is_num v = true) s -> is_num (nth i s (VNum NaN)) = true.
Proof.
  intro F. revert i. induction F as [|v r Hv _ IH]; intros [|i]; cbn [nth];
    try reflexivity; [exact Hv | apply IH].
Qed.

Section Application.

Variable log1p_finite : Q -> Q.
Variable num_repr : Q -> string.
Variable parse_number : string -> option num.
Variable feature_order_path : string.
Variable artifact : Type.
Variable predict_proba : artifact -> list value -> Q.
Variable transform : artifact -> list value -> list value.

(** What the page does with an uploaded table, up to the reasons: the
    scored table, or the exception that ends the run. *)
Definition analyse_upload (sys : Install artifact)
    (feature_order : option yaml_mapping) (mode : string) (df_raw : DataFrame)
  : result DataFrame :=
  let mode_key := mode_key mode in
  df <- (if String.eqb mode_key "upi"
         then prepare_upi_features log1p_finite num_repr feature_order_path
                feature_order df_raw
         else prepare_cdr_features num_repr parse_number df_raw) ;;
  models <- load_models sys mode_key ;;
  p_final <- predict_supervised log1p_finite num_repr parse_number
               feature_order_path predict_proba transform models feature_order
               df_raw mode_key true ;;
  let df := set_column "p_final" (map (fun q => VNum (Fin q)) p_final) df in
  risk_bucket <- Buckets.apply_risk_buckets p_final mode_key ;;
  let df := set_column "risk_bucket" (map VStr risk_bucket) df in
  reason <- traverse (fun r => Reason.generate_reason r mode_key) (records df) ;;
  Ok (set_column "reason" (map VStr reason) df).

Lemma cdr_ordered_fields_numeric (df_raw : DataFrame) (p b : series)
    (i : nat) (k : string) :
  In k cdr_ordered_fields ->
  is_num (Reason.get
            (record (set_column "risk_bucket" b
                       (set_column "p_final" p
                          (cdr_features num_repr parse_number df_raw))) i) k)
  = true.
Proof.
  intro Hk. rewrite get_record, !lookup_set_column.
  assert (E : exists c,
             String.eqb "risk_bucket" k = false /\
             String.eqb "p_final" k = false /\
             lookup k (columns (cdr_features num_repr parse_number df_raw))
             = Some (numeric_feature parse_number df_raw c)).
  { cbn [cdr_ordered_fields In] in Hk.
    destruct Hk as [<-|[<-|[<-|[<-|[<-|[]]]]]]; eexists;
      (split; [reflexivity|]); (split; [reflexivity|]); reflexivity. }
  destruct E as (c & -> & -> & ->).
  apply nth_numeric. unfold numeric_feature. apply Forall_forall.
  intros v Hv. apply in_map_iff in Hv. destruct Hv as (w & <- & _). reflexivity.
Qed.

(** X19.  With the models of the call domain loadable and classifiers
    that answer on every row, a call table with distinct labels and at
    least one row is analysed to the end whatever it holds: the run raises
    nothing, the result keeps the rows and has the eleven features followed
    by [p_final], [risk_bucket] and [reason], every probability lies
    between 0 and 1, and every row gets a label and a reason. *)
Theorem call_records_are_analysed (sys : Install artifact)
    (feature_order : option yaml_mapping) (mode : string) (df_raw : DataFrame)
    (bundle : list (string * artifact)) :
  contains "UPI" mode = false ->
  unique_labels df_raw ->
  nrows df_raw <> 0%nat ->
  load_models sys "cdr" = Ok bundle ->
  exists out p_final risk_bucket reason,
    analyse_upload sys feature_order mode df_raw = Ok out /\
    nrows out = nrows df_raw /\
    labels out = (final_cols ++ ["p_final"; "risk_bucket"; "reason"])%list /\
    get_column "p_final" out = Ok (map (fun q => VNum (Fin q)) p_final) /\
    get_column "risk_bucket" out = Ok (map VStr risk_bucket) /\
    get_column "reason" out = Ok (map VStr reason) /\
    List.length p_final = nrows df_raw /\
    List.length risk_bucket = nrows df_raw /\
    List.length reason = nrows df_raw /\
    Forall (fun y => 0 <= y /\ y <= 1) p_final.
Proof.
  intros Hmode _ Hrows HL.
  unfold analyse_upload, mode_key. rewrite Hmode. cbv zeta.
  change (String.eqb "cdr" "upi") with false. cbv iota.
  rewrite prepare_cdr_features_closed. cbn [bind]. rewrite HL. cbn [bind].
  destruct (load_models_roles _ _ HL) as (Hr & _).
  assert (HX : features log1p_finite num_repr parse_number feature_order_path
                 feature_order "cdr" df_raw
               = Ok (cdr_features num_repr parse_number df_raw)).
  { unfold features. change (String.eqb "cdr" "upi") with false.
    change (String.eqb "cdr" "cdr") with true. cbv iota.
    apply prepare_cdr_features_closed. }
  destruct (@predict_supervised_unnormalized log1p_finite num_repr parse_number
              feature_order_path artifact predict_proba transform bundle
              feature_order df_raw _ "cdr" HX)
    as (p & _ & L & En); try (rewrite Hr; cbn; tauto).
  rewrite En.
  destruct (@normalize_nonempty p) as (q & Eq & Lq & Fq).
  { intro Hp. subst p. cbn in L. apply Hrows. symmetry. exact L. }
  rewrite Eq. cbn [bind].
  change (Buckets.apply_risk_buckets q "cdr")
    with (Ok (map (Buckets.categorize 0.70 0.30) q)).
  cbn [bind].
  set (X := cdr_features num_repr parse_number df_raw) in *.
  set (ps := map (fun y => VNum (Fin y)) q).
  set (bs := map VStr (map (Buckets.categorize 0.70 0.30) q)).
  set (df2 := set_column "risk_bucket" bs (set_column "p_final" ps X)).
  destruct (@traverse_total _ _ (fun r => Reason.generate_reason r "cdr") (records df2))
    as (rs & Ers & Lrs).
  { intros r Hr'. unfold records in Hr'. apply in_map_iff in Hr'.
    destruct Hr' as (i & <- & _).
    apply (proj2 (generate_reason_returns (record df2 i) "cdr")).
    intros k Hk. apply cdr_ordered_fields_numeric. exact Hk. }
  rewrite Ers. cbn [bind].
  assert (N2 : nrows df2 = nrows df_raw)
    by (unfold df2; rewrite !nrows_set_column; reflexivity).
  assert (L1 : labels (set_column "p_final" ps X)
               = (final_cols ++ ["p_final"])%list)
    by (rewrite labels_set_column; reflexivity).
  assert (L2 : labels df2 = (final_cols ++ ["p_final"; "risk_bucket"])%list).
  { unfold df2. rewrite labels_set_column. unfold has_column. rewrite L1.
    reflexivity. }
  exists (set_column "reason" (map VStr rs) df2), q,
         (map (Buckets.categorize 0.70 0.30) q), rs.
  split; [reflexivity|].
  split; [rewrite nrows_set_column; exact N2|].
  split.
  { rewrite labels_set_column. unfold has_column. rewrite L2. reflexivity. }
  split.
  { unfold get_column, df2. rewrite !lookup_set_column. reflexivity. }
  split.
  { unfold get_column, df2. rewrite !lookup_set_column. reflexivity. }
  split.
  { unfold get_column. rewrite lookup_set_column. reflexivity. }
  assert (Lq' : List.length q = nrows df_raw) by (rewrite Lq, L; reflexivity).
  split; [exact Lq'|].
  split; [rewrite length_map; exact Lq'|].
  split; [|exact Fq].
  rewrite Lrs. unfold records. rewrite length_map, length_seq. exact N2.
Qed.

End Application.

(** ** The application at work on concrete inputs *)

Lemma overview_counts_partition_witness :
  (count_containing "High" [Buckets.low_label; Buckets.high_label]
   + count_containing "Medium" [Buckets.low_label; Buckets.high_label]
   + count_containing "Low" [Buckets.low_label; Buckets.high_label]
   = List.length [0.2; 0.75]%Q)%nat /\
  count_containing "High" [Buckets.low_label; Buckets.high_label]
  = List.length (filter (String.eqb Buckets.high_label)
                   [Buckets.low_label; Buckets.high_label]) /\
  count_containing "Medium" [Buckets.low_label; Buckets.high_label]
  = List.length (filter (String.eqb Buckets.medium_label)
                   [Buckets.low_label; Buckets.high_label]) /\
  count_containing "Low" [Buckets.low_label; Buckets.high_label]
  = List.length (filter (String.eqb Buckets.low_label)
                   [Buckets.low_label; Buckets.high_label]).
Proof.
  apply (@overview_counts_partition [0.2; 0.75] "cdr"
           [Buckets.low_label; Buckets.high_label]).
  reflexivity.
Defined.

Lemma call_records_are_analysed_witness :
  exists out p_final risk_bucket reason,
    analyse_upload example_log1p example_repr example_parse example_path
      constant_proba identity_transform complete_install None
      "📞 Call Records" one_voip_call = Ok out /\
    nrows out = nrows one_voip_call /\
    labels out = (final_cols ++ ["p_final"; "risk_bucket"; "reason"])%list /\
    get_column "p_final" out = Ok (map (fun q => VNum (Fin q)) p_final) /\
    get_column "risk_bucket" out = Ok (map VStr risk_bucket) /\
    get_column "reason" out = Ok (map VStr reason) /\
    List.length p_final = nrows one_voip_call /\
    List.length risk_bucket = nrows one_voip_call /\
    List.length reason = nrows one_voip_call /\
    Forall (fun y => 0 <= y /\ y <= 1) p_final.
Proof.
  apply (@call_records_are_analysed example_log1p example_repr example_parse
           example_path Q constant_proba identity_transform complete_install
           None "📞 Call Records" one_voip_call complete_bundle).
  - reflexivity.
  - exact unique_labels_one_voip_call.
  - discriminate.
  - vm_compute. reflexivity.
Defined.
